(** * AVP credential vault (avp-ts): backends, default rotation, sessions

    A shallow embedding of the storage backends of the TypeScript
    implementation (src/backends/memory.ts, src/backends/file.ts,
    src/backends/keychain.ts, the abstract class of src/backends/base.ts),
    of the client of src/client.ts (sessions and the operations on
    secrets), of the error classes and error responses of src/errors.ts and
    of the validators of src/types.ts, with the properties the
    specification states about them and further properties of the code.

    Conventions of the embedding.
    - A JavaScript number that holds a count, a version, a length or a time
      value is an integer of [Z]; rounding of doubles and NaN are not part
      of the model.
    - A [Date] is its time value in milliseconds, or the Invalid Date.
    - A [Map] is a finite map ([gmap]). A plain object used as a dictionary
      is the finite map of its own keys, and a lookup [object[key]] finds an
      own key first and then what the object inherits from
      [Object.prototype] ([property_of], with the inherited keys listed in
      [Errors.Object_prototype]): under "constructor" the function [Object],
      under "__proto__" the prototype itself. These objects of the language
      are as the language defines them when a call starts. A call that
      takes one of them for a workspace, or that writes to the prototype,
      leaves what the embedding follows: its outcome is [Beyond].
    - A string is the sequence of its code units, each of one byte.
    - A method that mutates [this] and may throw is a function from the
      state before the call to an outcome and the state after it. *)

From Stdlib Require Import ZArith Ascii String OrdersEx.
From stdpp Require Import base option list gmap strings fin_maps sorting pretty.

Local Open Scope string_scope.
Local Open Scope Z_scope.

Global Instance byte_eq_dec : EqDecision Byte.byte.
Proof. intros a b. exact (Stdlib.Strings.Byte.byte_eq_dec a b). Defined.

(** ** Errors (src/errors.ts) and outcomes *)

Inductive AVPError : Type :=
  | AuthenticationError
  | SessionExpiredError
  | SessionTerminatedError
  | SessionNotFoundError
  | SecretNotFoundError
  | InvalidNameError
  | InvalidWorkspaceError
  | CapacityExceededError
  | BackendError
  | BackendUnavailableError
  | RateLimitError
  | ValueTooLargeError
  | EncryptionError
  | IntegrityError
  | RangeError (* thrown by the runtime: Date.prototype.toISOString *)
  | TypeError (* thrown by the runtime: a property read off [undefined] *).

(** The [code] field each error class passes to [AVPError].
    [BackendUnavailableError] hands ["BACKEND_UNAVAILABLE"] to [BackendError]
    in the place of the detail, so its code is the one of [BackendError]. *)
Definition code (e : AVPError) : string :=
  match e with
  | AuthenticationError => "AUTHENTICATION_FAILED"
  | SessionExpiredError => "SESSION_EXPIRED"
  | SessionTerminatedError => "SESSION_TERMINATED"
  | SessionNotFoundError => "SESSION_NOT_FOUND"
  | SecretNotFoundError => "SECRET_NOT_FOUND"
  | InvalidNameError => "INVALID_NAME"
  | InvalidWorkspaceError => "INVALID_WORKSPACE"
  | CapacityExceededError => "CAPACITY_EXCEEDED"
  | BackendError => "BACKEND_ERROR"
  | BackendUnavailableError => "BACKEND_ERROR"
  | RateLimitError => "RATE_LIMIT_EXCEEDED"
  | ValueTooLargeError => "VALUE_TOO_LARGE"
  | EncryptionError => "ENCRYPTION_ERROR"
  | IntegrityError => "INTEGRITY_ERROR"
  | RangeError => "RangeError"
  | TypeError => "TypeError"
  end.

(** How a call ends: it returns, it throws, or it goes on in an object of
    the language itself (the function [Object], [Object.prototype] or one
    of its methods), whose properties the embedding does not follow. *)
Inductive outcome (A : Type) : Type :=
  | Return (a : A)
  | Throw (e : AVPError)
  | Beyond.
Arguments Return {A} a.
Arguments Throw {A} e.
Arguments Beyond {A}.

(** A method of an object of state [S]: the outcome of the call and the
    state it leaves, also when it throws. With [Beyond] the state is the
    one the object had when the call left for an object of the language;
    nothing is said of what the call does from there on. *)
Definition method (S A : Type) : Type := S → outcome A * S.

Definition method_ret {S A} (a : A) : method S A := λ s, (Return a, s).
Definition method_throw {S A} (e : AVPError) : method S A := λ s, (Throw e, s).
Definition method_bind {S A B} (m : method S A) (k : A → method S B) : method S B :=
  λ s, match m s with
       | (Return a, s') => k a s'
       | (Throw e, s') => (Throw e, s')
       | (Beyond, s') => (Beyond, s')
       end.

Global Instance method_mret {S} : MRet (method S) := λ A, method_ret.
Global Instance method_mbind {S} : MBind (method S) := λ A B k m, method_bind m k.

(** ** Error objects and error responses (src/errors.ts) *)

Module Errors.

(** The [detail] of an error, a plain object; the one detail the module
    builds itself has a string for its value. *)
Definition Detail : Type := gmap string string.

(** An instance of [AVPError] or of one of its subclasses: [name] is the
    name the constructor of the class leaves in [this.name]. *)
Record error_object : Type := mkError {
  name : string;
  code : string;
  message : string;
  detail : Detail;
}.

(** [this.name = n], the last statement of each constructor. *)
Definition set_name (n : string) (e : error_object) : error_object :=
  {| name := n; code := code e; message := message e; detail := detail e |}.

(** The constructors. An optional parameter is an [option]: its default
    applies when the argument is [undefined]. *)
Definition new_AVPError (message : string) (code : option string)
    (detail : option Detail) : error_object :=
  {| name := "AVPError";
     code := default "AVP_ERROR" code;
     message := message;
     detail := default ∅ detail |}.

Definition new_AuthenticationError (message : option string)
    (detail : option Detail) : error_object :=
  set_name "AuthenticationError"
    (new_AVPError (default "Authentication failed" message)
       (Some "AUTHENTICATION_FAILED") (Some (default ∅ detail))).

Definition new_SessionError (message : string) (code : option string)
    (detail : option Detail) : error_object :=
  set_name "SessionError"
    (new_AVPError message (Some (default "SESSION_ERROR" code))
       (Some (default ∅ detail))).

Definition new_SessionExpiredError (message : option string) : error_object :=
  set_name "SessionExpiredError"
    (new_SessionError (default "Session has expired" message)
       (Some "SESSION_EXPIRED") None).

Definition new_SessionTerminatedError (message : option string) : error_object :=
  set_name "SessionTerminatedError"
    (new_SessionError (default "Session was terminated" message)
       (Some "SESSION_TERMINATED") None).

Definition new_SessionNotFoundError (message : option string) : error_object :=
  set_name "SessionNotFoundError"
    (new_SessionError (default "Session not found" message)
       (Some "SESSION_NOT_FOUND") None).

Definition new_SecretNotFoundError (message : option string) : error_object :=
  set_name "SecretNotFoundError"
    (new_AVPError (default "Secret not found" message)
       (Some "SECRET_NOT_FOUND") None).

Definition new_InvalidNameError (message : option string) : error_object :=
  set_name "InvalidNameError"
    (new_AVPError (default "Invalid name" message) (Some "INVALID_NAME") None).

Definition new_InvalidWorkspaceError (message : option string) : error_object :=
  set_name "InvalidWorkspaceError"
    (new_AVPError (default "Invalid workspace" message)
       (Some "INVALID_WORKSPACE") None).

Definition new_CapacityExceededError (message : option string)
    (detail : option Detail) : error_object :=
  set_name "CapacityExceededError"
    (new_AVPError (default "Capacity exceeded" message)
       (Some "CAPACITY_EXCEEDED") (Some (default ∅ detail))).

Definition new_BackendError (message : option string)
    (detail : option Detail) : error_object :=
  set_name "BackendError"
    (new_AVPError (default "Backend error" message)
       (Some "BACKEND_ERROR") (Some (default ∅ detail))).

(** [super(message, { code: "BACKEND_UNAVAILABLE" })]: the second parameter
    of [BackendError] is the detail. *)
Definition new_BackendUnavailableError (message : option string) : error_object :=
  set_name "BackendUnavailableError"
    (new_BackendError (Some (default "Backend unavailable" message))
       (Some {[ "code" := "BACKEND_UNAVAILABLE" ]})).

Definition new_RateLimitError (message : option string)
    (detail : option Detail) : error_object :=
  set_name "RateLimitError"
    (new_AVPError (default "Rate limit exceeded" message)
       (Some "RATE_LIMIT_EXCEEDED") (Some (default ∅ detail))).

Definition new_ValueTooLargeError (message : option string) : error_object :=
  set_name "ValueTooLargeError"
    (new_AVPError (default "Value too large" message)
       (Some "VALUE_TOO_LARGE") None).

Definition new_EncryptionError (message : option string) : error_object :=
  set_name "EncryptionError"
    (new_AVPError (default "Encryption error" message)
       (Some "ENCRYPTION_ERROR") None).

Definition new_IntegrityError (message : option string) : error_object :=
  set_name "IntegrityError"
    (new_AVPError (default "Integrity error" message)
       (Some "INTEGRITY_ERROR") None).

(** The [error] member of a response and the response; a member that is
    absent is [None]. *)
Record ErrorData : Type := mkErrorData {
  data_code : option string;
  data_message : option string;
  data_detail : option Detail;
}.

Record Response : Type := mkResponse {
  ok : option bool;
  error : option ErrorData;
}.

Definition toJSON (this : error_object) : Response :=
  {| ok := Some false;
     error := Some {| data_code := Some (code this);
                      data_message := Some (message this);
                      data_detail := Some (detail this) |} |}.

(** The entries of [ERROR_MAP]: each class as [fromErrorResponse] calls it,
    with a message and nothing else. *)
Definition ERROR_MAP_entries : list (string * (string → error_object)) :=
  [ ("AUTHENTICATION_FAILED", λ m, new_AuthenticationError (Some m) None);
    ("SESSION_ERROR", λ m, new_SessionError m None None);
    ("SESSION_EXPIRED", λ m, new_SessionExpiredError (Some m));
    ("SESSION_TERMINATED", λ m, new_SessionTerminatedError (Some m));
    ("SESSION_NOT_FOUND", λ m, new_SessionNotFoundError (Some m));
    ("SECRET_NOT_FOUND", λ m, new_SecretNotFoundError (Some m));
    ("INVALID_NAME", λ m, new_InvalidNameError (Some m));
    ("INVALID_WORKSPACE", λ m, new_InvalidWorkspaceError (Some m));
    ("CAPACITY_EXCEEDED", λ m, new_CapacityExceededError (Some m) None);
    ("BACKEND_ERROR", λ m, new_BackendError (Some m) None);
    ("BACKEND_UNAVAILABLE", λ m, new_BackendUnavailableError (Some m));
    ("RATE_LIMIT_EXCEEDED", λ m, new_RateLimitError (Some m) None);
    ("VALUE_TOO_LARGE", λ m, new_ValueTooLargeError (Some m));
    ("ENCRYPTION_ERROR", λ m, new_EncryptionError (Some m));
    ("INTEGRITY_ERROR", λ m, new_IntegrityError (Some m)) ].

Definition ERROR_MAP : gmap string (string → error_object) :=
  list_to_map ERROR_MAP_entries.

(** [ERROR_MAP] is an object literal, and [ERROR_MAP[code]] also finds what
    the literal inherits from [Object.prototype]: these keys. *)
Definition Object_prototype : list string :=
  [ "constructor"; "__defineGetter__"; "__defineSetter__"; "hasOwnProperty";
    "__lookupGetter__"; "__lookupSetter__"; "isPrototypeOf";
    "propertyIsEnumerable"; "toString"; "valueOf"; "__proto__";
    "toLocaleString" ].

(** [(x as string) || d]: [d] when [x] is absent or the empty string. *)
Definition or_else (x : option string) (d : string) : string :=
  match x with
  | Some s => if bool_decide (s = "") then d else s
  | None => d
  end.

(** [fromErrorResponse]. For a code that is a key of [Object.prototype] the
    inherited value is taken for the class and no [AVPError] comes out (the
    call throws a [TypeError] or returns a wrapper object): [None]. *)
Definition fromErrorResponse (response : Response) : option error_object :=
  let errorData :=
    default {| data_code := None; data_message := None; data_detail := None |}
            (error response) in
  let code := or_else (data_code errorData) "AVP_ERROR" in
  let message := or_else (data_message errorData) "Unknown error" in
  match ERROR_MAP !! code with
  | Some ErrorClass => Some (ErrorClass message)
  | None =>
      if bool_decide (code ∈ Object_prototype) then None
      else Some (new_AVPError message None None)
  end.

End Errors.

(** ** Plain objects used as dictionaries

    [object[key]] on an object literal: the value of the own key, else what
    [Object.prototype] has under the key, else [undefined]. Each of the
    values that [Object.prototype] has under its keys is an object (a
    function, and under "__proto__" a getter that gives the prototype), so
    it is truthy and it has none of the properties of a stored record. *)
Inductive property (A : Type) : Type :=
  | Own (a : A)
  | Inherited
  | Undefined.
Arguments Own {A} a.
Arguments Inherited {A}.
Arguments Undefined {A}.

Definition property_of {A} (object : gmap string A) (key : string) : property A :=
  match object !! key with
  | Some a => Own a
  | None =>
      if bool_decide (key ∈ Errors.Object_prototype) then Inherited else Undefined
  end.

(** ** Data model (src/types.ts) *)

Module Types.

Inductive BackendType : Type := FILE | KEYCHAIN | HARDWARE | REMOTE | MEMORY.

Inductive AuthMethod : Type := NONE | PIN | TOKEN | MTLS | OS | TERMINATE.

Inductive Date : Type :=
| ValidDate (time : Z)
| InvalidDate.

(** [a > b] on two dates compares the time values; it is false as soon as
  one of them is the Invalid Date. *)
Definition Date_gt (a b : Date) : bool :=
match a, b with
| ValidDate x, ValidDate y => bool_decide (y < x)
| _, _ => false
end.

Record SecretMetadata : Type := mkSecretMetadata {
createdAt : Date;
updatedAt : Date;
backend : BackendType;
version : Z;
labels : gmap string string;
expiresAt : option Date;
}.

Record Secret : Type := mkSecret {
name : string;
workspace : string;
metadata : SecretMetadata;
}.

Record Limits : Type := mkLimits {
maxSecretNameLength : Z;
maxSecretValueLength : Z;
maxLabelsPerSecret : Z;
maxSecretsPerWorkspace : Z;
maxSessionTtlSeconds : Z;
}.

Definition defaultLimits : Limits :=
{| maxSecretNameLength := 255;
   maxSecretValueLength := 65536;
   maxLabelsPerSecret := 64;
   maxSecretsPerWorkspace := 1000;
   maxSessionTtlSeconds := 86400 |}.

End Types.
Export Types.

(** Results of the backend operations (src/backends/base.ts). *)

Record StoreResult : Type := mkStoreResult {
  created : bool;
  store_version : Z;
}.

Record RetrieveResult : Type := mkRetrieveResult {
  value : list Byte.byte;
  retrieve_version : Z;
}.

Record ListResult : Type := mkListResult {
  secrets : list Secret;
  cursor : option string;
}.

(** ** The host

    What a call reads from its surroundings: the clock ([new Date()]) and
    the random source ([crypto.randomBytes]). *)

Record Env : Type := mkEnv {
  now : Z;
  randomBytes : nat → list Byte.byte;
}.

(** Library functions of the JavaScript host that the embedding does not
    compute: the collation of [String.prototype.localeCompare] and the
    [base64url] text of a buffer. ECMA-262 requires [localeCompare] to be a
    consistent comparison function on all strings; the two laws are that
    requirement for the order "[a] does not sort after [b]". *)
Class Host : Type := {
  localeCompare : string → string → Z;
  base64url : list Byte.byte → string;
  localeCompare_total :
    ∀ a b : string, localeCompare a b ≤ 0 ∨ localeCompare b a ≤ 0;
  localeCompare_trans :
    ∀ a b c : string,
      localeCompare a b ≤ 0 → localeCompare b c ≤ 0 → localeCompare a c ≤ 0;
}.

(** *** [parseInt(s, 10)], [Array.prototype.slice], [String(n)] *)

Definition is_digit (c : ascii) : bool :=
  bool_decide (48 ≤ Z.of_N (N_of_ascii c) ≤ 57).

Definition digit_value (c : ascii) : Z := Z.of_N (N_of_ascii c) - 48.

(** White space that [parseInt] skips (the one-byte part of it). *)
Definition is_space (c : ascii) : bool :=
  let n := Z.of_N (N_of_ascii c) in
  bool_decide (n = 32 ∨ 9 ≤ n ≤ 13 ∨ n = 160).

Fixpoint skip_spaces (s : string) : string :=
  match s with
  | String c s' => if is_space c then skip_spaces s' else s
  | EmptyString => s
  end.

(** The value of the longest prefix of decimal digits, [None] when the
    prefix is empty. *)
Fixpoint leading_digits (acc : option Z) (s : string) : option Z :=
  match s with
  | String c s' =>
      if is_digit c
      then leading_digits (Some (10 * default 0 acc + digit_value c)) s'
      else acc
  | EmptyString => acc
  end.

(** [parseInt(s, 10)]; [None] is NaN. *)
Definition parseInt (s : string) : option Z :=
  match skip_spaces s with
  | String "-" s' => Z.opp <$> leading_digits None s'
  | String "+" s' => leading_digits None s'
  | s' => leading_digits None s'
  end.

(** A relative index of [slice] clamped into [0, len]. *)
Definition relative_index (len k : Z) : Z :=
  if bool_decide (k < 0) then Z.max (len + k) 0 else Z.min k len.

(** [arr.slice(start, end)]. *)
Definition slice {A} (arr : list A) (start end_ : Z) : list A :=
  let len := Z.of_nat (length arr) in
  let k := relative_index len start in
  let final := relative_index len end_ in
  take (Z.to_nat (final - k)) (drop (Z.to_nat k) arr).

(** ** Listing: what memory.ts and file.ts do in the same words

    The label filter, the comparison function of the sort and the
    pagination are written identically in the two backends. *)

(** [Object.entries(filterLabels).every(([k, v]) => labels[k] === v)]. *)
Definition labels_match (filterLabels : option (gmap string string))
    (labels : gmap string string) : bool :=
  match filterLabels with
  | Some f => forallb (λ kv, bool_decide (labels !! kv.1 = Some kv.2)) (map_to_list f)
  | None => true
  end.

(** The comparison function handed to [Array.prototype.sort], as the order
    it sorts by: [a] may stand before [b]. The sort itself is stdpp's
    [merge_sort] for this order, a stable sort as the one of the language. *)
Definition name_le `{Host} (a b : Secret) : Prop :=
  localeCompare (name a) (name b) ≤ 0.

Global Instance name_le_dec `{Host} a b : Decision (name_le a b).
Proof. unfold name_le. apply _. Defined.

(** [start] of the page: the cursor when it is a non-empty string that
    [parseInt] reads as a number, else 0. *)
Definition page_start (cursor : option string) : Z :=
  match cursor with
  | Some c => if bool_decide (c = "") then 0 else default 0 (parseInt c)
  | None => 0
  end.

Definition paginate (secrets : list Secret) (cursor : option string)
    (limit : option Z) : ListResult :=
  let start := page_start cursor in
  let end_ := start + default 100 limit in
  let page := slice secrets start end_ in
  let nextCursor :=
    if bool_decide (end_ < Z.of_nat (length secrets))
    then Some (pretty end_) else None in
  {| secrets := page; cursor := nextCursor |}.

(** [version !== undefined && version !== current], the version check of
    [retrieve]. *)
Definition version_mismatch (version : option Z) (current : Z) : bool :=
  match version with
  | Some v => bool_decide (v ≠ current)
  | None => false
  end.

(** ** The backend contract (src/backends/base.ts) *)

Module Backend.

(** The abstract members of [BackendBase]. Each operation receives the
    host as it is at the time of the call. *)
Class BackendBase (B : Type) : Type := {
  backendType : B → BackendType;
  backendId : B → string;
  limits : B → Limits;
  store : string → string → list Byte.byte → option (gmap string string) →
          option Date → Env → method B StoreResult;
  retrieve : string → string → option Z → Env → method B RetrieveResult;
  delete : string → string → Env → method B bool;
  listSecrets : string → option (gmap string string) → option string →
                option Z → Env → method B ListResult;
  getMetadata : string → string → Env → method B SecretMetadata;
}.

(** The default [rotate]: verify that the secret exists, then store.
    [env1] is the host at the call of [getMetadata], [env2] at the call of
    [store]; [store] receives neither labels nor an expiration. *)
Definition rotate {B} `{BackendBase B}
    (workspace name : string) (newValue : list Byte.byte)
    (env1 env2 : Env) : method B Z :=
  _ ← getMetadata workspace name env1;
  result ← store workspace name newValue None None env2;
  mret (store_version result).

End Backend.

(** ** Workspace isolation, as a property of an operation

    [op A] is an operation invoked on the workspace [A] of a backend whose
    state [s] keeps the data of the workspace [w] under [data s !! w]. The
    operation is isolated from the workspace [B] when it leaves the data
    under [B] as it finds it, and when neither its outcome nor what it
    leaves under the other workspaces depends on the data under [B]: two
    states that differ only under [B] give the same outcome and states that
    still differ only under [B]. *)
Definition isolated {S D R : Type} (data : S → gmap string D)
    (op : string → method S R) (A B : string) : Prop :=
  ∀ s : S,
    data (op A s).2 !! B = data s !! B ∧
    ∀ s' : S,
      (∀ w, w ≠ B → data s !! w = data s' !! w) →
      (op A s).1 = (op A s').1 ∧
      (∀ w, w ≠ B → data (op A s).2 !! w = data (op A s').2 !! w).

(** ** The in-memory backend (src/backends/memory.ts) *)

Module Memory.

Record StoredSecret : Type := mkStoredSecret {
  stored_value : list Byte.byte;
  stored_metadata : SecretMetadata;
}.

Record MemoryBackend : Type := mkMemoryBackend {
  _backendId : string;
  _secrets : gmap string (gmap string StoredSecret);
}.

Definition set_secrets (this : MemoryBackend)
    (m : gmap string (gmap string StoredSecret)) : MemoryBackend :=
  {| _backendId := _backendId this; _secrets := m |}.

(** The entry kept under [(workspace, name)], if there is one. *)
Definition lookup_secret (this : MemoryBackend) (workspace name : string)
    : option StoredSecret :=
  _secrets this !! workspace ≫= (.!! name).

(** The state after [ws.delete(name)] on the map of [workspace]. *)
Definition after_delete (this : MemoryBackend) (workspace name : string)
    : MemoryBackend :=
  set_secrets this
    (<[workspace := base.delete name (default ∅ (_secrets this !! workspace))]>
       (_secrets this)).

(** [new MemoryBackend(backendId)]. *)
Definition new (backendId : option string) : MemoryBackend :=
  {| _backendId := default "memory-0" backendId; _secrets := ∅ |}.

Definition limits : Limits :=
  {| maxSecretNameLength := 255;
     maxSecretValueLength := 65536;
     maxLabelsPerSecret := 64;
     maxSecretsPerWorkspace := 10000;
     maxSessionTtlSeconds := 86400 |}.

(** [secret.metadata.expiresAt && now > secret.metadata.expiresAt]: a
    [Date] object is always truthy. *)
Definition expired (now : Z) (m : SecretMetadata) : bool :=
  match expiresAt m with
  | Some e => Date_gt (ValidDate now) e
  | None => false
  end.

Definition store (workspace name : string) (value : list Byte.byte)
    (labels : option (gmap string string)) (expiresAt : option Date)
    (env : Env) : method MemoryBackend StoreResult := λ this,
  (* if (!this._secrets.has(workspace)) this._secrets.set(workspace, new Map()) *)
  let secrets :=
    match _secrets this !! workspace with
    | None => <[workspace := ∅]> (_secrets this)
    | Some _ => _secrets this
    end in
  let ws := default ∅ (secrets !! workspace) in
  let now := ValidDate (now env) in
  let existing := ws !! name in
  let created := bool_decide (existing = None) in
  let '(version, createdAt) :=
    match existing with
    | None => (1, now)
    | Some e => (version (stored_metadata e) + 1, createdAt (stored_metadata e))
    end in
  let metadata :=
    {| createdAt := createdAt;
       updatedAt := now;
       backend := MEMORY;
       version := version;
       labels := default ∅ labels;
       expiresAt := expiresAt |} in
  (* ws.set(name, { value: new Uint8Array(value), metadata }) *)
  let ws' := <[name := {| stored_value := value; stored_metadata := metadata |}]> ws in
  (Return {| created := created; store_version := version |},
   set_secrets this (<[workspace := ws']> secrets)).

Definition retrieve (workspace name : string) (version : option Z)
    (env : Env) : method MemoryBackend RetrieveResult := λ this,
  match _secrets this !! workspace with
  | None => (Throw SecretNotFoundError, this)
  | Some ws =>
      match ws !! name with
      | None => (Throw SecretNotFoundError, this)
      | Some secret =>
          if expired (now env) (stored_metadata secret)
          then (* ws.delete(name) *)
            (Throw SecretNotFoundError,
             set_secrets this (<[workspace := base.delete name ws]> (_secrets this)))
          else
            if version_mismatch version (Types.version (stored_metadata secret))
            then (Throw SecretNotFoundError, this)
            else
              (* a copy of the stored bytes *)
              (Return {| value := stored_value secret;
                         retrieve_version := Types.version (stored_metadata secret) |},
               this)
      end
  end.

Definition delete (workspace name : string) : method MemoryBackend bool := λ this,
  match _secrets this !! workspace with
  | None => (Return false, this)
  | Some ws =>
      match ws !! name with
      | None => (Return false, this)
      | Some secret =>
          (* secret.value.fill(0) zeroes the stored copy, which nothing else
             refers to; ws.delete(name) *)
          (Return true,
           set_secrets this (<[workspace := base.delete name ws]> (_secrets this)))
      end
  end.

(** The loop over the entries of the workspace: expired secrets and
    secrets that do not match the label filter are skipped. The entries
    come in the order of [map_to_list] rather than in insertion order; the
    list is sorted before anything is returned. *)
Definition listed (workspace : string) (filterLabels : option (gmap string string))
    (now : Z) (ws : gmap string StoredSecret) : list Secret :=
  omap (λ entry : string * StoredSecret,
          let '(name, stored) := entry in
          if expired now (stored_metadata stored) then None
          else if negb (labels_match filterLabels (labels (stored_metadata stored)))
          then None
          else Some {| name := name; workspace := workspace;
                       metadata := stored_metadata stored |})
       (map_to_list ws).

Definition listSecrets `{Host} (workspace : string)
    (filterLabels : option (gmap string string)) (cursor : option string)
    (limit : option Z) (env : Env) : method MemoryBackend ListResult := λ this,
  match _secrets this !! workspace with
  | None => (Return {| secrets := []; cursor := None |}, this)
  | Some ws =>
      let secrets := listed workspace filterLabels (now env) ws in
      let secrets := merge_sort name_le secrets in
      (Return (paginate secrets cursor limit), this)
  end.

Definition getMetadata (workspace name : string) (env : Env)
    : method MemoryBackend SecretMetadata := λ this,
  match _secrets this !! workspace with
  | None => (Throw SecretNotFoundError, this)
  | Some ws =>
      match ws !! name with
      | None => (Throw SecretNotFoundError, this)
      | Some secret =>
          if expired (now env) (stored_metadata secret)
          then (Throw SecretNotFoundError,
                set_secrets this (<[workspace := base.delete name ws]> (_secrets this)))
          else (Return (stored_metadata secret), this)
      end
  end.

(** [clear()]. *)
Definition clear (this : MemoryBackend) : MemoryBackend := set_secrets this ∅.

Global Instance is_backend `{Host} : Backend.BackendBase MemoryBackend := {|
  Backend.backendType := λ _, MEMORY;
  Backend.backendId := _backendId;
  Backend.limits := λ _, limits;
  Backend.store := store;
  Backend.retrieve := retrieve;
  Backend.delete := λ workspace name _, delete workspace name;
  Backend.listSecrets := listSecrets;
  Backend.getMetadata := getMetadata;
|}.

End Memory.

(** ** The encrypted file backend (src/backends/file.ts) *)

Module File.

(** The stored form of a secret: the value in base64, the timestamps as
    ISO strings. *)
Record StoredMetadata : Type := mkStoredMetadata {
  createdAt : string;
  updatedAt : string;
  backend : string;
  version : Z;
  labels : gmap string string;
  expiresAt : option string;
}.

Record StoredSecret : Type := mkStoredSecret {
  stored_value : string;
  metadata : StoredMetadata;
}.

Record StoredData : Type := mkStoredData {
  data_version : Z;
  workspaces : gmap string (gmap string StoredSecret);
}.

(** The functions of Node.js that the backend calls and the embedding
    does not compute. [aes_256_gcm_decrypt] is [None] when the decipher
    throws (a bad initialization vector or tag, a failed authentication);
    [JSON_parse] is [None] when [JSON.parse] throws; [Date_parse] is
    [new Date(text)]. *)
Class Node : Type := {
  scryptSync : string → string → nat → list Byte.byte;
  aes_256_gcm_encrypt : list Byte.byte → list Byte.byte → string →
                        list Byte.byte * list Byte.byte;
  aes_256_gcm_decrypt : list Byte.byte → list Byte.byte → list Byte.byte →
                        list Byte.byte → option string;
  JSON_stringify : StoredData → string;
  JSON_parse : string → option StoredData;
  base64_encode : list Byte.byte → string;
  base64_decode : string → list Byte.byte;
  Date_toISOString : Z → string;
  Date_parse : string → Date;
}.

(** The file system as far as the backend uses it: the contents of the
    files that exist, and the permission bits set by [chmodSync].
    Directories are not modelled and a write does not fail. *)
Record FileSystem : Type := mkFileSystem {
  files : gmap string (list Byte.byte);
  modes : gmap string Z;
}.

Definition writeFileSync (path : string) (content : list Byte.byte)
    (fs : FileSystem) : FileSystem :=
  {| files := <[path := content]> (files fs); modes := modes fs |}.

Definition chmodSync (path : string) (mode : Z) (fs : FileSystem) : FileSystem :=
  {| files := files fs; modes := <[path := mode]> (modes fs) |}.

(** The state a method works on: the fields of the object and the file
    system [disk] that [_save] writes to. *)
Record FileBackend : Type := mkFileBackend {
  _path : string;
  _backendId : string;
  _key : list Byte.byte;
  _data : StoredData;
  disk : FileSystem;
}.

Definition set_workspaces (this : FileBackend)
    (m : gmap string (gmap string StoredSecret)) : FileBackend :=
  {| _path := _path this; _backendId := _backendId this; _key := _key this;
     _data := {| data_version := data_version (_data this); workspaces := m |};
     disk := disk this |}.

Definition set_disk (this : FileBackend) (fs : FileSystem) : FileBackend :=
  {| _path := _path this; _backendId := _backendId this; _key := _key this;
     _data := _data this; disk := fs |}.

(** The entry kept under [(workspace, name)], if there is one. *)
Definition lookup_secret (this : FileBackend) (workspace name : string)
    : option StoredSecret :=
  workspaces (_data this) !! workspace ≫= (.!! name).

(** A call on [(workspace, name)] stays in the data of the vault when
    neither [workspaces[workspace]] nor [ws[name]] is an inherited value:
    each of the two keys is an own key or is no key of [Object.prototype].
    [ws] is the workspace, the empty one when there is none. *)
Definition in_vault (this : FileBackend) (workspace name : string) : Prop :=
  property_of (workspaces (_data this)) workspace ≠ Inherited ∧
  property_of (default ∅ (workspaces (_data this) !! workspace)) name ≠ Inherited.

(** The data of each workspace, as the object holds it. *)
Definition workspaces_of (this : FileBackend)
    : gmap string (gmap string StoredSecret) :=
  workspaces (_data this).

Definition empty_data : StoredData := {| data_version := 1; workspaces := ∅ |}.

Definition limits : Limits :=
  {| maxSecretNameLength := 255;
     maxSecretValueLength := 65536;
     maxLabelsPerSecret := 64;
     maxSecretsPerWorkspace := 10000;
     maxSessionTtlSeconds := 86400 |}.

Section with_node.
Context `{Node}.

Definition _encrypt (key : list Byte.byte) (data : string) (env : Env)
    : list Byte.byte :=
  let iv := randomBytes env 16 in
  let '(encrypted, authTag) := aes_256_gcm_encrypt key iv data in
  iv ++ authTag ++ encrypted.

Definition _decrypt (key : list Byte.byte) (data : list Byte.byte)
    : option string :=
  let iv := take 16 data in
  let authTag := take 16 (drop 16 data) in
  let encrypted := drop 32 data in
  aes_256_gcm_decrypt key iv authTag encrypted.

(** [_load]: any failure of reading, decrypting or parsing is rethrown
    as an [EncryptionError]. *)
Definition _load (path : string) (key : list Byte.byte) (fs : FileSystem)
    : outcome StoredData :=
  match files fs !! path with
  | None => Return empty_data
  | Some encrypted =>
      if bool_decide (length encrypted = 0%nat) then Return empty_data
      else
        match _decrypt key encrypted with
        | None => Throw EncryptionError
        | Some decrypted =>
            match JSON_parse decrypted with
            | None => Throw EncryptionError
            | Some data => Return data
            end
        end
  end.

(** [new FileBackend(path, password, backendId)] over the file system
    [fs]: an object exists only when [_load] returns. *)
Definition new (path password : string) (backendId : option string)
    (fs : FileSystem) : outcome FileBackend :=
  let salt := "avp_file_backend_v1" in
  let key := scryptSync password salt 32 in
  match _load path key fs with
  | Throw e => Throw e
  | Beyond => Beyond
  | Return data =>
      Return {| _path := path; _backendId := default "file-0" backendId;
                _key := key; _data := data; disk := fs |}
  end.

(** [_save]: the whole of [_data] is encrypted and written to the
    temporary path, copied over the vault, the vault is restricted to
    mode 0600 and the temporary file is emptied. *)
Definition _save (env : Env) (this : FileBackend) : FileBackend :=
  let json := JSON_stringify (_data this) in
  let encrypted := _encrypt (_key this) json env in
  let tempPath := _path this +:+ ".tmp" in
  let fs := writeFileSync tempPath encrypted (disk this) in
  let fs := writeFileSync (_path this) (default [] (files fs !! tempPath)) fs in
  let fs := chmodSync (_path this) 384 fs in
  let fs := writeFileSync tempPath [] fs in
  set_disk this fs.

(** The state after [delete ws[name]; this._save()]. *)
Definition after_delete (env : Env) (this : FileBackend)
    (workspace name : string) : FileBackend :=
  _save env
    (set_workspaces this
       (<[workspace := base.delete name (default ∅ (workspaces (_data this) !! workspace))]>
          (workspaces (_data this)))).

End with_node.

Section operations.
Context `{Node} `{Host}.

(** [if (metadata.expiresAt) { ... new Date() > new Date(metadata.expiresAt) }]:
    the empty string is falsy. *)
Definition expired (now : Z) (m : StoredMetadata) : bool :=
  match expiresAt m with
  | Some text =>
      if bool_decide (text = "") then false
      else Date_gt (ValidDate now) (Date_parse text)
  | None => false
  end.

(** [expiresAt?.toISOString()], which throws a [RangeError] on the
    Invalid Date. *)
Definition expiresAt_toISOString (expiresAt : option Date)
    : outcome (option string) :=
  match expiresAt with
  | None => Return None
  | Some (ValidDate t) => Return (Some (Date_toISOString t))
  | Some InvalidDate => Throw RangeError
  end.

(** [store]. The workspace is created when [workspaces[workspace]] is
    falsy, which it is only when it is [undefined]. [existing = ws[name]]:
    an inherited value is truthy and has no [metadata], so
    [existing.metadata.version] throws a [TypeError], before the record is
    written and before [toISOString] is called. When
    [workspaces[workspace]] itself is inherited, [ws] is an object of the
    language: the record is looked up in it and written to it, and the
    vault is saved without it ([Beyond]). *)
Definition store (workspace name : string) (value : list Byte.byte)
    (labels : option (gmap string string)) (expiresAt : option Date)
    (env : Env) : method FileBackend StoreResult := λ this,
  match property_of (workspaces (_data this)) workspace with
  | Inherited => (Beyond, this)
  | found =>
      (* if (!this._data.workspaces[workspace]) this._data.workspaces[workspace] = {} *)
      let all :=
        match found with
        | Own _ => workspaces (_data this)
        | _ => <[workspace := ∅]> (workspaces (_data this))
        end in
      let ws := default ∅ (all !! workspace) in
      let now := Date_toISOString (now env) in
      match property_of ws name with
      | Inherited => (Throw TypeError, set_workspaces this all)
      | existing =>
          let created := match existing with Own _ => false | _ => true end in
          let '(version, createdAt) :=
            match existing with
            | Own e => (version (metadata e) + 1, createdAt (metadata e))
            | _ => (1, now)
            end in
          match expiresAt_toISOString expiresAt with
          | Return expires =>
              let record :=
                {| stored_value := base64_encode value;
                   metadata :=
                     {| createdAt := createdAt;
                        updatedAt := now;
                        backend := "file";
                        version := version;
                        labels := default ∅ labels;
                        expiresAt := expires |} |} in
              let this :=
                set_workspaces this (<[workspace := <[name := record]> ws]> all) in
              (Return {| created := created; store_version := version |},
               _save env this)
          | Throw e => (Throw e, set_workspaces this all)
          | Beyond => (Beyond, set_workspaces this all)
          end
      end
  end.

(** [retrieve]. [!ws || !ws[name]] lets an inherited [ws[name]] pass, and
    [secret.metadata.expiresAt] then throws a [TypeError]. An inherited
    [ws] passes as well, and [name] is looked up in that object of the
    language ([Beyond]). *)
Definition retrieve (workspace name : string) (version : option Z)
    (env : Env) : method FileBackend RetrieveResult := λ this,
  match property_of (workspaces (_data this)) workspace with
  | Undefined => (Throw SecretNotFoundError, this)
  | Inherited => (Beyond, this)
  | Own ws =>
      match property_of ws name with
      | Undefined => (Throw SecretNotFoundError, this)
      | Inherited => (Throw TypeError, this)
      | Own secret =>
          if expired (now env) (metadata secret)
          then (* delete ws[name]; this._save() *)
            (Throw SecretNotFoundError,
             _save env (set_workspaces this
                          (<[workspace := base.delete name ws]> (workspaces (_data this)))))
          else
            if version_mismatch version (File.version (metadata secret))
            then (Throw SecretNotFoundError, this)
            else
              (Return {| value := base64_decode (stored_value secret);
                         retrieve_version := File.version (metadata secret) |},
               this)
      end
  end.

(** [delete]. An inherited [ws[name]] passes the guard as well: the
    property [value] of that object is written, [delete ws[name]] finds no
    own key to remove, the vault is saved as it is and the call returns
    [true]. The object is a function, which no lookup of a workspace of the
    vault reads a [value] from; under the name "__proto__" it is
    [Object.prototype], from which every object then inherits a [value]
    ([Beyond]). *)
Definition delete (workspace name : string) (env : Env)
    : method FileBackend bool := λ this,
  match property_of (workspaces (_data this)) workspace with
  | Undefined => (Return false, this)
  | Inherited => (Beyond, this)
  | Own ws =>
      match property_of ws name with
      | Undefined => (Return false, this)
      | Inherited =>
          if bool_decide (name = "__proto__") then (Beyond, this)
          else (Return true, _save env this)
      | Own secret =>
          (* the value is overwritten, then the entry is deleted *)
          (Return true,
           _save env (set_workspaces this
                        (<[workspace := base.delete name ws]> (workspaces (_data this)))))
      end
  end.

(** The [SecretMetadata] built from a stored record. *)
Definition to_metadata (m : StoredMetadata) : SecretMetadata :=
  {| Types.createdAt := Date_parse (createdAt m);
     Types.updatedAt := Date_parse (updatedAt m);
     Types.backend := FILE;
     Types.version := version m;
     Types.labels := labels m;
     Types.expiresAt :=
       match expiresAt m with
       | Some text => if bool_decide (text = "") then None else Some (Date_parse text)
       | None => None
       end |}.

Definition listed (workspace : string) (filterLabels : option (gmap string string))
    (now : Z) (ws : gmap string StoredSecret) : list Secret :=
  omap (λ entry : string * StoredSecret,
          let '(name, stored) := entry in
          if expired now (metadata stored) then None
          else if negb (labels_match filterLabels (labels (metadata stored)))
          then None
          else Some {| name := name; workspace := workspace;
                       Types.metadata := to_metadata (metadata stored) |})
       (map_to_list ws).

(** [listSecrets]. [Object.entries(ws)] are the own enumerable entries of
    [ws]: those of the workspace, and none when [ws] is an object of the
    language, which has no enumerable property of its own. *)
Definition listSecrets (workspace : string)
    (filterLabels : option (gmap string string)) (cursor : option string)
    (limit : option Z) (env : Env) : method FileBackend ListResult := λ this,
  match property_of (workspaces (_data this)) workspace with
  | Undefined => (Return {| secrets := []; cursor := None |}, this)
  | found =>
      let entries := match found with Own ws => ws | _ => ∅ end in
      let secrets := listed workspace filterLabels (now env) entries in
      let secrets := merge_sort name_le secrets in
      (Return (paginate secrets cursor limit), this)
  end.

(** [getMetadata], with the guard of [retrieve]; on an inherited
    [ws[name]] it is [stored.metadata.expiresAt] that throws. *)
Definition getMetadata (workspace name : string) (env : Env)
    : method FileBackend SecretMetadata := λ this,
  match property_of (workspaces (_data this)) workspace with
  | Undefined => (Throw SecretNotFoundError, this)
  | Inherited => (Beyond, this)
  | Own ws =>
      match property_of ws name with
      | Undefined => (Throw SecretNotFoundError, this)
      | Inherited => (Throw TypeError, this)
      | Own stored =>
          if expired (now env) (metadata stored)
          then
            (Throw SecretNotFoundError,
             _save env (set_workspaces this
                          (<[workspace := base.delete name ws]> (workspaces (_data this)))))
          else (Return (to_metadata (metadata stored)), this)
      end
  end.

(** [close()]. *)
Definition close (env : Env) : method FileBackend () := λ this,
  (Return (), _save env this).

Global Instance is_backend : Backend.BackendBase FileBackend := {|
  Backend.backendType := λ _, FILE;
  Backend.backendId := _backendId;
  Backend.limits := λ _, limits;
  Backend.store := store;
  Backend.retrieve := retrieve;
  Backend.delete := delete;
  Backend.listSecrets := listSecrets;
  Backend.getMetadata := getMetadata;
|}.

End operations.

End File.

(** ** The keychain backend (src/backends/keychain.ts)

    The backend keeps three kinds of entries in the credential store of the
    operating system, which it reaches through the [keytar] module: the
    value of a secret under the service of its workspace, its metadata
    under the metadata service of the workspace, and under that same
    service, for the account [indexKey], the list of the names of the
    workspace. *)

Module Keychain.

(** The metadata beside a secret, as [JSON.parse] hands it back: a member
    that the text does not have is [None]. *)
Record StoredMetadata : Type := mkStoredMetadata {
  createdAt : option string;
  updatedAt : option string;
  version : option Z;
  labels : option (gmap string string);
  expiresAt : option string;
}.

(** The functions of Node.js that the backend calls. [JSON_parse_metadata]
    is [None] when [JSON.parse] throws or yields [null]; a value without
    members (a number, a string, [true]) is the record of [None]s.
    [JSON_parse_names] is [None] when [JSON.parse] throws; what parses in
    the place of the index is taken to be an array of strings, which is
    what [saveIndex] writes there. *)
Class Node : Type := {
  JSON_stringify_metadata : StoredMetadata → string;
  JSON_parse_metadata : string → option StoredMetadata;
  JSON_stringify_names : list string → string;
  JSON_parse_names : string → option (list string);
  base64_encode : list Byte.byte → string;
  base64_decode : string → list Byte.byte;
  Date_toISOString : Z → string;
  Date_parse : string → Date;
}.

(** The state a method works on: the fields of the object, whether
    [import("keytar")] succeeds ([keytar]), and the credential store that
    the module reads and writes: a password for a service and an account.
    The calls of the module itself do not fail. [metaServicePrefix] is set
    once, by the constructor, from [servicePrefix]. *)
Record KeychainBackend : Type := mkKeychainBackend {
  _backendId : string;
  servicePrefix : string;
  keytar : bool;
  credentials : gmap (string * string) string;
}.

Definition metaServicePrefix (this : KeychainBackend) : string :=
  servicePrefix this +:+ "-meta".

Definition indexKey : string := "__avp_secret_index__".

Definition set_credentials (this : KeychainBackend)
    (c : gmap (string * string) string)
    : KeychainBackend :=
  {| _backendId := _backendId this;
     servicePrefix := servicePrefix this;
     keytar := keytar this;
     credentials := c |}.

(** [new KeychainBackend(backendId, servicePrefix)], for a host where the
    import of the module succeeds or not and a credential store. *)
Definition new (backendId servicePrefix : option string) (keytar : bool)
    (credentials : gmap (string * string) string) : KeychainBackend :=
  {| _backendId := default "keychain-0" backendId;
     servicePrefix := default "avp" servicePrefix;
     keytar := keytar;
     credentials := credentials |}.

Definition limits : Limits :=
  {| maxSecretNameLength := 255;
     maxSecretValueLength := 16384;
     maxLabelsPerSecret := 32;
     maxSecretsPerWorkspace := 1000;
     maxSessionTtlSeconds := 86400 |}.

Definition serviceName (this : KeychainBackend) (workspace : string) : string :=
  servicePrefix this +:+ "-" +:+ workspace.

Definition metaServiceName (this : KeychainBackend) (workspace : string) : string :=
  metaServicePrefix this +:+ "-" +:+ workspace.

(** [x || d] for a number and for a string: [d] when [x] is absent, 0 or
    the empty string. *)
Definition number_or (x : option Z) (d : Z) : Z :=
  match x with
  | Some n => if bool_decide (n = 0) then d else n
  | None => d
  end.

Definition string_or (x : option string) (d : string) : string :=
  match x with
  | Some s => if bool_decide (s = "") then d else s
  | None => d
  end.

(** The order of [Array.prototype.sort] without a comparison function: the
    order of the code units. *)
Definition sorts_before (a b : string) : Prop := (a ?= b)%string ≠ Gt.

Global Instance sorts_before_dec a b : Decision (sorts_before a b).
Proof. unfold sorts_before. apply _. Defined.

Section with_node.
Context `{Node}.

(** [getKeytar]: the module, or BackendUnavailableError when the import
    fails. *)
Definition getKeytar : method KeychainBackend () := λ this,
  if keytar this then (Return (), this)
  else (Throw BackendUnavailableError, this).

(** The three calls of the module. *)
Definition getPassword (service account : string)
    : method KeychainBackend (option string) := λ this,
  (Return (credentials this !! (service, account)), this).

Definition setPassword (service account password : string)
    : method KeychainBackend () := λ this,
  (Return (),
   set_credentials this (<[(service, account) := password]> (credentials this))).

Definition deletePassword (service account : string)
    : method KeychainBackend bool := λ this,
  (Return (bool_decide (is_Some (credentials this !! (service, account)))),
   set_credentials this (base.delete (service, account) (credentials this))).

Definition getIndex (workspace : string) : method KeychainBackend (list string) :=
  λ this,
    (_ ← getKeytar;
     indexJson ← getPassword (metaServiceName this workspace) indexKey;
     mret (match indexJson with
           | Some text =>
               if bool_decide (text = "") then []
               else default [] (JSON_parse_names text)
           | None => []
           end)) this.

Definition saveIndex (workspace : string) (names : list string)
    : method KeychainBackend () := λ this,
  (_ ← getKeytar;
   setPassword (metaServiceName this workspace) indexKey
     (JSON_stringify_names names)) this.

Definition getStoredMetadata (workspace name : string)
    : method KeychainBackend (option StoredMetadata) := λ this,
  (_ ← getKeytar;
   metaJson ← getPassword (metaServiceName this workspace) name;
   mret (match metaJson with
         | Some text =>
             if bool_decide (text = "") then None else JSON_parse_metadata text
         | None => None
         end)) this.

Definition saveStoredMetadata (workspace name : string) (metadata : StoredMetadata)
    : method KeychainBackend () := λ this,
  (_ ← getKeytar;
   setPassword (metaServiceName this workspace) name
     (JSON_stringify_metadata metadata)) this.

Definition deleteStoredMetadata (workspace name : string)
    : method KeychainBackend () := λ this,
  (_ ← getKeytar;
   _ ← deletePassword (metaServiceName this workspace) name;
   mret ()) this.

(** [expiresAt?.toISOString()], which throws a [RangeError] on the Invalid
    Date. *)
Definition expiresAt_toISOString (expiresAt : option Date)
    : method KeychainBackend (option string) :=
  match expiresAt with
  | None => method_ret None
  | Some (ValidDate t) => method_ret (Some (Date_toISOString t))
  | Some InvalidDate => method_throw RangeError
  end.

Definition store (workspace name : string) (value : list Byte.byte)
    (labels : option (gmap string string)) (expiresAt : option Date)
    (env : Env) : method KeychainBackend StoreResult := λ this,
  (_ ← getKeytar;
   let service := serviceName this workspace in
   let now := Date_toISOString (now env) in
   existingMeta ← getStoredMetadata workspace name;
   let created := bool_decide (existingMeta = None) in
   let '(version, createdAt) :=
     match existingMeta with
     | None => (1, now)
     | Some m => (number_or (version m) 0 + 1, string_or (createdAt m) now)
     end in
   _ ← setPassword service name (base64_encode value);
   expires ← expiresAt_toISOString expiresAt;
   let metadata :=
     {| createdAt := Some createdAt;
        updatedAt := Some now;
        version := Some version;
        labels := Some (default ∅ labels);
        expiresAt := expires |} in
   _ ← saveStoredMetadata workspace name metadata;
   index ← getIndex workspace;
   _ ← (if bool_decide (name ∈ index) then mret ()
        else saveIndex workspace (index ++ [name]));
   mret {| created := created; store_version := version |}) this.

(** [index.splice(index.indexOf(name), 1)]: without the first [name]. *)
Fixpoint remove_first (name : string) (index : list string) : list string :=
  match index with
  | [] => []
  | x :: rest => if bool_decide (x = name) then rest else x :: remove_first name rest
  end.

Definition delete (workspace name : string) : method KeychainBackend bool :=
  λ this,
    (_ ← getKeytar;
     let service := serviceName this workspace in
     existing ← getPassword service name;
     match existing with
     | None => mret false
     | Some _ =>
         _ ← deletePassword service name;
         _ ← deleteStoredMetadata workspace name;
         index ← getIndex workspace;
         _ ← (if bool_decide (name ∈ index)
              then saveIndex workspace (remove_first name index)
              else mret ());
         mret true
     end) this.

(** [if (metadata.expiresAt) { ... new Date() > new Date(metadata.expiresAt) }]. *)
Definition expired (now : Z) (m : StoredMetadata) : bool :=
  match expiresAt m with
  | Some text =>
      if bool_decide (text = "") then false
      else Date_gt (ValidDate now) (Date_parse text)
  | None => false
  end.

(** The metadata that [retrieve] makes up for a value without metadata. *)
Definition minimal_metadata (now : Z) : StoredMetadata :=
  {| createdAt := Some (Date_toISOString now);
     updatedAt := Some (Date_toISOString now);
     version := Some 1;
     labels := Some ∅;
     expiresAt := None |}.

Definition retrieve (workspace name : string) (version : option Z)
    (env : Env) : method KeychainBackend RetrieveResult := λ this,
  (_ ← getKeytar;
   let service := serviceName this workspace in
   valueB64 ← getPassword service name;
   match valueB64 with
   | None => method_throw SecretNotFoundError
   | Some valueB64 =>
       metadata ← getStoredMetadata workspace name;
       let metadata := default (minimal_metadata (now env)) metadata in
       if expired (now env) metadata
       then (_ ← delete workspace name; method_throw SecretNotFoundError)
       else
         let currentVersion := number_or (Keychain.version metadata) 1 in
         if version_mismatch version currentVersion
         then method_throw SecretNotFoundError
         else mret {| value := base64_decode valueB64;
                      retrieve_version := currentVersion |}
   end) this.

(** [new Date(text)] for a member that may be absent: the Invalid Date
    without it. *)
Definition Date_of_member (text : option string) : Date :=
  match text with
  | Some text => Date_parse text
  | None => InvalidDate
  end.

(** The [SecretMetadata] built from the stored metadata. *)
Definition to_metadata (m : StoredMetadata) : SecretMetadata :=
  {| Types.createdAt := Date_of_member (createdAt m);
     Types.updatedAt := Date_of_member (updatedAt m);
     Types.backend := KEYCHAIN;
     Types.version := number_or (version m) 1;
     Types.labels := default ∅ (labels m);
     Types.expiresAt :=
       match expiresAt m with
       | Some text => if bool_decide (text = "") then None else Some (Date_parse text)
       | None => None
       end |}.

(** The loop of [listSecrets] over the sorted names: a name without
    metadata is skipped, an expired one is deleted and skipped. *)
Fixpoint listed (workspace : string) (filterLabels : option (gmap string string))
    (now : Z) (sortedNames : list string) (secrets : list Secret)
    : method KeychainBackend (list Secret) :=
  match sortedNames with
  | [] => mret secrets
  | name :: rest =>
      metadataDict ← getStoredMetadata workspace name;
      match metadataDict with
      | None => listed workspace filterLabels now rest secrets
      | Some m =>
          if expired now m
          then (_ ← delete workspace name;
                listed workspace filterLabels now rest secrets)
          else if negb (labels_match filterLabels (default ∅ (labels m)))
          then listed workspace filterLabels now rest secrets
          else listed workspace filterLabels now rest
                 (secrets ++ [ {| name := name; workspace := workspace;
                                  metadata := to_metadata m |} ])
      end
  end.

Definition listSecrets (workspace : string)
    (filterLabels : option (gmap string string)) (cursor : option string)
    (limit : option Z) (env : Env) : method KeychainBackend ListResult :=
  index ← getIndex workspace;
  let sortedNames := merge_sort sorts_before index in
  secrets ← listed workspace filterLabels (now env) sortedNames [];
  mret (paginate secrets cursor limit).

Definition getMetadata (workspace name : string) (env : Env)
    : method KeychainBackend SecretMetadata :=
  metadataDict ← getStoredMetadata workspace name;
  match metadataDict with
  | None => method_throw SecretNotFoundError
  | Some m =>
      if expired (now env) m
      then (_ ← delete workspace name; method_throw SecretNotFoundError)
      else mret (to_metadata m)
  end.

Global Instance is_backend : Backend.BackendBase KeychainBackend := {|
  Backend.backendType := λ _, KEYCHAIN;
  Backend.backendId := _backendId;
  Backend.limits := λ _, limits;
  Backend.store := store;
  Backend.retrieve := retrieve;
  Backend.delete := λ workspace name _, delete workspace name;
  Backend.listSecrets := listSecrets;
  Backend.getMetadata := getMetadata;
|}.

End with_node.

End Keychain.

(** ** Validation (src/types.ts) *)

Definition is_letter (c : ascii) : bool :=
  let n := Z.of_N (N_of_ascii c) in
  bool_decide (65 ≤ n ≤ 90 ∨ 97 ≤ n ≤ 122).

(** The class [[a-zA-Z0-9_.\-]] of SECRET_NAME_PATTERN. *)
Definition is_name_char (c : ascii) : bool :=
  is_letter c || is_digit c ||
  bool_decide (c = "_"%char ∨ c = "."%char ∨ c = "-"%char).

(** The class [[a-zA-Z0-9_.\-/]] of WORKSPACE_ID_PATTERN. *)
Definition is_workspace_char (c : ascii) : bool :=
  is_name_char c || bool_decide (c = "/"%char).

Fixpoint all_chars (p : ascii → bool) (s : string) : bool :=
  match s with
  | String c s' => p c && all_chars p s'
  | EmptyString => true
  end.

(** [/^[a-zA-Z][a-zA-Z0-9_.\-]{0,254}$/.test(name)] behind the guard
    [!name || name.length > 255]. *)
Definition validateSecretName (name : string) : bool :=
  if bool_decide (name = "") || bool_decide (255 < Z.of_nat (String.length name))
  then false
  else
    match name with
    | String c rest =>
        is_letter c && all_chars is_name_char rest &&
        bool_decide (Z.of_nat (String.length rest) ≤ 254)
    | EmptyString => false
    end.

Definition validateWorkspaceId (workspaceId : string) : bool :=
  if bool_decide (workspaceId = "") ||
     bool_decide (255 < Z.of_nat (String.length workspaceId))
  then false
  else
    match workspaceId with
    | String c rest =>
        (is_letter c || is_digit c) && all_chars is_workspace_char rest &&
        bool_decide (Z.of_nat (String.length rest) ≤ 254)
    | EmptyString => false
    end.

(** [new Date(t)] for a number [t]: times beyond 8.64e15 ms give the
    Invalid Date. *)
Definition Date_of_time (t : Z) : Date :=
  if bool_decide (Z.abs t ≤ 8640000000000000) then ValidDate t else InvalidDate.

(** ** The client's session manager (src/client.ts) *)

Module Client.

Record Session : Type := mkSession {
  sessionId : string;
  workspace : string;
  backend : string;
  agentId : string;
  createdAt : Date;
  expiresAt : Date;
  ttlSeconds : Z;
}.

Record AuthenticateOptions : Type := mkAuthenticateOptions {
  opt_workspace : option string;
  opt_agentId : option string;
  opt_authMethod : option AuthMethod;
  opt_authData : option (gmap string string);
  opt_requestedTtl : option Z;
}.

Record AVPClient (B : Type) : Type := mkAVPClient {
  _backend : B;
  _sessions : gmap string Session;
}.
Arguments mkAVPClient {B} _ _.
Arguments _backend {B} _.
Arguments _sessions {B} _.

Definition DEFAULT_TTL : Z := 3600.

(** [new AVPClient(backend)]. *)
Definition new {B} (backend : B) : AVPClient B :=
  {| _backend := backend; _sessions := ∅ |}.

Definition set_sessions {B} (this : AVPClient B) (m : gmap string Session)
    : AVPClient B :=
  {| _backend := _backend this; _sessions := m |}.

Section with_backend.
Context {B : Type} `{Backend.BackendBase B} `{Host}.

Definition authenticate (options : AuthenticateOptions) (env : Env)
    : method (AVPClient B) Session := λ this,
  let workspace := default "default" (opt_workspace options) in
  let agentId := default "avp-ts" (opt_agentId options) in
  let authMethod := default NONE (opt_authMethod options) in
  if negb (validateWorkspaceId workspace)
  then (Throw InvalidWorkspaceError, this)
  else
    match authMethod with
    | TERMINATE =>
        match opt_authData options ≫= (.!! "session_id") with
        | Some sessionId =>
            if bool_decide (sessionId = "")
            then (Throw AuthenticationError, this)
            else
              (Return {| sessionId := sessionId;
                         workspace := workspace;
                         backend := Backend.backendId (_backend this);
                         agentId := agentId;
                         createdAt := ValidDate (now env);
                         expiresAt := ValidDate (now env);
                         ttlSeconds := 0 |},
               set_sessions this (base.delete sessionId (_sessions this)))
        | None => (Throw AuthenticationError, this)
        end
    | _ =>
        let ttl :=
          Z.min (default DEFAULT_TTL (opt_requestedTtl options))
                (maxSessionTtlSeconds (Backend.limits (_backend this))) in
        let sessionId := "avp_sess_" +:+ base64url (randomBytes env 18) in
        let session :=
          {| sessionId := sessionId;
             workspace := workspace;
             backend := Backend.backendId (_backend this);
             agentId := agentId;
             createdAt := ValidDate (now env);
             expiresAt := Date_of_time (now env + ttl * 1000);
             ttlSeconds := ttl |} in
        (Return session,
         set_sessions this (<[sessionId := session]> (_sessions this)))
    end.

(** [isSessionExpired] of src/types.ts. *)
Definition isSessionExpired (session : Session) (env : Env) : bool :=
  Date_gt (ValidDate (now env)) (expiresAt session).

Definition _validateSession (sessionId : string) (env : Env)
    : method (AVPClient B) Session := λ this,
  match _sessions this !! sessionId with
  | None => (Throw SessionNotFoundError, this)
  | Some session =>
      if isSessionExpired session env
      then (Throw SessionExpiredError,
            set_sessions this (base.delete sessionId (_sessions this)))
      else (Return session, this)
  end.

End with_backend.

(** *** The operations on secrets

    Each operation validates the session with the host as it is then
    ([env_session]) and hands the call to the backend, with the workspace of
    the session, under the host of that later moment. *)

Record StoreOptions : Type := mkStoreOptions {
  opt_labels : option (gmap string string);
  opt_expiresAt : option Date;
}.

Record ListOptions : Type := mkListOptions {
  opt_filterLabels : option (gmap string string);
  opt_cursor : option string;
  opt_limit : option Z;
}.

Record StoreResponse : Type := mkStoreResponse {
  stored_name : string;
  stored_backend : string;
  stored_created : bool;
  stored_version : Z;
}.

Record RetrieveResponse : Type := mkRetrieveResponse {
  retrieved_name : string;
  retrieved_value : list Byte.byte;
  encoding : string;
  retrieved_backend : string;
  retrieved_version : Z;
}.

Record DeleteResponse : Type := mkDeleteResponse {
  deleted_name : string;
  deleted : bool;
}.

Record ListResponse : Type := mkListResponse {
  listed_secrets : list Secret;
  listed_cursor : option string;
  hasMore : bool;
}.

Record RotateResponse : Type := mkRotateResponse {
  rotated_name : string;
  rotated_backend : string;
  rotated_version : Z;
  rotatedAt : Date;
}.

Section operations.
Context {B : Type} `{Backend.BackendBase B} `{Host}.

(** A call of a method of [this._backend]. *)
Definition on_backend {A} (m : method B A) : method (AVPClient B) A := λ this,
  let '(r, backend) := m (_backend this) in
  (r, {| _backend := backend; _sessions := _sessions this |}).

(** A read of a property of [this._backend]. *)
Definition of_backend {A} (f : B → A) : method (AVPClient B) A := λ this,
  (Return (f (_backend this)), this).

Definition store (sessionId name : string) (value : list Byte.byte)
    (options : StoreOptions) (env_session env_backend : Env)
    : method (AVPClient B) StoreResponse :=
  session ← _validateSession sessionId env_session;
  if negb (validateSecretName name) then method_throw InvalidNameError
  else
    limits ← of_backend Backend.limits;
    if bool_decide (maxSecretValueLength limits < Z.of_nat (length value))
    then method_throw ValueTooLargeError
    else
      result ← on_backend
        (Backend.store (workspace session) name value
           (opt_labels options) (opt_expiresAt options) env_backend);
      backendId ← of_backend Backend.backendId;
      mret {| stored_name := name;
              stored_backend := backendId;
              stored_created := created result;
              stored_version := store_version result |}.

Definition retrieve (sessionId name : string) (version : option Z)
    (env_session env_backend : Env) : method (AVPClient B) RetrieveResponse :=
  session ← _validateSession sessionId env_session;
  result ← on_backend
    (Backend.retrieve (workspace session) name version env_backend);
  backendId ← of_backend Backend.backendId;
  mret {| retrieved_name := name;
          retrieved_value := value result;
          encoding := "utf8";
          retrieved_backend := backendId;
          retrieved_version := retrieve_version result |}.

Definition delete (sessionId name : string) (env_session env_backend : Env)
    : method (AVPClient B) DeleteResponse :=
  session ← _validateSession sessionId env_session;
  deleted ← on_backend (Backend.delete (workspace session) name env_backend);
  mret {| deleted_name := name; deleted := deleted |}.

Definition listSecrets (sessionId : string) (options : ListOptions)
    (env_session env_backend : Env) : method (AVPClient B) ListResponse :=
  session ← _validateSession sessionId env_session;
  result ← on_backend
    (Backend.listSecrets (workspace session) (opt_filterLabels options)
       (opt_cursor options) (Some (default 100 (opt_limit options))) env_backend);
  mret {| listed_secrets := secrets result;
          listed_cursor := cursor result;
          hasMore := bool_decide (cursor result ≠ None) |}.

(** [env_get] and [env_store] are the host at the two calls that the
    default [rotate] of the backend makes, [env_stamp] at [new Date()] for
    [rotatedAt]. *)
Definition rotate (sessionId name : string) (newValue : list Byte.byte)
    (env_session env_get env_store env_stamp : Env)
    : method (AVPClient B) RotateResponse :=
  session ← _validateSession sessionId env_session;
  version ← on_backend
    (Backend.rotate (workspace session) name newValue env_get env_store);
  backendId ← of_backend Backend.backendId;
  mret {| rotated_name := name;
          rotated_backend := backendId;
          rotated_version := version;
          rotatedAt := ValidDate (now env_stamp) |}.

End operations.

End Client.

(** ** A caller that reads a listing to its end

    [page cursor] is the answer of one call of [listSecrets] with the given
    cursor. The caller asks for the first page without a cursor and, as long
    as an answer carries a cursor, asks again with it; [fuel] bounds the
    number of calls. *)
Fixpoint read_all (fuel : nat) (page : option string → ListResult)
    (from : option string) : list Secret :=
  match fuel with
  | O => []
  | S fuel =>
      let r := page from in
      secrets r ++
      match cursor r with
      | Some c => read_all fuel page (Some c)
      | None => []
      end
  end.

(** The answer of a call of [listSecrets], which does not throw. *)
Definition answer (o : outcome ListResult) : ListResult :=
  match o with
  | Return r => r
  | _ => {| secrets := []; cursor := None |}
  end.

(** The sorted list that [listSecrets] cuts its pages from: the secrets of
    the workspace that are not expired at [now] and pass the label filter. *)
Definition memory_listing `{Host} (workspace : string)
    (filterLabels : option (gmap string string)) (now : Z)
    (this : Memory.MemoryBackend) : list Secret :=
  merge_sort name_le
    (Memory.listed workspace filterLabels now
       (default ∅ (Memory._secrets this !! workspace))).

Definition file_listing `{File.Node} `{Host} (workspace : string)
    (filterLabels : option (gmap string string)) (now : Z)
    (this : File.FileBackend) : list Secret :=
  merge_sort name_le
    (File.listed workspace filterLabels now
       (default ∅ (File.workspaces (File._data this) !! workspace))).

(** ** What the cipher and JSON are relied on for

    [reads_back key env data]: when [_save] writes [data] under [key] with
    the host [env], the random source gives the 16 bytes asked for, the
    cipher gives a tag of 16 bytes and decrypts what it encrypted, and
    [JSON.parse] reads back what [JSON.stringify] wrote. *)
Definition reads_back `{File.Node} (key : list Byte.byte) (env : Env)
    (data : File.StoredData) : Prop :=
  let iv := randomBytes env 16 in
  let json := File.JSON_stringify data in
  let sealed := File.aes_256_gcm_encrypt key iv json in
  length iv = 16%nat ∧
  length sealed.2 = 16%nat ∧
  File.aes_256_gcm_decrypt key iv sealed.2 sealed.1 = Some json ∧
  File.JSON_parse json = Some data.

(** What [_save] leaves on the file system [after], compared with the file
    system [before]: the vault file holds the encryption of the whole of
    the data of [this], its mode is 0600, the temporary file is empty, and
    no other file is touched. *)
Definition vault_written `{File.Node} (env : Env) (before : File.FileSystem)
    (this : File.FileBackend) : Prop :=
  let after := File.disk this in
  File.files after !! File._path this =
    Some (File._encrypt (File._key this) (File.JSON_stringify (File._data this)) env) ∧
  File.modes after !! File._path this = Some 384 ∧
  File.files after !! (File._path this +:+ ".tmp") = Some [] ∧
  ∀ other, other ≠ File._path this → other ≠ File._path this +:+ ".tmp" →
    File.files after !! other = File.files before !! other.

(** ** What the keychain backend finds in the credential store

    The metadata of a name and the index of a workspace as [getStoredMetadata]
    and [getIndex] read them, and the metadata that [store] writes over the
    metadata it found. *)

Definition keychain_metadata `{Keychain.Node} (this : Keychain.KeychainBackend)
    (workspace name : string) : option Keychain.StoredMetadata :=
  match Keychain.credentials this !! (Keychain.metaServiceName this workspace, name) with
  | Some text =>
      if bool_decide (text = "") then None else Keychain.JSON_parse_metadata text
  | None => None
  end.

Definition keychain_index `{Keychain.Node} (this : Keychain.KeychainBackend)
    (workspace : string) : list string :=
  match Keychain.credentials this
          !! (Keychain.metaServiceName this workspace, Keychain.indexKey) with
  | Some text =>
      if bool_decide (text = "") then []
      else default [] (Keychain.JSON_parse_names text)
  | None => []
  end.

Definition keychain_written `{Keychain.Node} (existing : option Keychain.StoredMetadata)
    (labels : option (gmap string string)) (expires : option string) (now : Z)
    : Keychain.StoredMetadata :=
  {| Keychain.createdAt :=
       Some (match existing with
             | None => Keychain.Date_toISOString now
             | Some m => Keychain.string_or (Keychain.createdAt m)
                           (Keychain.Date_toISOString now)
             end);
     Keychain.updatedAt := Some (Keychain.Date_toISOString now);
     Keychain.version :=
       Some (match existing with
             | None => 1
             | Some m => Keychain.number_or (Keychain.version m) 0 + 1
             end);
     Keychain.labels := Some (default ∅ labels);
     Keychain.expiresAt := expires |}.

(** ** Two statements of the specification, as propositions *)

(** An existing vault file whose contents the decipher rejects makes the
    construction of the file backend fail with an [EncryptionError]. *)
Definition undecryptable_vault_is_fatal `{File.Node}
    (path password : string) (backendId : option string)
    (fs : File.FileSystem) : Prop :=
  ∀ encrypted : list Byte.byte,
    File.files fs !! path = Some encrypted →
    File._decrypt (File.scryptSync password "avp_file_backend_v1" 32) encrypted = None →
    File.new path password backendId fs = Throw EncryptionError.

(** [authenticate] returns a session whose [ttlSeconds] is the requested
    time to live (3600 when none is requested) capped by the limit of the
    backend, and keeps that session in the table under its id. *)
Definition mints_session {B : Type} `{Backend.BackendBase B} `{Host}
    (options : Client.AuthenticateOptions) (env : Env)
    (this : Client.AVPClient B) : Prop :=
  ∃ (session : Client.Session) (this' : Client.AVPClient B),
    Client.authenticate options env this = (Return session, this') ∧
    Client.ttlSeconds session =
      Z.min (default 3600 (Client.opt_requestedTtl options))
            (maxSessionTtlSeconds (Backend.limits (Client._backend this))) ∧
    Client._sessions this' !! Client.sessionId session = Some session.

(** ** Hosts for examples

    Names are compared as sequences of bytes; the stand-ins for Node's
    functions keep what the backend relies on: the decipher rejects an
    empty initialization vector and a tag that is not the one the cipher
    produced for the key. *)

Definition compare_bytes (a b : string) : Z :=
  match String_as_OT.compare a b with
  | Lt => -1
  | Eq => 0
  | Gt => 1
  end.

Definition example_host : Host.
Proof.
  assert (Hle : ∀ a b, compare_bytes a b ≤ 0 ↔ a = b ∨ String_as_OT.lt a b).
  { intros a b. unfold compare_bytes.
    destruct (String_as_OT.compare_spec a b) as [Heq|Hlt|Hgt]; split; intros Hle;
      try lia; auto.
    exfalso. destruct Hle as [->|Hlt].
    - by apply (irreflexivity String_as_OT.lt b).
    - apply (irreflexivity String_as_OT.lt a). by etrans. }
  refine {| localeCompare := compare_bytes; base64url := string_of_list_byte |}.
  - intros a b. rewrite !Hle.
    destruct (String_as_OT.compare_spec a b) as [Heq|Hlt|Hgt]; auto.
  - intros a b c. rewrite !Hle. intros [->|Hab] [->|Hbc]; auto.
    right. by etrans.
Defined.

Definition example_tag (key : list Byte.byte) : list Byte.byte :=
  take 16 (key ++ replicate 16 Byte.x00).

Definition example_node : File.Node :=
  {| File.scryptSync := λ password salt n,
       take n (list_byte_of_string (password +:+ salt) ++ replicate n Byte.x00);
     File.aes_256_gcm_encrypt := λ key iv data,
       (list_byte_of_string data, example_tag key);
     File.aes_256_gcm_decrypt := λ key iv authTag encrypted,
       if bool_decide (iv = []) then None
       else if bool_decide (authTag = example_tag key)
       then Some (string_of_list_byte encrypted) else None;
     File.JSON_stringify := λ data,
       if bool_decide (size (File.workspaces data) = 0%nat) then "{}" else "{...}";
     File.JSON_parse := λ text,
       if bool_decide (text = "{}") then Some File.empty_data else None;
     File.base64_encode := string_of_list_byte;
     File.base64_decode := list_byte_of_string;
     File.Date_toISOString := pretty;
     File.Date_parse := λ text,
       match parseInt text with
       | Some t => ValidDate t
       | None => InvalidDate
       end |}.

Definition example_env (t : Z) : Env :=
  {| now := t; randomBytes := λ n, replicate n Byte.x2a |}.

(** *** Vaults for examples

    A memory backend and a file backend that keep "api_key" in the
    workspace "default", created at time 1000 with the label env = prod and
    an expiration at time 5000, and a secret of the same name in the
    workspace "other". *)

Definition example_labels : gmap string string := {[ "env" := "prod" ]}.

Definition example_secret : Memory.StoredSecret :=
  {| Memory.stored_value := list_byte_of_string "secret123";
     Memory.stored_metadata :=
       {| createdAt := ValidDate 1000;
          updatedAt := ValidDate 1000;
          backend := MEMORY;
          version := 1;
          labels := example_labels;
          expiresAt := Some (ValidDate 5000) |} |}.

Definition other_secret : Memory.StoredSecret :=
  {| Memory.stored_value := list_byte_of_string "other-team";
     Memory.stored_metadata :=
       {| createdAt := ValidDate 1500;
          updatedAt := ValidDate 1500;
          backend := MEMORY;
          version := 4;
          labels := ∅;
          expiresAt := None |} |}.

Definition example_memory : Memory.MemoryBackend :=
  {| Memory._backendId := "memory-0";
     Memory._secrets :=
       {[ "default" := {[ "api_key" := example_secret ]};
          "other" := {[ "api_key" := other_secret ]} ]} |}.

(** A memory backend that keeps three secrets in the workspace "default",
    none of them expired at time 2000. *)
Definition crowded_memory : Memory.MemoryBackend :=
  {| Memory._backendId := "memory-0";
     Memory._secrets :=
       {[ "default" := {[ "zeta" := other_secret;
                          "api_key" := example_secret;
                          "mid" := other_secret ]} ]} |}.

Definition example_stored : File.StoredSecret :=
  {| File.stored_value := "secret123";
     File.metadata :=
       {| File.createdAt := "1000";
          File.updatedAt := "1000";
          File.backend := "file";
          File.version := 1;
          File.labels := example_labels;
          File.expiresAt := Some "5000" |} |}.

Definition other_stored : File.StoredSecret :=
  {| File.stored_value := "other-team";
     File.metadata :=
       {| File.createdAt := "1500";
          File.updatedAt := "1500";
          File.backend := "file";
          File.version := 4;
          File.labels := ∅;
          File.expiresAt := None |} |}.

Definition example_file : File.FileBackend :=
  {| File._path := "vault.enc";
     File._backendId := "file-0";
     File._key := @File.scryptSync example_node "correct horse" "avp_file_backend_v1" 32;
     File._data :=
       {| File.data_version := 1;
          File.workspaces :=
            {[ "default" := {[ "api_key" := example_stored ]};
               "other" := {[ "api_key" := other_stored ]} ]} |};
     File.disk := {| File.files := ∅; File.modes := ∅ |} |}.

(** A vault whose file was written by other means than this backend: the
    workspace "default" keeps the entry of the examples under the name
    "constructor", as an own key. *)
Definition crafted_file : File.FileBackend :=
  {| File._path := "vault.enc";
     File._backendId := "file-0";
     File._key := @File.scryptSync example_node "correct horse" "avp_file_backend_v1" 32;
     File._data :=
       {| File.data_version := 1;
          File.workspaces := {[ "default" := {[ "constructor" := example_stored ]} ]} |};
     File.disk := {| File.files := ∅; File.modes := ∅ |} |}.

(** An empty vault written under the password "correct horse", and a file
    system that holds it; a file system whose vault file has length zero. *)
Definition example_vault : list Byte.byte :=
  @File._encrypt example_node
    (@File.scryptSync example_node "correct horse" "avp_file_backend_v1" 32)
    "{}" (example_env 0).

Definition example_disk : File.FileSystem :=
  {| File.files := {[ "vault.enc" := example_vault ]}; File.modes := ∅ |}.

Definition truncated_disk : File.FileSystem :=
  {| File.files := {[ "vault.enc" := [] ]}; File.modes := ∅ |}.

(** Options of [authenticate] that ask for 999999 seconds, in the default
    workspace and in a workspace whose id has a space. *)
Definition example_options : Client.AuthenticateOptions :=
  {| Client.opt_workspace := None;
     Client.opt_agentId := None;
     Client.opt_authMethod := None;
     Client.opt_authData := None;
     Client.opt_requestedTtl := Some 999999 |}.

Definition malformed_options : Client.AuthenticateOptions :=
  {| Client.opt_workspace := Some "my workspace";
     Client.opt_agentId := None;
     Client.opt_authMethod := None;
     Client.opt_authData := None;
     Client.opt_requestedTtl := Some 999999 |}.

(** *** A vault to close and open again

    The empty vault under the key of "correct horse", and a host whose JSON
    reads back three vaults: the empty one, the one that holds "token" in
    the workspace "default", and the one whose workspace "default" has lost
    it. *)

Definition empty_file : File.FileBackend :=
  {| File._path := "vault.enc";
     File._backendId := "file-0";
     File._key := @File.scryptSync example_node "correct horse" "avp_file_backend_v1" 32;
     File._data := File.empty_data;
     File.disk := {| File.files := ∅; File.modes := ∅ |} |}.

Global Instance StoredMetadata_eq_dec : EqDecision File.StoredMetadata.
Proof. solve_decision. Defined.

Global Instance StoredSecret_eq_dec : EqDecision File.StoredSecret.
Proof. solve_decision. Defined.

Global Instance StoredData_eq_dec : EqDecision File.StoredData.
Proof. solve_decision. Defined.

Definition token_stored : File.StoredSecret :=
  {| File.stored_value := "abc";
     File.metadata :=
       {| File.createdAt := "1000";
          File.updatedAt := "1000";
          File.backend := "file";
          File.version := 1;
          File.labels := ∅;
          File.expiresAt := None |} |}.

Definition token_data : File.StoredData :=
  {| File.data_version := 1;
     File.workspaces := {[ "default" := {[ "token" := token_stored ]} ]} |}.

Definition emptied_data : File.StoredData :=
  {| File.data_version := 1; File.workspaces := {[ "default" := ∅ ]} |}.

Definition example_codec : File.Node :=
  {| File.scryptSync := @File.scryptSync example_node;
     File.aes_256_gcm_encrypt := @File.aes_256_gcm_encrypt example_node;
     File.aes_256_gcm_decrypt := @File.aes_256_gcm_decrypt example_node;
     File.JSON_stringify := λ data,
       if decide (data = File.empty_data) then "{}"
       else if decide (data = token_data) then "{token}"
       else if decide (data = emptied_data) then "{emptied}"
       else "{...}";
     File.JSON_parse := λ text,
       if decide (text = "{}") then Some File.empty_data
       else if decide (text = "{token}") then Some token_data
       else if decide (text = "{emptied}") then Some emptied_data
       else None;
     File.base64_encode := string_of_list_byte;
     File.base64_decode := list_byte_of_string;
     File.Date_toISOString := pretty;
     File.Date_parse := @File.Date_parse example_node |}.

Definition token_file : File.FileBackend :=
  {| File._path := "vault.enc";
     File._backendId := "file-0";
     File._key := @File.scryptSync example_node "correct horse" "avp_file_backend_v1" 32;
     File._data := token_data;
     File.disk := {| File.files := ∅; File.modes := ∅ |} |}.

(** *** A client with sessions

    Over the memory backend of the examples: two sessions of the workspace
    "default" and one of the workspace "other", all three until the time
    3601000. *)

Definition example_session (id workspace : string) : Client.Session :=
  {| Client.sessionId := id;
     Client.workspace := workspace;
     Client.backend := "memory-0";
     Client.agentId := "avp-ts";
     Client.createdAt := ValidDate 1000;
     Client.expiresAt := ValidDate 3601000;
     Client.ttlSeconds := 3600 |}.

Definition example_client : Client.AVPClient Memory.MemoryBackend :=
  {| Client._backend := example_memory;
     Client._sessions :=
       {[ "avp_sess_a" := example_session "avp_sess_a" "default";
          "avp_sess_b" := example_session "avp_sess_b" "other";
          "avp_sess_c" := example_session "avp_sess_c" "default" ]} |}.

(** The same sessions over the file backend. *)
Definition file_client : Client.AVPClient File.FileBackend :=
  {| Client._backend := example_file;
     Client._sessions :=
       {[ "avp_sess_a" := example_session "avp_sess_a" "default";
          "avp_sess_b" := example_session "avp_sess_b" "other";
          "avp_sess_c" := example_session "avp_sess_c" "default" ]} |}.

(** The session that [authenticate] mints for [example_options] at the time
    2000 over the memory backend, and the client that holds it. *)
Definition minted_session : Client.Session :=
  {| Client.sessionId := "avp_sess_******************";
     Client.workspace := "default";
     Client.backend := "memory-0";
     Client.agentId := "avp-ts";
     Client.createdAt := ValidDate 2000;
     Client.expiresAt := ValidDate 86402000;
     Client.ttlSeconds := 86400 |}.

Definition minted_client : Client.AVPClient Memory.MemoryBackend :=
  {| Client._backend := example_memory;
     Client._sessions := {[ "avp_sess_******************" := minted_session ]} |}.

(** A request for a time to live of -9000000000000000 seconds, and the
    session that [authenticate] mints for it at the time 2000: the deadline
    is no time that a [Date] holds. *)
Definition negative_ttl_options : Client.AuthenticateOptions :=
  {| Client.opt_workspace := None;
     Client.opt_agentId := None;
     Client.opt_authMethod := None;
     Client.opt_authData := None;
     Client.opt_requestedTtl := Some (-9000000000000000) |}.

Definition unending_session : Client.Session :=
  {| Client.sessionId := "avp_sess_******************";
     Client.workspace := "default";
     Client.backend := "memory-0";
     Client.agentId := "avp-ts";
     Client.createdAt := ValidDate 2000;
     Client.expiresAt := InvalidDate;
     Client.ttlSeconds := -9000000000000000 |}.

Definition unending_client : Client.AVPClient Memory.MemoryBackend :=
  {| Client._backend := example_memory;
     Client._sessions := {[ "avp_sess_******************" := unending_session ]} |}.

Definition terminate_options : Client.AuthenticateOptions :=
  {| Client.opt_workspace := None;
     Client.opt_agentId := None;
     Client.opt_authMethod := Some TERMINATE;
     Client.opt_authData := Some {[ "session_id" := "avp_sess_a" ]};
     Client.opt_requestedTtl := None |}.

(** *** A keychain

    An empty credential store behind a module that is there, the same
    without the module, a store that holds "token" in the workspace
    "default", and a host whose JSON reads back the metadata of a first
    store of a secret without labels at the time 1000. *)

Global Instance Keychain_StoredMetadata_eq_dec : EqDecision Keychain.StoredMetadata.
Proof. solve_decision. Defined.

Definition token_metadata : Keychain.StoredMetadata :=
  {| Keychain.createdAt := Some "1000";
     Keychain.updatedAt := Some "1000";
     Keychain.version := Some 1;
     Keychain.labels := Some ∅;
     Keychain.expiresAt := None |}.

Definition example_keychain_node : Keychain.Node :=
  {| Keychain.JSON_stringify_metadata := λ m,
       if decide (m = token_metadata) then "{token}" else "{...}";
     Keychain.JSON_parse_metadata := λ text,
       if decide (text = "{token}") then Some token_metadata else None;
     Keychain.JSON_stringify_names := λ names,
       if decide (names = ["token"]) then "[token]" else "[...]";
     Keychain.JSON_parse_names := λ text,
       if decide (text = "[token]") then Some ["token"] else None;
     Keychain.base64_encode := string_of_list_byte;
     Keychain.base64_decode := list_byte_of_string;
     Keychain.Date_toISOString := pretty;
     Keychain.Date_parse := λ text,
       match parseInt text with
       | Some t => ValidDate t
       | None => InvalidDate
       end |}.

Definition example_keychain : Keychain.KeychainBackend :=
  Keychain.new None None true ∅.

Definition missing_keytar : Keychain.KeychainBackend :=
  Keychain.new None None false ∅.

Definition stored_keychain : Keychain.KeychainBackend :=
  Keychain.new None None true
    {[ ("avp-default", "token") := "abc";
       ("avp-meta-default", "token") := "{token}";
       ("avp-meta-default", "__avp_secret_index__") := "[token]" ]}.

(** * Properties *)

(** ** The host functions on small inputs *)

Example parseInt_number : parseInt "3" = Some 3.
Proof. reflexivity. Qed.

Example parseInt_prefix : parseInt "  -12ab" = Some (-12).
Proof. reflexivity. Qed.

Example parseInt_NaN : parseInt "abc" = None.
Proof. reflexivity. Qed.

Example slice_middle : slice [1; 2; 3; 4; 5] 1 3 = [2; 3].
Proof. reflexivity. Qed.

Example slice_negative_start : slice [1; 2; 3; 4; 5] (-2) 98 = [4; 5].
Proof. reflexivity. Qed.

Example slice_past_the_end : slice [1; 2; 3; 4; 5] 7 9 = [].
Proof. reflexivity. Qed.

Example workspace_default_valid : validateWorkspaceId "default" = true.
Proof. reflexivity. Qed.

Example workspace_path_valid : validateWorkspaceId "team/a_b.c-9" = true.
Proof. reflexivity. Qed.

Example workspace_empty_invalid : validateWorkspaceId "" = false.
Proof. reflexivity. Qed.

Example workspace_underscore_invalid : validateWorkspaceId "_x" = false.
Proof. reflexivity. Qed.

Example name_valid : validateSecretName "api_key" = true.
Proof. reflexivity. Qed.

Example name_slash_invalid : validateSecretName "a/b" = false.
Proof. reflexivity. Qed.

Example name_digit_first_invalid : validateSecretName "9a" = false.
Proof. reflexivity. Qed.

(** The scenario of the specification on the memory backend: two stores of
    "api_key", then a retrieve. *)
Example scenario_store_twice :
  let '(r1, b1) := Memory.store "default" "api_key" (list_byte_of_string "secret123")
                     None None (example_env 1000) (Memory.new None) in
  let '(r2, b2) := Memory.store "default" "api_key" (list_byte_of_string "secret456")
                     None None (example_env 2000) b1 in
  let '(r3, _) := Memory.retrieve "default" "api_key" None (example_env 3000) b2 in
  r1 = Return {| created := true; store_version := 1 |} ∧
  r2 = Return {| created := false; store_version := 2 |} ∧
  r3 = Return {| value := list_byte_of_string "secret456"; retrieve_version := 2 |}.
Proof. vm_compute. done. Qed.

(** The vault of the examples opens under its password. *)
Example example_vault_opens :
  ∃ this, @File.new example_node "vault.enc" "correct horse" None example_disk = Return this
          ∧ File._data this = File.empty_data.
Proof. eexists. split; [vm_compute; reflexivity | reflexivity]. Qed.

(** ** Pages are parts of the sorted list *)

Lemma slice_sublist {A} (arr : list A) (start end_ : Z) :
  slice arr start end_ `sublist_of` arr.
Proof.
  unfold slice. etrans; [apply sublist_take | apply sublist_drop].
Qed.

Lemma slice_nil {A} (start end_ : Z) : slice (@nil A) start end_ = [].
Proof. unfold slice. by rewrite drop_nil, take_nil. Qed.

Lemma elem_of_slice {A} (arr : list A) (start end_ : Z) (x : A) :
  x ∈ slice arr start end_ → x ∈ arr.
Proof. apply sublist_subseteq, slice_sublist. Qed.

Lemma elem_of_paginate `{Host} (l : list Secret) cursor limit (x : Secret) :
  x ∈ secrets (paginate (merge_sort name_le l) cursor limit) → x ∈ l.
Proof.
  unfold paginate; simpl. intros Hx%elem_of_slice.
  by rewrite merge_sort_Permutation in Hx.
Qed.

(** ** Lookups after an update *)

Section memory_lookup.
Import Memory.
Implicit Types (this : MemoryBackend) (workspace name : string).
Implicit Types (ws : gmap string StoredSecret) (env : Env).
Implicit Types (m : SecretMetadata).

Lemma memory_store_eq workspace name value labels expires env this :
  store workspace name value labels expires env this =
  (Return {| created := bool_decide (lookup_secret this workspace name = None);
             store_version :=
               match lookup_secret this workspace name with
               | None => 1
               | Some e => Types.version (stored_metadata e) + 1
               end |},
   set_secrets this
     (<[workspace :=
          <[name := {| stored_value := value;
                       stored_metadata :=
                         {| createdAt :=
                              match lookup_secret this workspace name with
                              | None => ValidDate (now env)
                              | Some e => Types.createdAt (stored_metadata e)
                              end;
                            updatedAt := ValidDate (now env);
                            Types.backend := MEMORY;
                            Types.version :=
                              match lookup_secret this workspace name with
                              | None => 1
                              | Some e => Types.version (stored_metadata e) + 1
                              end;
                            Types.labels := default ∅ labels;
                            Types.expiresAt := expires |} |}]>
            (default ∅ (_secrets this !! workspace))]>
        (_secrets this))).
Proof.
  unfold store, lookup_secret.
  destruct (_secrets this !! workspace) as [ws|] eqn:Hws; simpl.
  - rewrite Hws; simpl. destruct (ws !! name) as [e|]; simpl; reflexivity.
  - rewrite lookup_insert_eq; simpl. rewrite lookup_empty; simpl.
    by rewrite insert_insert_eq.
Qed.

Lemma memory_lookup_insert this ws workspace workspace' name' :
  lookup_secret (set_secrets this (<[workspace := ws]> (_secrets this)))
    workspace' name' =
  if decide (workspace = workspace') then ws !! name'
  else lookup_secret this workspace' name'.
Proof.
  unfold lookup_secret; simpl. rewrite lookup_insert.
  by destruct (decide (workspace = workspace')).
Qed.

Lemma memory_lookup_Some this workspace name e :
  lookup_secret this workspace name = Some e ↔
  ∃ ws, _secrets this !! workspace = Some ws ∧ ws !! name = Some e.
Proof.
  unfold lookup_secret. destruct (_secrets this !! workspace) as [ws|]; simpl.
  - split; [by exists ws | by intros (? & [= <-] & ?)].
  - split; [done | by intros (? & [=] & ?)].
Qed.

(** [retrieve], [getMetadata] and [delete] by cases on the entry. *)
Lemma memory_retrieve_eq workspace name v env this :
  retrieve workspace name v env this =
  match lookup_secret this workspace name with
  | None => (Throw SecretNotFoundError, this)
  | Some secret =>
      if expired (now env) (stored_metadata secret)
      then (Throw SecretNotFoundError, after_delete this workspace name)
      else if version_mismatch v (Types.version (stored_metadata secret))
      then (Throw SecretNotFoundError, this)
      else (Return {| value := stored_value secret;
                      retrieve_version := Types.version (stored_metadata secret) |},
            this)
  end.
Proof.
  unfold retrieve, lookup_secret, after_delete.
  destruct (_secrets this !! workspace) as [ws|]; simpl; [|done].
  destruct (ws !! name) as [e|]; simpl; [|done].
  done.
Qed.

Lemma memory_getMetadata_eq workspace name env this :
  getMetadata workspace name env this =
  match lookup_secret this workspace name with
  | None => (Throw SecretNotFoundError, this)
  | Some secret =>
      if expired (now env) (stored_metadata secret)
      then (Throw SecretNotFoundError, after_delete this workspace name)
      else (Return (stored_metadata secret), this)
  end.
Proof.
  unfold getMetadata, lookup_secret, after_delete.
  destruct (_secrets this !! workspace) as [ws|]; simpl; [|done].
  by destruct (ws !! name) as [e|].
Qed.

Lemma memory_delete_eq workspace name this :
  delete workspace name this =
  match lookup_secret this workspace name with
  | None => (Return false, this)
  | Some _ => (Return true, after_delete this workspace name)
  end.
Proof.
  unfold delete, lookup_secret, after_delete.
  destruct (_secrets this !! workspace) as [ws|]; simpl; [|done].
  by destruct (ws !! name) as [e|].
Qed.

Lemma memory_lookup_after_delete this workspace name :
  lookup_secret (after_delete this workspace name) workspace name = None.
Proof.
  unfold after_delete. rewrite memory_lookup_insert.
  rewrite decide_True by done. apply lookup_delete_eq.
Qed.

Lemma memory_expired_past now m t :
  Types.expiresAt m = Some (ValidDate t) → t < now → expired now m = true.
Proof.
  intros Hexp Hlt. unfold expired. rewrite Hexp. simpl.
  by apply bool_decide_eq_true.
Qed.

Lemma memory_listed_elem workspace filterLabels now ws (s : Secret) :
  s ∈ listed workspace filterLabels now ws →
  ∃ stored, ws !! Types.name s = Some stored ∧
            expired now (stored_metadata stored) = false ∧
            labels_match filterLabels (labels (stored_metadata stored)) = true ∧
            Types.workspace s = workspace ∧
            metadata s = stored_metadata stored.
Proof.
  unfold listed. rewrite list_elem_of_omap.
  intros ([n stored] & Hin%elem_of_map_to_list & Hs).
  destruct (expired now (stored_metadata stored)) eqn:Hexp; [done|].
  destruct (labels_match filterLabels _) eqn:Hlab; simpl in Hs; [|done].
  injection Hs as <-. by exists stored.
Qed.

Lemma memory_listSecrets_elem `{Host} workspace filterLabels cursor limit env this r this' :
  listSecrets workspace filterLabels cursor limit env this = (Return r, this') →
  this' = this ∧
  ∀ s, s ∈ secrets r →
    ∃ stored, lookup_secret this workspace (Types.name s) = Some stored ∧
              expired (now env) (stored_metadata stored) = false ∧
              labels_match filterLabels (labels (stored_metadata stored)) = true ∧
              Types.workspace s = workspace ∧
              metadata s = stored_metadata stored.
Proof.
  unfold listSecrets, lookup_secret.
  destruct (_secrets this !! workspace) as [ws|]; simpl.
  - intros [= <- <-]. split; [done|]. intros s Hs%elem_of_paginate.
    by apply memory_listed_elem in Hs.
  - intros [= <- <-]. split; [done|]. simpl. by intros s ?%elem_of_nil.
Qed.

Lemma memory_listSecrets_returns `{Host} workspace filterLabels cursor limit env this :
  ∃ r, listSecrets workspace filterLabels cursor limit env this = (Return r, this).
Proof.
  unfold listSecrets. destruct (_secrets this !! workspace); eauto.
Qed.

End memory_lookup.

Section file_lookup.
Import File.
Context `{Node}.
Implicit Types (this : FileBackend) (workspace name : string).
Implicit Types (ws : gmap string StoredSecret) (env : Env).

Lemma file_lookup_save env this workspace name :
  lookup_secret (_save env this) workspace name = lookup_secret this workspace name.
Proof. reflexivity. Qed.

Lemma file_workspaces_save env this :
  workspaces (_data (_save env this)) = workspaces (_data this).
Proof. reflexivity. Qed.

Lemma file_lookup_insert this ws workspace workspace' name' :
  lookup_secret (set_workspaces this (<[workspace := ws]> (workspaces (_data this))))
    workspace' name' =
  if decide (workspace = workspace') then ws !! name'
  else lookup_secret this workspace' name'.
Proof.
  unfold lookup_secret; simpl. rewrite lookup_insert.
  by destruct (decide (workspace = workspace')).
Qed.

Lemma file_lookup_Some this workspace name e :
  lookup_secret this workspace name = Some e ↔
  ∃ ws, workspaces (_data this) !! workspace = Some ws ∧ ws !! name = Some e.
Proof.
  unfold lookup_secret.
  destruct (workspaces (_data this) !! workspace) as [ws|]; simpl.
  - split; [by exists ws | by intros (? & [= <-] & ?)].
  - split; [done | by intros (? & [=] & ?)].
Qed.

Lemma file_lookup_after_delete env this workspace name :
  lookup_secret (after_delete env this workspace name) workspace name = None.
Proof.
  unfold after_delete. rewrite file_lookup_save, file_lookup_insert.
  rewrite decide_True by done. apply lookup_delete_eq.
Qed.

(** *** Lookups that stay in the vault, and lookups that do not *)

Lemma property_of_Some {A} (object : gmap string A) key a :
  object !! key = Some a → property_of object key = Own a.
Proof. unfold property_of. by intros ->. Qed.

Lemma property_of_plain {A} (object : gmap string A) key :
  key ∉ Errors.Object_prototype →
  property_of object key = from_option Own Undefined (object !! key).
Proof.
  intros Hkey. unfold property_of. destruct (object !! key); [done|].
  by rewrite bool_decide_eq_false_2.
Qed.

Lemma property_of_inherited {A} (object : gmap string A) key :
  object !! key = None → key ∈ Errors.Object_prototype →
  property_of object key = Inherited.
Proof. intros Hnone Hkey. unfold property_of. by rewrite Hnone, bool_decide_eq_true_2. Qed.

Lemma property_of_Undefined {A} (object : gmap string A) key :
  property_of object key = Undefined → object !! key = None.
Proof. unfold property_of. by destruct (object !! key). Qed.

Lemma property_of_not_inherited {A} (object : gmap string A) key :
  property_of object key ≠ Inherited →
  property_of object key = from_option Own Undefined (object !! key).
Proof.
  unfold property_of. destruct (object !! key); [done|].
  by case_bool_decide.
Qed.

Lemma in_vault_Some this workspace name e :
  lookup_secret this workspace name = Some e → in_vault this workspace name.
Proof.
  intros (ws & Hws & He)%file_lookup_Some. unfold in_vault.
  rewrite Hws; simpl. by rewrite (property_of_Some _ _ _ Hws), (property_of_Some _ _ _ He).
Qed.

Lemma in_vault_plain this workspace name :
  workspace ∉ Errors.Object_prototype → name ∉ Errors.Object_prototype →
  in_vault this workspace name.
Proof.
  intros Hw Hn. unfold in_vault. rewrite !property_of_plain by done.
  split; [by destruct (_ !! workspace) | by destruct (_ !! name)].
Qed.

Lemma in_vault_own_plain this workspace ws name :
  workspaces (_data this) !! workspace = Some ws →
  name ∉ Errors.Object_prototype →
  in_vault this workspace name.
Proof.
  intros Hws Hn. unfold in_vault.
  rewrite (property_of_Some _ _ _ Hws), property_of_plain by done.
  split; [done|]. by destruct (_ !! name).
Qed.

Lemma file_workspace_after_delete env this workspace name :
  workspaces (_data (after_delete env this workspace name)) !! workspace =
    Some (base.delete name (default ∅ (workspaces (_data this) !! workspace))).
Proof. unfold after_delete. rewrite file_workspaces_save. simpl. apply lookup_insert_eq. Qed.

Lemma in_vault_after_delete env this workspace name :
  name ∉ Errors.Object_prototype →
  in_vault (after_delete env this workspace name) workspace name.
Proof.
  intros Hn. eapply in_vault_own_plain; [apply file_workspace_after_delete|done].
Qed.

Lemma in_vault_stored env this m workspace ws name e :
  in_vault (_save env (set_workspaces this (<[workspace := <[name := e]> ws]> m)))
    workspace name.
Proof.
  unfold in_vault; simpl. rewrite lookup_insert_eq; simpl.
  by rewrite (property_of_Some _ _ _ (lookup_insert_eq _ _ _)),
             (property_of_Some _ _ _ (lookup_insert_eq _ _ _)).
Qed.

Lemma file_store_eq workspace name value labels expires env this :
  in_vault this workspace name →
  store workspace name value labels expires env this =
  match expiresAt_toISOString expires with
  | Beyond => (Beyond, this)
  | Throw e =>
      (Throw e,
       set_workspaces this
         (<[workspace := default ∅ (workspaces (_data this) !! workspace)]>
            (workspaces (_data this))))
  | Return text =>
      (Return {| created := bool_decide (lookup_secret this workspace name = None);
                 store_version :=
                   match lookup_secret this workspace name with
                   | None => 1
                   | Some e => version (metadata e) + 1
                   end |},
       _save env
         (set_workspaces this
            (<[workspace :=
                 <[name := {| stored_value := base64_encode value;
                              metadata :=
                                {| createdAt :=
                                     match lookup_secret this workspace name with
                                     | None => Date_toISOString (now env)
                                     | Some e => createdAt (metadata e)
                                     end;
                                   updatedAt := Date_toISOString (now env);
                                   backend := "file";
                                   version :=
                                     match lookup_secret this workspace name with
                                     | None => 1
                                     | Some e => version (metadata e) + 1
                                     end;
                                   labels := default ∅ labels;
                                   expiresAt := text |} |}]>
                   (default ∅ (workspaces (_data this) !! workspace))]>
               (workspaces (_data this)))))
  end.
Proof.
  intros [Hw Hn]. unfold store, lookup_secret.
  rewrite (property_of_not_inherited _ _ Hw).
  destruct (workspaces (_data this) !! workspace) as [ws|] eqn:Hws;
    simpl in Hn |- *.
  - rewrite ?Hws; simpl. rewrite (property_of_not_inherited _ _ Hn).
    destruct expires as [[t|]|]; simpl.
    + by destruct (ws !! name) as [e|].
    + rewrite insert_id by done. by destruct (ws !! name) as [e|].
    + by destruct (ws !! name) as [e|].
  - rewrite lookup_insert_eq; simpl. rewrite (property_of_not_inherited _ _ Hn).
    rewrite lookup_empty; simpl. unfold set_workspaces; simpl.
    destruct expires as [[t|]|]; simpl; by rewrite ?insert_insert_eq.
Qed.

(** An inherited [ws[name]]: the store throws its [TypeError] with the
    workspace created, if there was none, and nothing saved. *)
Lemma file_store_inherited workspace name value labels expires env this :
  property_of (workspaces (_data this)) workspace ≠ Inherited →
  lookup_secret this workspace name = None →
  name ∈ Errors.Object_prototype →
  store workspace name value labels expires env this =
    (Throw TypeError,
     set_workspaces this
       (<[workspace := default ∅ (workspaces (_data this) !! workspace)]>
          (workspaces (_data this)))).
Proof.
  intros Hw Habs Hn. unfold store, lookup_secret in *.
  rewrite (property_of_not_inherited _ _ Hw).
  destruct (workspaces (_data this) !! workspace) as [ws|] eqn:Hws;
    simpl in Habs |- *.
  - rewrite ?Hws; simpl. rewrite (property_of_inherited _ _ Habs Hn).
    by rewrite insert_id.
  - rewrite lookup_insert_eq; simpl.
    by rewrite (property_of_inherited _ _ (lookup_empty _) Hn).
Qed.

Lemma expiresAt_toISOString_valid expires :
  expires ≠ Some InvalidDate → ∃ text, expiresAt_toISOString expires = Return text.
Proof. destruct expires as [[t|]|]; simpl; eauto; done. Qed.

Lemma file_expired_past now m text t :
  expiresAt m = Some text → text ≠ "" → Date_parse text = ValidDate t →
  t < now → expired now m = true.
Proof.
  intros Hexp Hne Hparse Hlt. unfold expired. rewrite Hexp.
  rewrite bool_decide_eq_false_2 by done. rewrite Hparse. simpl.
  by apply bool_decide_eq_true.
Qed.

Lemma file_listed_elem workspace filterLabels now ws (s : Secret) :
  s ∈ listed workspace filterLabels now ws →
  ∃ stored, ws !! Types.name s = Some stored ∧
            expired now (metadata stored) = false ∧
            labels_match filterLabels (labels (metadata stored)) = true ∧
            Types.workspace s = workspace ∧
            Types.metadata s = to_metadata (metadata stored).
Proof.
  unfold listed. rewrite list_elem_of_omap.
  intros ([n stored] & Hin%elem_of_map_to_list & Hs).
  destruct (expired now (metadata stored)) eqn:Hexp; [done|].
  destruct (labels_match filterLabels _) eqn:Hlab; simpl in Hs; [|done].
  injection Hs as <-. by exists stored.
Qed.

Lemma file_listSecrets_elem `{Host} workspace filterLabels cursor limit env this r this' :
  listSecrets workspace filterLabels cursor limit env this = (Return r, this') →
  this' = this ∧
  ∀ s, s ∈ secrets r →
    ∃ stored, lookup_secret this workspace (Types.name s) = Some stored ∧
              expired (now env) (metadata stored) = false ∧
              labels_match filterLabels (labels (metadata stored)) = true ∧
              Types.workspace s = workspace ∧
              Types.metadata s = to_metadata (metadata stored).
Proof.
  unfold listSecrets, lookup_secret, property_of.
  destruct (workspaces (_data this) !! workspace) as [ws|]; simpl.
  - intros [= <- <-]. split; [done|]. intros s Hs%elem_of_paginate.
    by apply file_listed_elem in Hs.
  - case_bool_decide; intros [= <- <-]; (split; [done|]); simpl.
    + intros s Hs%elem_of_paginate. unfold listed in Hs.
      rewrite map_to_list_empty in Hs. by apply elem_of_nil in Hs.
    + by intros s ?%elem_of_nil.
Qed.

Lemma file_listSecrets_returns `{Host} workspace filterLabels cursor limit env this :
  ∃ r, listSecrets workspace filterLabels cursor limit env this = (Return r, this).
Proof.
  unfold listSecrets, property_of.
  destruct (workspaces (_data this) !! workspace); [eauto|].
  case_bool_decide; eauto.
Qed.

Lemma file_retrieve_eq workspace name v env this :
  in_vault this workspace name →
  retrieve workspace name v env this =
  match lookup_secret this workspace name with
  | None => (Throw SecretNotFoundError, this)
  | Some secret =>
      if expired (now env) (metadata secret)
      then (Throw SecretNotFoundError, after_delete env this workspace name)
      else if version_mismatch v (version (metadata secret))
      then (Throw SecretNotFoundError, this)
      else (Return {| value := base64_decode (stored_value secret);
                      retrieve_version := version (metadata secret) |},
            this)
  end.
Proof.
  intros [Hw Hn]. unfold retrieve, lookup_secret, after_delete.
  rewrite (property_of_not_inherited _ _ Hw).
  destruct (workspaces (_data this) !! workspace) as [ws|]; simpl in Hn |- *; [|done].
  rewrite (property_of_not_inherited _ _ Hn). by destruct (ws !! name).
Qed.

Lemma file_getMetadata_eq workspace name env this :
  in_vault this workspace name →
  getMetadata workspace name env this =
  match lookup_secret this workspace name with
  | None => (Throw SecretNotFoundError, this)
  | Some stored =>
      if expired (now env) (metadata stored)
      then (Throw SecretNotFoundError, after_delete env this workspace name)
      else (Return (to_metadata (metadata stored)), this)
  end.
Proof.
  intros [Hw Hn]. unfold getMetadata, lookup_secret, after_delete.
  rewrite (property_of_not_inherited _ _ Hw).
  destruct (workspaces (_data this) !! workspace) as [ws|]; simpl in Hn |- *; [|done].
  rewrite (property_of_not_inherited _ _ Hn). by destruct (ws !! name).
Qed.

Lemma file_delete_eq workspace name env this :
  in_vault this workspace name →
  delete workspace name env this =
  match lookup_secret this workspace name with
  | None => (Return false, this)
  | Some _ => (Return true, after_delete env this workspace name)
  end.
Proof.
  intros [Hw Hn]. unfold delete, lookup_secret, after_delete.
  rewrite (property_of_not_inherited _ _ Hw).
  destruct (workspaces (_data this) !! workspace) as [ws|]; simpl in Hn |- *; [|done].
  rewrite (property_of_not_inherited _ _ Hn). by destruct (ws !! name).
Qed.

(** What [getMetadata] returns, it has found in the vault. *)
Lemma file_getMetadata_Return workspace name env this m this' :
  getMetadata workspace name env this = (Return m, this') →
  ∃ e, lookup_secret this workspace name = Some e ∧
       expired (now env) (metadata e) = false.
Proof.
  unfold getMetadata, lookup_secret, property_of.
  destruct (workspaces (_data this) !! workspace) as [ws|]; simpl;
    [|by case_bool_decide].
  destruct (ws !! name) as [e|]; [|by case_bool_decide].
  destruct (expired (now env) (metadata e)) eqn:Hexp; [done|]. eauto.
Qed.

(** A store that returns has stayed in the vault. *)
Lemma file_store_in_vault workspace name value labels expires env this r this' :
  store workspace name value labels expires env this = (Return r, this') →
  in_vault this workspace name.
Proof.
  unfold store, in_vault, property_of.
  destruct (workspaces (_data this) !! workspace) as [ws|] eqn:Hws; simpl.
  - rewrite ?Hws; simpl. destruct (ws !! name); [done|].
    by case_bool_decide.
  - case_bool_decide; [done|]. rewrite lookup_insert_eq; simpl.
    rewrite lookup_empty. by case_bool_decide.
Qed.

(** An inherited [ws[name]] in a workspace of the vault. *)
Lemma file_retrieve_inherited workspace name v env this ws :
  workspaces (_data this) !! workspace = Some ws →
  ws !! name = None → name ∈ Errors.Object_prototype →
  retrieve workspace name v env this = (Throw TypeError, this).
Proof.
  intros Hws Habs Hn. unfold retrieve.
  by rewrite (property_of_Some _ _ _ Hws), (property_of_inherited _ _ Habs Hn).
Qed.

Lemma file_getMetadata_inherited workspace name env this ws :
  workspaces (_data this) !! workspace = Some ws →
  ws !! name = None → name ∈ Errors.Object_prototype →
  getMetadata workspace name env this = (Throw TypeError, this).
Proof.
  intros Hws Habs Hn. unfold getMetadata.
  by rewrite (property_of_Some _ _ _ Hws), (property_of_inherited _ _ Habs Hn).
Qed.

Lemma file_delete_inherited workspace name env this ws :
  workspaces (_data this) !! workspace = Some ws →
  ws !! name = None → name ∈ Errors.Object_prototype →
  delete workspace name env this =
    if bool_decide (name = "__proto__") then (Beyond, this)
    else (Return true, _save env this).
Proof.
  intros Hws Habs Hn. unfold delete.
  by rewrite (property_of_Some _ _ _ Hws), (property_of_inherited _ _ Habs Hn).
Qed.

End file_lookup.

(** The side condition of the lemmas above that a call stays in the vault. *)
Ltac stays :=
  first [ done
        | by eapply in_vault_Some
        | by apply in_vault_stored
        | by apply in_vault_plain ].

(** ** The default rotation, unfolded *)

Lemma rotate_unfold {B} `{Backend.BackendBase B}
    (workspace name : string) (newValue : list Byte.byte) (env1 env2 : Env) (this : B) :
  Backend.rotate workspace name newValue env1 env2 this =
  match Backend.getMetadata workspace name env1 this with
  | (Return _, this') =>
      match Backend.store workspace name newValue None None env2 this' with
      | (Return result, this'') => (Return (store_version result), this'')
      | (Throw e, this'') => (Throw e, this'')
      | (Beyond, this'') => (Beyond, this'')
      end
  | (Throw e, this') => (Throw e, this')
  | (Beyond, this') => (Beyond, this')
  end.
Proof.
  unfold Backend.rotate, mbind, method_mbind, method_bind, mret, method_mret, method_ret.
  destruct (Backend.getMetadata workspace name env1 this) as [[m|e|] this']; [|done..].
  by destruct (Backend.store workspace name newValue None None env2 this') as [[r|e|] this''].
Qed.

(** ** Store, then retrieve *)

(** C1. In the memory backend, [store(workspace, name, value)] returns, and
    a [retrieve(workspace, name)] that follows it returns exactly [value],
    with the version the store reported; when the name was absent before,
    the store reports version 1 and [created = true]. This holds for every
    workspace and name, the valid ones among them. *)
Theorem memory_store_then_retrieve
    (workspace name : string) (value : list Byte.byte) (env1 env2 : Env)
    (this : Memory.MemoryBackend) :
  ∃ (r : StoreResult) (this' : Memory.MemoryBackend),
    Memory.store workspace name value None None env1 this = (Return r, this') ∧
    (Memory.retrieve workspace name None env2 this').1 =
      Return {| value := value; retrieve_version := store_version r |} ∧
    (Memory.lookup_secret this workspace name = None →
     store_version r = 1 ∧ created r = true).
Proof.
  rewrite memory_store_eq. eexists _, _. split; [reflexivity|]. split.
  - rewrite memory_retrieve_eq, memory_lookup_insert.
    rewrite decide_True by done. rewrite lookup_insert_eq. reflexivity.
  - intros Habs. rewrite Habs. by simpl.
Qed.

(** The scenario of the specification: "api_key" = "secret123" in the
    workspace "default". *)
Lemma memory_store_then_retrieve_witness :
  ∃ (r : StoreResult) (this' : Memory.MemoryBackend),
    Memory.store "default" "api_key" (list_byte_of_string "secret123")
      None None (example_env 1000) (Memory.new None) = (Return r, this') ∧
    (Memory.retrieve "default" "api_key" None (example_env 2000) this').1 =
      Return {| value := list_byte_of_string "secret123";
                retrieve_version := store_version r |} ∧
    (Memory.lookup_secret (Memory.new None) "default" "api_key" = None →
     store_version r = 1 ∧ created r = true).
Proof.
  exact (memory_store_then_retrieve "default" "api_key"
           (list_byte_of_string "secret123") (example_env 1000)
           (example_env 2000) (Memory.new None)).
Defined.

(** The same round trip through the file backend, when the call stays in
    the vault and the base64 text of a buffer decodes to the buffer. *)
Lemma file_store_then_retrieve `{File.Node}
    (workspace name : string) (value : list Byte.byte) (env1 env2 : Env)
    (this : File.FileBackend) :
  File.in_vault this workspace name →
  (∀ bytes, File.base64_decode (File.base64_encode bytes) = bytes) →
  ∃ (r : StoreResult) (this' : File.FileBackend),
    File.store workspace name value None None env1 this = (Return r, this') ∧
    (File.retrieve workspace name None env2 this').1 =
      Return {| value := value; retrieve_version := store_version r |} ∧
    (File.lookup_secret this workspace name = None →
     store_version r = 1 ∧ created r = true).
Proof.
  intros Hin Hbase64. rewrite file_store_eq by done. simpl.
  eexists _, _. split; [reflexivity|]. split.
  - rewrite file_retrieve_eq by apply in_vault_stored.
    rewrite file_lookup_save, file_lookup_insert.
    rewrite decide_True by done. rewrite lookup_insert_eq. simpl.
    by rewrite Hbase64.
  - intros Habs. rewrite Habs. by simpl.
Qed.

(** ** Versions and creation time under repeated stores *)

(** C2. In both backends a store on a [(workspace, name)] that is present
    succeeds, reports [created = false] and the stored version plus one,
    and leaves an entry with that version and the [createdAt] of the entry
    it replaces. A store on an absent name that returns reports
    [created = true] and version 1 and leaves an entry of version 1; in the
    memory backend it always returns. In the file backend it returns when
    the call stays in the vault and the expiration is not the Invalid Date;
    when [ws[name]] is inherited from [Object.prototype] it throws a
    [TypeError] and when the expiration is the Invalid Date a [RangeError],
    each before an entry is written, so that no name is created. *)
Theorem store_increments_version `{File.Node} :
  (∀ workspace name value labels expires env (this : Memory.MemoryBackend) e,
     Memory.lookup_secret this workspace name = Some e →
     ∃ this' e',
       Memory.store workspace name value labels expires env this =
         (Return {| created := false;
                    store_version := version (Memory.stored_metadata e) + 1 |}, this') ∧
       Memory.lookup_secret this' workspace name = Some e' ∧
       version (Memory.stored_metadata e') = version (Memory.stored_metadata e) + 1 ∧
       createdAt (Memory.stored_metadata e') = createdAt (Memory.stored_metadata e)) ∧
  (∀ workspace name value labels expires env (this : Memory.MemoryBackend),
     Memory.lookup_secret this workspace name = None →
     ∃ this' e',
       Memory.store workspace name value labels expires env this =
         (Return {| created := true; store_version := 1 |}, this') ∧
       Memory.lookup_secret this' workspace name = Some e' ∧
       version (Memory.stored_metadata e') = 1) ∧
  (∀ workspace name value labels expires env (this : File.FileBackend) e,
     File.lookup_secret this workspace name = Some e →
     expires ≠ Some InvalidDate →
     ∃ this' e',
       File.store workspace name value labels expires env this =
         (Return {| created := false;
                    store_version := File.version (File.metadata e) + 1 |}, this') ∧
       File.lookup_secret this' workspace name = Some e' ∧
       File.version (File.metadata e') = File.version (File.metadata e) + 1 ∧
       File.createdAt (File.metadata e') = File.createdAt (File.metadata e)) ∧
  (∀ workspace name value labels expires env (this : File.FileBackend),
     File.lookup_secret this workspace name = None →
     (∀ r this',
        File.store workspace name value labels expires env this = (Return r, this') →
        r = {| created := true; store_version := 1 |} ∧
        ∃ e', File.lookup_secret this' workspace name = Some e' ∧
              File.version (File.metadata e') = 1) ∧
     (File.in_vault this workspace name → expires ≠ Some InvalidDate →
      ∃ r this',
        File.store workspace name value labels expires env this = (Return r, this')) ∧
     (property_of (File.workspaces_of this) workspace ≠ Inherited →
      name ∈ Errors.Object_prototype ∨ expires = Some InvalidDate →
      ∃ e this',
        File.store workspace name value labels expires env this = (Throw e, this') ∧
        (name ∈ Errors.Object_prototype → e = TypeError) ∧
        File.lookup_secret this' workspace name = None ∧
        File.disk this' = File.disk this)).
Proof.
  split; [|split; [|split]].
  - intros workspace name value labels expires env this e He.
    rewrite memory_store_eq, He. eexists _, _. split; [reflexivity|].
    rewrite memory_lookup_insert, decide_True by done.
    rewrite lookup_insert_eq. done.
  - intros workspace name value labels expires env this He.
    rewrite memory_store_eq, He. eexists _, _. split; [reflexivity|].
    rewrite memory_lookup_insert, decide_True by done.
    rewrite lookup_insert_eq. done.
  - intros workspace name value labels expires env this e He Hvalid.
    destruct (expiresAt_toISOString_valid expires Hvalid) as [text Htext].
    rewrite file_store_eq, Htext, He by by eapply in_vault_Some.
    eexists _, _. split; [reflexivity|].
    rewrite file_lookup_save, file_lookup_insert, decide_True by done.
    rewrite lookup_insert_eq. done.
  - intros workspace name value labels expires env this Habs.
    assert (File.lookup_secret
              (File.set_workspaces this
                 (<[workspace := default ∅ (File.workspaces (File._data this) !! workspace)]>
                    (File.workspaces (File._data this)))) workspace name = None)
      as Hstill.
    { rewrite file_lookup_insert, decide_True by done.
      unfold File.lookup_secret in Habs.
      by destruct (File.workspaces (File._data this) !! workspace). }
    split; [|split].
    + intros r this' Hstore.
      pose proof (file_store_in_vault _ _ _ _ _ _ _ _ _ Hstore) as Hin.
      rewrite file_store_eq, Habs in Hstore by done.
      destruct (File.expiresAt_toISOString expires) as [text|err|]; [|done..].
      injection Hstore as <- <-. split; [done|].
      rewrite file_lookup_save, file_lookup_insert, decide_True by done.
      rewrite lookup_insert_eq. eauto.
    + intros Hin Hvalid.
      destruct (expiresAt_toISOString_valid expires Hvalid) as [text Htext].
      rewrite file_store_eq, Htext by done. eauto.
    + intros Hw Hcase.
      destruct (decide (name ∈ Errors.Object_prototype)) as [Hn|Hn].
      * rewrite file_store_inherited by done. eauto 10.
      * destruct Hcase as [?| ->]; [done|].
        rewrite file_store_eq; simpl; [by eexists _, _; split; [reflexivity|]|].
        split; [done|]. rewrite property_of_plain by done.
        unfold File.lookup_secret in Habs.
        by destruct (File.workspaces (File._data this) !! workspace) as [ws|];
          simpl in *; [rewrite Habs|rewrite lookup_empty].
Qed.

(** ** Lazy expiration *)

(** C3. A secret whose [expiresAt] lies strictly before the time of the
    access is returned by none of [retrieve], [getMetadata] and
    [listSecrets]: the first two throw [SecretNotFoundError] and leave a
    state in which the entry is gone, and no secret of that name is in a
    page of [listSecrets]. In the file backend the stored expiration is the
    non-empty text of the date. *)
Theorem expired_secret_never_returned `{File.Node} `{Host} :
  (∀ workspace name env (this : Memory.MemoryBackend) e t,
     Memory.lookup_secret this workspace name = Some e →
     expiresAt (Memory.stored_metadata e) = Some (ValidDate t) →
     t < now env →
     (∀ v, ∃ this',
        Memory.retrieve workspace name v env this = (Throw SecretNotFoundError, this') ∧
        Memory.lookup_secret this' workspace name = None) ∧
     (∃ this',
        Memory.getMetadata workspace name env this = (Throw SecretNotFoundError, this') ∧
        Memory.lookup_secret this' workspace name = None) ∧
     (∀ filterLabels cursor limit, ∃ r,
        Memory.listSecrets workspace filterLabels cursor limit env this = (Return r, this) ∧
        ∀ s, s ∈ secrets r → Types.name s ≠ name)) ∧
  (∀ workspace name env (this : File.FileBackend) e text t,
     File.lookup_secret this workspace name = Some e →
     File.expiresAt (File.metadata e) = Some text →
     text ≠ "" →
     File.Date_parse text = ValidDate t →
     t < now env →
     (∀ v, ∃ this',
        File.retrieve workspace name v env this = (Throw SecretNotFoundError, this') ∧
        File.lookup_secret this' workspace name = None) ∧
     (∃ this',
        File.getMetadata workspace name env this = (Throw SecretNotFoundError, this') ∧
        File.lookup_secret this' workspace name = None) ∧
     (∀ filterLabels cursor limit, ∃ r,
        File.listSecrets workspace filterLabels cursor limit env this = (Return r, this) ∧
        ∀ s, s ∈ secrets r → Types.name s ≠ name)).
Proof.
  split.
  - intros workspace name env this e t He Hexp Hlt.
    pose proof (memory_expired_past _ _ _ Hexp Hlt) as Hexpired.
    repeat split.
    + intros v. rewrite memory_retrieve_eq, He, Hexpired.
      eexists; split; [reflexivity|]. apply memory_lookup_after_delete.
    + rewrite memory_getMetadata_eq, He, Hexpired.
      eexists; split; [reflexivity|]. apply memory_lookup_after_delete.
    + intros filterLabels cursor limit.
      destruct (memory_listSecrets_returns workspace filterLabels cursor limit env this)
        as [r Hr].
      exists r; split; [done|]. intros s Hs Hname.
      destruct (memory_listSecrets_elem _ _ _ _ _ _ _ _ Hr) as [_ Helem].
      destruct (Helem s Hs) as (stored & Hstored & Hlive & _).
      rewrite Hname in Hstored. congruence.
  - intros workspace name env this e text t He Hexp Hne Hparse Hlt.
    pose proof (file_expired_past _ _ _ _ Hexp Hne Hparse Hlt) as Hexpired.
    repeat split.
    + intros v. rewrite file_retrieve_eq, He, Hexpired by stays.
      eexists; split; [reflexivity|]. apply file_lookup_after_delete.
    + rewrite file_getMetadata_eq, He, Hexpired by stays.
      eexists; split; [reflexivity|]. apply file_lookup_after_delete.
    + intros filterLabels cursor limit.
      destruct (file_listSecrets_returns workspace filterLabels cursor limit env this)
        as [r Hr].
      exists r; split; [done|]. intros s Hs Hname.
      destruct (file_listSecrets_elem _ _ _ _ _ _ _ _ Hr) as [_ Helem].
      destruct (Helem s Hs) as (stored & Hstored & Hlive & _).
      rewrite Hname in Hstored. congruence.
Qed.

(** ** Rotation *)

(** The default [rotate] on a [(workspace, name)] that is not in the store
    leaves the backend as it was: no entry is created and, in the file
    backend, nothing is written. In the memory backend it throws
    [SecretNotFoundError]. In the file backend it throws
    [SecretNotFoundError] when the call stays in the vault, and the
    [TypeError] of [getMetadata] when the workspace is there and the name
    is a key of [Object.prototype]. *)
Lemma rotate_nonexistent_fails `{File.Node} `{Host} :
  (∀ workspace name newValue env1 env2 (this : Memory.MemoryBackend),
     Memory.lookup_secret this workspace name = None →
     Backend.rotate workspace name newValue env1 env2 this =
       (Throw SecretNotFoundError, this)) ∧
  (∀ workspace name newValue env1 env2 (this : File.FileBackend),
     File.lookup_secret this workspace name = None →
     File.in_vault this workspace name →
     Backend.rotate workspace name newValue env1 env2 this =
       (Throw SecretNotFoundError, this)) ∧
  (∀ workspace name newValue env1 env2 (this : File.FileBackend) ws,
     File.workspaces_of this !! workspace = Some ws →
     ws !! name = None →
     name ∈ Errors.Object_prototype →
     Backend.rotate workspace name newValue env1 env2 this =
       (Throw TypeError, this)).
Proof.
  split; [|split].
  - intros workspace name newValue env1 env2 this Habs.
    rewrite rotate_unfold; simpl. by rewrite memory_getMetadata_eq, Habs.
  - intros workspace name newValue env1 env2 this Habs Hin.
    rewrite rotate_unfold; simpl. by rewrite file_getMetadata_eq, Habs.
  - intros workspace name newValue env1 env2 this ws Hws Habs Hn.
    rewrite rotate_unfold; simpl.
    by rewrite (file_getMetadata_inherited _ _ _ _ ws).
Qed.

(** A rotation that returns has found a live entry. *)
Lemma memory_rotate_returns `{Host} workspace name newValue env1 env2
    (this this' : Memory.MemoryBackend) (v : Z) :
  Backend.rotate workspace name newValue env1 env2 this = (Return v, this') →
  ∃ e, Memory.lookup_secret this workspace name = Some e ∧
       Memory.expired (now env1) (Memory.stored_metadata e) = false.
Proof.
  rewrite rotate_unfold; simpl. rewrite memory_getMetadata_eq.
  destruct (Memory.lookup_secret this workspace name) as [e|]; [|done].
  destruct (Memory.expired _ _) eqn:Hexp; [done|]. intros _. by exists e.
Qed.

Lemma file_rotate_returns `{File.Node} `{Host} workspace name newValue env1 env2
    (this this' : File.FileBackend) (v : Z) :
  Backend.rotate workspace name newValue env1 env2 this = (Return v, this') →
  ∃ e, File.lookup_secret this workspace name = Some e ∧
       File.expired (now env1) (File.metadata e) = false.
Proof.
  rewrite rotate_unfold; simpl.
  destruct (File.getMetadata workspace name env1 this) as [[m|err|] s] eqn:Hget;
    [|done..].
  intros _. by eapply file_getMetadata_Return.
Qed.

(** On an entry that is in the store but expired, the rotation throws
    [SecretNotFoundError] and the entry is removed. *)
Lemma memory_rotate_expired `{Host} workspace name newValue env1 env2
    (this : Memory.MemoryBackend) e :
  Memory.lookup_secret this workspace name = Some e →
  Memory.expired (now env1) (Memory.stored_metadata e) = true →
  Backend.rotate workspace name newValue env1 env2 this =
    (Throw SecretNotFoundError, Memory.after_delete this workspace name).
Proof.
  intros He Hexp. rewrite rotate_unfold; simpl.
  by rewrite memory_getMetadata_eq, He, Hexp.
Qed.

Lemma file_rotate_expired `{File.Node} `{Host} workspace name newValue env1 env2
    (this : File.FileBackend) e :
  File.lookup_secret this workspace name = Some e →
  File.expired (now env1) (File.metadata e) = true →
  Backend.rotate workspace name newValue env1 env2 this =
    (Throw SecretNotFoundError, File.after_delete env1 this workspace name).
Proof.
  intros He Hexp. rewrite rotate_unfold; simpl.
  by rewrite file_getMetadata_eq, He, Hexp by stays.
Qed.

(** C9. The default [rotate] on a secret that exists for it (the entry is
    in the store and not expired at the time of the call) succeeds with the
    next version and leaves an entry with the new value, the empty label map
    and no expiration, whatever labels and expiration the secret had; and
    whenever the rotation returns, the entry it leaves has the empty label
    map and no expiration. *)
Theorem rotate_resets_labels_and_expiry `{File.Node} `{Host} :
  (∀ workspace name newValue env1 env2 (this : Memory.MemoryBackend) e,
     Memory.lookup_secret this workspace name = Some e →
     Memory.expired (now env1) (Memory.stored_metadata e) = false →
     ∃ this' e',
       Backend.rotate workspace name newValue env1 env2 this =
         (Return (version (Memory.stored_metadata e) + 1), this') ∧
       Memory.lookup_secret this' workspace name = Some e' ∧
       Memory.stored_value e' = newValue ∧
       labels (Memory.stored_metadata e') = ∅ ∧
       expiresAt (Memory.stored_metadata e') = None) ∧
  (∀ workspace name newValue env1 env2 (this this' : Memory.MemoryBackend) v,
     Backend.rotate workspace name newValue env1 env2 this = (Return v, this') →
     ∃ e',
       Memory.lookup_secret this' workspace name = Some e' ∧
       labels (Memory.stored_metadata e') = ∅ ∧
       expiresAt (Memory.stored_metadata e') = None) ∧
  (∀ workspace name newValue env1 env2 (this : File.FileBackend) e,
     File.lookup_secret this workspace name = Some e →
     File.expired (now env1) (File.metadata e) = false →
     ∃ this' e',
       Backend.rotate workspace name newValue env1 env2 this =
         (Return (File.version (File.metadata e) + 1), this') ∧
       File.lookup_secret this' workspace name = Some e' ∧
       File.stored_value e' = File.base64_encode newValue ∧
       File.labels (File.metadata e') = ∅ ∧
       File.expiresAt (File.metadata e') = None) ∧
  (∀ workspace name newValue env1 env2 (this this' : File.FileBackend) v,
     Backend.rotate workspace name newValue env1 env2 this = (Return v, this') →
     ∃ e',
       File.lookup_secret this' workspace name = Some e' ∧
       File.labels (File.metadata e') = ∅ ∧
       File.expiresAt (File.metadata e') = None).
Proof.
  assert (Hmem : ∀ workspace name newValue env1 env2 (this : Memory.MemoryBackend) e,
     Memory.lookup_secret this workspace name = Some e →
     Memory.expired (now env1) (Memory.stored_metadata e) = false →
     ∃ this' e',
       Backend.rotate workspace name newValue env1 env2 this =
         (Return (version (Memory.stored_metadata e) + 1), this') ∧
       Memory.lookup_secret this' workspace name = Some e' ∧
       Memory.stored_value e' = newValue ∧
       labels (Memory.stored_metadata e') = ∅ ∧
       expiresAt (Memory.stored_metadata e') = None).
  { intros workspace name newValue env1 env2 this e He Hlive.
    rewrite rotate_unfold; simpl.
    rewrite memory_getMetadata_eq, He, Hlive, memory_store_eq, He.
    eexists _, _. split; [reflexivity|].
    rewrite memory_lookup_insert, decide_True by done.
    rewrite lookup_insert_eq. done. }
  assert (Hfile : ∀ workspace name newValue env1 env2 (this : File.FileBackend) e,
     File.lookup_secret this workspace name = Some e →
     File.expired (now env1) (File.metadata e) = false →
     ∃ this' e',
       Backend.rotate workspace name newValue env1 env2 this =
         (Return (File.version (File.metadata e) + 1), this') ∧
       File.lookup_secret this' workspace name = Some e' ∧
       File.stored_value e' = File.base64_encode newValue ∧
       File.labels (File.metadata e') = ∅ ∧
       File.expiresAt (File.metadata e') = None).
  { intros workspace name newValue env1 env2 this e He Hlive.
    rewrite rotate_unfold; simpl.
    rewrite file_getMetadata_eq, He, Hlive by stays.
    rewrite file_store_eq by stays; simpl. rewrite He.
    eexists _, _. split; [reflexivity|].
    rewrite file_lookup_save, file_lookup_insert, decide_True by done.
    rewrite lookup_insert_eq. done. }
  repeat apply conj; [exact Hmem | | exact Hfile | ].
  - intros workspace name newValue env1 env2 this this' v Hret.
    destruct (memory_rotate_returns _ _ _ _ _ _ _ _ Hret) as (e & He & Hlive).
    destruct (Hmem workspace name newValue env1 env2 this e He Hlive)
      as (this'' & e' & Hrot & Hlook & _ & Hlab & Hexp).
    rewrite Hrot in Hret. injection Hret as _ <-. by exists e'.
  - intros workspace name newValue env1 env2 this this' v Hret.
    destruct (file_rotate_returns _ _ _ _ _ _ _ _ Hret) as (e & He & Hlive).
    destruct (Hfile workspace name newValue env1 env2 this e He Hlive)
      as (this'' & e' & Hrot & Hlook & _ & Hlab & Hexp).
    rewrite Hrot in Hret. injection Hret as _ <-. by exists e'.
Qed.

(** ** Deletion of an expired secret *)

(** C10. [delete] does not look at the expiration: on a secret that is in
    the store and whose [expiresAt] lies strictly before the time of the
    call it returns [true] and removes the entry, while [retrieve] and
    [getMetadata] on the same state at the same time throw
    [SecretNotFoundError]. *)
Theorem delete_ignores_expiration `{File.Node} :
  (∀ workspace name env (this : Memory.MemoryBackend) e t,
     Memory.lookup_secret this workspace name = Some e →
     expiresAt (Memory.stored_metadata e) = Some (ValidDate t) →
     t < now env →
     (∃ this',
        Memory.delete workspace name this = (Return true, this') ∧
        Memory.lookup_secret this' workspace name = None) ∧
     (∀ v, (Memory.retrieve workspace name v env this).1 = Throw SecretNotFoundError) ∧
     (Memory.getMetadata workspace name env this).1 = Throw SecretNotFoundError) ∧
  (∀ workspace name env (this : File.FileBackend) e text t,
     File.lookup_secret this workspace name = Some e →
     File.expiresAt (File.metadata e) = Some text →
     text ≠ "" →
     File.Date_parse text = ValidDate t →
     t < now env →
     (∃ this',
        File.delete workspace name env this = (Return true, this') ∧
        File.lookup_secret this' workspace name = None) ∧
     (∀ v, (File.retrieve workspace name v env this).1 = Throw SecretNotFoundError) ∧
     (File.getMetadata workspace name env this).1 = Throw SecretNotFoundError).
Proof.
  split.
  - intros workspace name env this e t He Hexp Hlt.
    pose proof (memory_expired_past _ _ _ Hexp Hlt) as Hexpired.
    repeat split.
    + rewrite memory_delete_eq, He. eexists; split; [reflexivity|].
      apply memory_lookup_after_delete.
    + intros v. by rewrite memory_retrieve_eq, He, Hexpired.
    + by rewrite memory_getMetadata_eq, He, Hexpired.
  - intros workspace name env this e text t He Hexp Hne Hparse Hlt.
    pose proof (file_expired_past _ _ _ _ Hexp Hne Hparse Hlt) as Hexpired.
    repeat split.
    + rewrite file_delete_eq, He by stays. eexists; split; [reflexivity|].
      apply file_lookup_after_delete.
    + intros v. by rewrite file_retrieve_eq, He, Hexpired by stays.
    + by rewrite file_getMetadata_eq, He, Hexpired by stays.
Qed.

(** ** Workspace isolation *)

Lemma isolated_bind {S D R1 R2 : Type} (data : S → gmap string D)
    (m : string → method S R1) (k : string → R1 → method S R2) (A B : string) :
  isolated data m A B →
  (∀ r, isolated data (λ w, k w r) A B) →
  isolated data (λ w, method_bind (m w) (k w)) A B.
Proof.
  intros Hm Hk s. unfold method_bind.
  destruct (Hm s) as [HmB Hm']. split.
  - destruct (m A s) as [[a|e|] s1] eqn:Hms; simpl in *; [|done..].
    destruct (Hk a s1) as [HkB _]. simpl in HkB.
    destruct (k A a s1) as [r2 s2]; simpl in *. congruence.
  - intros s' Hagree. destruct (Hm' s' Hagree) as [Hres Hst].
    destruct (m A s) as [[a|e|] s1], (m A s') as [[a'|e'|] s1'];
      simpl in *; try discriminate; [|by injection Hres as ->|done].
    injection Hres as <-. destruct (Hk a s1) as [_ Hk'].
    destruct (Hk' s1' Hst) as [Hres2 Hst2]. simpl in *.
    by destruct (k A a s1) as [r2 s2], (k A a s1') as [r2' s2'].
Qed.

Lemma isolated_ret {S D R : Type} (data : S → gmap string D) (r : string → R)
    (A B : string) :
  isolated data (λ w, method_ret (r w)) A B.
Proof. intros s. split; [done|]. by intros s' Hagree. Qed.

(** An operation whose outcome and whose new data for its own workspace are
    functions of the data of that workspace alone. *)
Lemma isolated_local {S D R : Type} (data : S → gmap string D)
    (op : string → method S R) (A B : string)
    (f : option D → outcome R) (g : option D → option D) :
  A ≠ B →
  (∀ s, (op A s).1 = f (data s !! A)) →
  (∀ s, data (op A s).2 =
        match g (data s !! A) with
        | Some d => <[A := d]> (data s)
        | None => data s
        end) →
  isolated data op A B.
Proof.
  intros HAB Hout Hdata s. split.
  - rewrite Hdata. destruct (g _); [|done]. by rewrite lookup_insert_ne.
  - intros s' Hagree. rewrite !Hout, !Hdata.
    rewrite <- (Hagree A HAB). split; [done|].
    intros w Hw. destruct (g _); [|by apply Hagree].
    rewrite !lookup_insert. case_decide; [done | by apply Hagree].
Qed.

Section memory_isolation.
Import Memory.
Context `{Host} (A B : string) (HAB : A ≠ B).

Ltac frame_step :=
  intros s; split;
  [ unfold lookup_secret, after_delete, set_secrets; repeat case_match; simpl;
    rewrite ?lookup_insert_ne by done; done
  | intros s' Hagree; pose proof (Hagree A HAB) as HA;
    unfold lookup_secret, after_delete, set_secrets; simpl; rewrite <- HA;
    repeat case_match; simpl; (split; [done|]);
    intros w Hw; rewrite ?lookup_insert; repeat case_decide; auto ].

Lemma memory_store_isolated name value labels expires env :
  isolated _secrets (λ w, store w name value labels expires env) A B.
Proof.
  unfold isolated. setoid_rewrite memory_store_eq. frame_step.
Qed.

Lemma memory_retrieve_isolated name v env :
  isolated _secrets (λ w, retrieve w name v env) A B.
Proof.
  unfold isolated. setoid_rewrite memory_retrieve_eq. frame_step.
Qed.

Lemma memory_delete_isolated name :
  isolated _secrets (λ w, delete w name) A B.
Proof.
  unfold isolated. setoid_rewrite memory_delete_eq. frame_step.
Qed.

Lemma memory_getMetadata_isolated name env :
  isolated _secrets (λ w, getMetadata w name env) A B.
Proof.
  unfold isolated. setoid_rewrite memory_getMetadata_eq. frame_step.
Qed.

Lemma memory_listSecrets_isolated filterLabels cursor limit env :
  isolated _secrets (λ w, listSecrets w filterLabels cursor limit env) A B.
Proof.
  unfold isolated, listSecrets. frame_step.
Qed.

Lemma memory_rotate_isolated name newValue env1 env2 :
  isolated _secrets (λ w, Backend.rotate w name newValue env1 env2) A B.
Proof.
  unfold Backend.rotate, mbind, method_mbind, mret, method_mret. simpl.
  apply (isolated_bind _ (λ w, getMetadata w name env1)
           (λ w _, method_bind (store w name newValue None None env2)
                     (λ result, method_ret (store_version result)))).
  - apply memory_getMetadata_isolated.
  - intros _.
    apply (isolated_bind _ (λ w, store w name newValue None None env2)
             (λ _ result, method_ret (store_version result))).
    + apply memory_store_isolated.
    + intros r. apply isolated_ret.
Qed.

End memory_isolation.

(** In the file backend, for a workspace [A] that is no key of
    [Object.prototype]: [workspaces[A]] is the workspace or [undefined]. *)
Section file_isolation.
Import File.
Context `{Node} `{Host} (A B : string) (HAB : A ≠ B).
Context (Hplain : A ∉ Errors.Object_prototype).

Ltac frame_step :=
  intros s; split;
  [ unfold workspaces_of, lookup_secret, after_delete; repeat case_match;
    rewrite ?file_workspaces_save; simpl;
    rewrite ?lookup_insert_ne by done; done
  | intros s' Hagree; pose proof (Hagree A HAB) as HA;
    unfold workspaces_of, lookup_secret, after_delete in *; simpl; rewrite <- HA;
    rewrite ?lookup_insert_eq; simpl; rewrite ?lookup_empty;
    repeat case_match; rewrite ?file_workspaces_save; simpl; (split; [done|]);
    intros w Hw; rewrite ?lookup_insert; repeat case_decide; auto ].

Lemma file_store_isolated name value labels expires env :
  isolated workspaces_of (λ w, store w name value labels expires env) A B.
Proof.
  unfold isolated, store. setoid_rewrite (property_of_plain _ A Hplain).
  unfold property_of. frame_step.
Qed.

Lemma file_retrieve_isolated name v env :
  isolated workspaces_of (λ w, retrieve w name v env) A B.
Proof.
  unfold isolated, retrieve. setoid_rewrite (property_of_plain _ A Hplain).
  unfold property_of. frame_step.
Qed.

Lemma file_delete_isolated name env :
  isolated workspaces_of (λ w, delete w name env) A B.
Proof.
  unfold isolated, delete. setoid_rewrite (property_of_plain _ A Hplain).
  unfold property_of. frame_step.
Qed.

Lemma file_getMetadata_isolated name env :
  isolated workspaces_of (λ w, getMetadata w name env) A B.
Proof.
  unfold isolated, getMetadata. setoid_rewrite (property_of_plain _ A Hplain).
  unfold property_of. frame_step.
Qed.

Lemma file_listSecrets_isolated filterLabels cursor limit env :
  isolated workspaces_of (λ w, listSecrets w filterLabels cursor limit env) A B.
Proof.
  unfold isolated, listSecrets. setoid_rewrite (property_of_plain _ A Hplain).
  frame_step.
Qed.

Lemma file_rotate_isolated name newValue env1 env2 :
  isolated workspaces_of (λ w, Backend.rotate w name newValue env1 env2) A B.
Proof.
  unfold Backend.rotate, mbind, method_mbind, mret, method_mret. simpl.
  apply (isolated_bind _ (λ w, getMetadata w name env1)
           (λ w _, method_bind (store w name newValue None None env2)
                     (λ result, method_ret (store_version result)))).
  - apply file_getMetadata_isolated.
  - intros _.
    apply (isolated_bind _ (λ w, store w name newValue None None env2)
             (λ _ result, method_ret (store_version result))).
    + apply file_store_isolated.
    + intros r. apply isolated_ret.
Qed.

End file_isolation.

(** For two distinct workspaces [A] and [B], every operation of the memory
    backend invoked on [A] ([store], [retrieve], [delete], [listSecrets],
    [getMetadata] and the default [rotate]) is isolated from [B]: it leaves
    the data kept under [B] unchanged, and its outcome (and what it leaves
    under every other workspace) is the same whatever is kept under [B], also
    when [B] keeps secrets of the same names. So is every operation of the
    file backend when neither [A] nor [B] is a key of [Object.prototype],
    [delete] for the names other than "__proto__". *)
Lemma workspace_isolation `{File.Node} `{Host} (A B : string) :
  A ≠ B →
  (∀ name value labels expires env,
     isolated Memory._secrets (λ w, Memory.store w name value labels expires env) A B) ∧
  (∀ name v env,
     isolated Memory._secrets (λ w, Memory.retrieve w name v env) A B) ∧
  (∀ name,
     isolated Memory._secrets (λ w, Memory.delete w name) A B) ∧
  (∀ filterLabels cursor limit env,
     isolated Memory._secrets
       (λ w, Memory.listSecrets w filterLabels cursor limit env) A B) ∧
  (∀ name env,
     isolated Memory._secrets (λ w, Memory.getMetadata w name env) A B) ∧
  (∀ name newValue env1 env2,
     isolated Memory._secrets
       (λ w, Backend.rotate w name newValue env1 env2) A B) ∧
  (A ∉ Errors.Object_prototype → B ∉ Errors.Object_prototype →
   (∀ name value labels expires env,
      isolated File.workspaces_of
        (λ w, File.store w name value labels expires env) A B) ∧
   (∀ name v env,
      isolated File.workspaces_of (λ w, File.retrieve w name v env) A B) ∧
   (∀ name env,
      name ≠ "__proto__" →
      isolated File.workspaces_of (λ w, File.delete w name env) A B) ∧
   (∀ filterLabels cursor limit env,
      isolated File.workspaces_of
        (λ w, File.listSecrets w filterLabels cursor limit env) A B) ∧
   (∀ name env,
      isolated File.workspaces_of (λ w, File.getMetadata w name env) A B) ∧
   (∀ name newValue env1 env2,
      isolated File.workspaces_of
        (λ w, Backend.rotate w name newValue env1 env2) A B)).
Proof.
  intros HAB. repeat apply conj; intros.
  - by apply memory_store_isolated.
  - by apply memory_retrieve_isolated.
  - by apply memory_delete_isolated.
  - by apply memory_listSecrets_isolated.
  - by apply memory_getMetadata_isolated.
  - by apply memory_rotate_isolated.
  - repeat apply conj; intros.
    + by apply file_store_isolated.
    + by apply file_retrieve_isolated.
    + by apply file_delete_isolated.
    + by apply file_listSecrets_isolated.
    + by apply file_getMetadata_isolated.
    + by apply file_rotate_isolated.
Qed.

(** ** Order of a page *)

Lemma StronglySorted_sublist {A} (R : relation A) (l1 l2 : list A) :
  l1 `sublist_of` l2 → StronglySorted R l2 → StronglySorted R l1.
Proof.
  induction 1 as [|x l1 l2 Hsub IH|x l1 l2 Hsub IH]; intros Hsorted.
  - constructor.
  - apply StronglySorted_inv in Hsorted as [Hl2 Hall]. constructor; [by apply IH|].
    eapply Forall_impl; [|done]. rewrite Forall_forall in Hall |- *.
    intros y Hy. by apply Hall, (sublist_subseteq _ _ Hsub).
  - apply StronglySorted_inv in Hsorted as [Hl2 _]. by apply IH.
Qed.

Section sorted_pages.
Context `{Host}.

Local Instance name_le_total : Total name_le.
Proof. intros a b. apply localeCompare_total. Qed.

Local Instance name_le_trans : Transitive name_le.
Proof. intros a b c. apply localeCompare_trans. Qed.

Lemma paginate_sorted (l : list Secret) cursor limit :
  StronglySorted name_le (secrets (paginate (merge_sort name_le l) cursor limit)).
Proof.
  unfold paginate; simpl.
  eapply StronglySorted_sublist; [apply slice_sublist|].
  apply (StronglySorted_merge_sort name_le).
Qed.

End sorted_pages.

(** C6. Every call of [listSecrets] of the two backends, for every
    workspace, label filter, cursor and limit, returns, and its page is cut
    out of a list that is sorted already: the secrets of the workspace that
    are live and pass the label filter are sorted by name, in ascending
    order of [localeCompare], and the page is the slice of that sorted list
    from the position of the cursor to that position plus the limit. So the
    page is sorted as well: each secret of it stands before all that follow
    it. *)
Theorem listSecrets_page_sorted `{File.Node} `{Host} :
  (∀ workspace filterLabels cursor limit env (this : Memory.MemoryBackend),
     ∃ r,
       Memory.listSecrets workspace filterLabels cursor limit env this = (Return r, this) ∧
       secrets r =
         slice (memory_listing workspace filterLabels (now env) this)
           (page_start cursor) (page_start cursor + default 100 limit) ∧
       memory_listing workspace filterLabels (now env) this ≡ₚ
         Memory.listed workspace filterLabels (now env)
           (default ∅ (Memory._secrets this !! workspace)) ∧
       StronglySorted name_le (memory_listing workspace filterLabels (now env) this) ∧
       StronglySorted name_le (secrets r)) ∧
  (∀ workspace filterLabels cursor limit env (this : File.FileBackend),
     ∃ r,
       File.listSecrets workspace filterLabels cursor limit env this = (Return r, this) ∧
       secrets r =
         slice (file_listing workspace filterLabels (now env) this)
           (page_start cursor) (page_start cursor + default 100 limit) ∧
       file_listing workspace filterLabels (now env) this ≡ₚ
         File.listed workspace filterLabels (now env)
           (default ∅ (File.workspaces (File._data this) !! workspace)) ∧
       StronglySorted name_le (file_listing workspace filterLabels (now env) this) ∧
       StronglySorted name_le (secrets r)).
Proof.
  pose proof name_le_total as Htotal.
  pose proof name_le_trans as Htrans.
  split; intros workspace filterLabels cursor limit env this.
  - assert (∃ r,
      Memory.listSecrets workspace filterLabels cursor limit env this = (Return r, this) ∧
      secrets r =
        slice (memory_listing workspace filterLabels (now env) this)
          (page_start cursor) (page_start cursor + default 100 limit))
      as (r & Hr & Hpage).
    { unfold Memory.listSecrets, memory_listing.
      destruct (Memory._secrets this !! workspace) as [ws|]; simpl.
      - by eexists.
      - eexists. split; [reflexivity|]. simpl. unfold Memory.listed.
        rewrite map_to_list_empty. symmetry. apply slice_nil. }
    exists r. split; [done|]. split; [done|]. split; [|split].
    + apply merge_sort_Permutation.
    + apply (StronglySorted_merge_sort name_le).
    + rewrite Hpage. eapply StronglySorted_sublist; [apply slice_sublist|].
      apply (StronglySorted_merge_sort name_le).
  - assert (∃ r,
      File.listSecrets workspace filterLabels cursor limit env this = (Return r, this) ∧
      secrets r =
        slice (file_listing workspace filterLabels (now env) this)
          (page_start cursor) (page_start cursor + default 100 limit))
      as (r & Hr & Hpage).
    { unfold File.listSecrets, file_listing, property_of.
      destruct (File.workspaces (File._data this) !! workspace) as [ws|]; simpl.
      - by eexists.
      - case_bool_decide; eexists; (split; [reflexivity|]); [done|].
        simpl. unfold File.listed.
        rewrite map_to_list_empty. symmetry. apply slice_nil. }
    exists r. split; [done|]. split; [done|]. split; [|split].
    + apply merge_sort_Permutation.
    + apply (StronglySorted_merge_sort name_le).
    + rewrite Hpage. eapply StronglySorted_sublist; [apply slice_sublist|].
      apply (StronglySorted_merge_sort name_le).
Qed.

(** ** Opening a vault that cannot be decrypted *)

Lemma file_load_missing `{File.Node} path key fs :
  File.files fs !! path = None → File._load path key fs = Return File.empty_data.
Proof. intros Hnone. unfold File._load. by rewrite Hnone. Qed.

Lemma file_load_zero_length `{File.Node} path key fs :
  File.files fs !! path = Some [] → File._load path key fs = Return File.empty_data.
Proof. intros Hzero. unfold File._load. by rewrite Hzero. Qed.

Lemma file_load_unparsable `{File.Node} path key fs encrypted text :
  File.files fs !! path = Some encrypted → encrypted ≠ [] →
  File._decrypt key encrypted = Some text → File.JSON_parse text = None →
  File._load path key fs = Throw EncryptionError.
Proof.
  intros Hfile Hne Hdec Hparse. unfold File._load. rewrite Hfile.
  rewrite bool_decide_eq_false_2 by (by destruct encrypted).
  by rewrite Hdec, Hparse.
Qed.

(** C5, amended. Over an existing vault file that is not empty
    and whose contents the decipher rejects (a wrong password, a corrupted
    ciphertext), the construction of the file backend throws an
    [EncryptionError]: no backend object results, so neither partial nor
    default data. (An existing file of length zero is opened as the empty
    vault without being decrypted.) *)
Theorem undecryptable_vault_fails_construction `{File.Node}
    (path password : string) (backendId : option string)
    (fs : File.FileSystem) (encrypted : list Byte.byte) :
  File.files fs !! path = Some encrypted →
  encrypted ≠ [] →
  File._decrypt (File.scryptSync password "avp_file_backend_v1" 32) encrypted = None →
  File.new path password backendId fs = Throw EncryptionError.
Proof.
  intros Hfile Hne Hdec. unfold File.new, File._load. rewrite Hfile.
  rewrite bool_decide_eq_false_2 by (by destruct encrypted).
  by rewrite Hdec.
Qed.

(** ** Session time to live *)

(** C8, amended. For a workspace id that passes
    [validateWorkspaceId] and an authentication method other than
    TERMINATE, [authenticate] returns and stores a session whose
    [ttlSeconds] is the minimum of the requested time to live (3600 when
    none is requested) and the backend's [maxSessionTtlSeconds]. With the
    memory backend or the file backend, a session returned for a requested
    time to live of 999999 has [ttlSeconds] at most 86400. *)
Theorem authenticate_clamps_ttl `{File.Node} `{Host} :
  (∀ (B : Type) (HB : Backend.BackendBase B)
     (options : Client.AuthenticateOptions) (env : Env) (this : Client.AVPClient B),
     validateWorkspaceId (default "default" (Client.opt_workspace options)) = true →
     default NONE (Client.opt_authMethod options) ≠ TERMINATE →
     mints_session options env this) ∧
  (∀ options env (this : Client.AVPClient Memory.MemoryBackend) session this',
     Client.opt_requestedTtl options = Some 999999 →
     Client.authenticate options env this = (Return session, this') →
     Client.ttlSeconds session ≤ 86400) ∧
  (∀ options env (this : Client.AVPClient File.FileBackend) session this',
     Client.opt_requestedTtl options = Some 999999 →
     Client.authenticate options env this = (Return session, this') →
     Client.ttlSeconds session ≤ 86400).
Proof.
  repeat apply conj.
  - intros B HB options env this Hvalid Hmethod.
    unfold mints_session, Client.authenticate. rewrite Hvalid. simpl.
    destruct (default NONE (Client.opt_authMethod options)); try done;
      (eexists _, _; split; [reflexivity|]; split; [reflexivity|]; simpl;
       apply lookup_insert_eq).
  - intros options env this session this' Httl.
    unfold Client.authenticate. rewrite Httl.
    destruct (validateWorkspaceId _); simpl; [|done].
    destruct (default NONE (Client.opt_authMethod options));
      try (intros [= <- <-]; simpl; unfold Memory.limits; simpl; lia).
    destruct (Client.opt_authData options ≫= _) as [sid|]; [|done].
    case_bool_decide; [done|]. intros [= <- <-]. simpl. lia.
  - intros options env this session this' Httl.
    unfold Client.authenticate. rewrite Httl.
    destruct (validateWorkspaceId _); simpl; [|done].
    destruct (default NONE (Client.opt_authMethod options));
      try (intros [= <- <-]; simpl; unfold File.limits; simpl; lia).
    destruct (Client.opt_authData options ≫= _) as [sid|]; [|done].
    case_bool_decide; [done|]. intros [= <- <-]. simpl. lia.
Qed.

(** * The theorems on the example vaults *)

(** ** Instances *)

Lemma store_increments_version_witness :
  (∃ this' e',
     Memory.store "default" "api_key" (list_byte_of_string "secret456")
       None None (example_env 2000) example_memory =
       (Return {| created := false; store_version := 2 |}, this') ∧
     Memory.lookup_secret this' "default" "api_key" = Some e' ∧
     version (Memory.stored_metadata e') = 2 ∧
     createdAt (Memory.stored_metadata e') = ValidDate 1000) ∧
  (∃ this' e',
     @File.store example_node "default" "api_key" (list_byte_of_string "secret456")
       None None (example_env 2000) example_file =
       (Return {| created := false; store_version := 2 |}, this') ∧
     File.lookup_secret this' "default" "api_key" = Some e' ∧
     File.version (File.metadata e') = 2 ∧
     File.createdAt (File.metadata e') = "1000") ∧
  (∃ r this',
     @File.store example_node "default" "db_password" (list_byte_of_string "secret456")
       None None (example_env 2000) example_file = (Return r, this') ∧
     r = {| created := true; store_version := 1 |}) ∧
  (∃ e this',
     @File.store example_node "default" "constructor" (list_byte_of_string "secret456")
       None None (example_env 2000) example_file = (Throw e, this') ∧
     e = TypeError ∧
     File.lookup_secret this' "default" "constructor" = None ∧
     File.disk this' = File.disk example_file).
Proof.
  destruct (@store_increments_version example_node) as (Hmem & _ & Hfile & Hfresh).
  split; [|split; [|split]].
  - apply (Hmem "default" "api_key" _ None None _ example_memory example_secret).
    vm_compute. reflexivity.
  - apply (Hfile "default" "api_key" _ None None _ example_file example_stored).
    + vm_compute. reflexivity.
    + discriminate.
  - destruct (Hfresh "default" "db_password" (list_byte_of_string "secret456")
                None None (example_env 2000) example_file)
      as (Hreturned & Hreturns & _); [vm_compute; reflexivity|].
    destruct Hreturns as (r & this' & Hstore).
    + split; vm_compute; discriminate.
    + discriminate.
    + exists r, this'. split; [exact Hstore|].
      exact (proj1 (Hreturned r this' Hstore)).
  - destruct (Hfresh "default" "constructor" (list_byte_of_string "secret456")
                None None (example_env 2000) example_file)
      as (_ & _ & Hthrows); [vm_compute; reflexivity|].
    destruct Hthrows as (e & this' & Hstore & He & Hnone & Hdisk).
    + vm_compute. discriminate.
    + left. compute_done.
    + exists e, this'. split; [exact Hstore|]. split; [|by split].
      apply He. compute_done.
Defined.

Lemma expired_secret_never_returned_witness :
  (∃ this',
     Memory.retrieve "default" "api_key" None (example_env 6000) example_memory =
       (Throw SecretNotFoundError, this') ∧
     Memory.lookup_secret this' "default" "api_key" = None) ∧
  (∃ this',
     @File.retrieve example_node "default" "api_key" None (example_env 6000) example_file =
       (Throw SecretNotFoundError, this') ∧
     File.lookup_secret this' "default" "api_key" = None).
Proof.
  destruct (@expired_secret_never_returned example_node example_host) as (Hmem & Hfile).
  split.
  - refine (proj1 (Hmem "default" "api_key" (example_env 6000) example_memory
                     example_secret 5000 _ _ _) None).
    + vm_compute. reflexivity.
    + reflexivity.
    + vm_compute. reflexivity.
  - refine (proj1 (Hfile "default" "api_key" (example_env 6000) example_file
                     example_stored "5000" 5000 _ _ _ _ _) None).
    + vm_compute. reflexivity.
    + reflexivity.
    + discriminate.
    + vm_compute. reflexivity.
    + vm_compute. reflexivity.
Defined.

Lemma workspace_isolation_witness :
  Memory._secrets
    (Memory.store "default" "api_key" (list_byte_of_string "secret456")
       None None (example_env 2000) example_memory).2 !! "other" =
    Memory._secrets example_memory !! "other" ∧
  File.workspaces_of
    (@File.delete example_node "default" "api_key" (example_env 2000) example_file).2
    !! "other" =
    File.workspaces_of example_file !! "other".
Proof.
  destruct (@workspace_isolation example_node example_host "default" "other")
    as (Hstore & _ & _ & _ & _ & _ & Hfile).
  - discriminate.
  - destruct Hfile as (_ & _ & Hdelete & _).
    + compute_done.
    + compute_done.
    + split.
      * apply (Hstore "api_key" _ None None (example_env 2000) example_memory).
      * by apply (Hdelete "api_key" (example_env 2000)).
Defined.


(** The vault file of length zero: its contents are rejected by the
    decipher, and the backend is constructed over the empty vault. *)
Lemma zero_length_vault_opens_empty :
  File.files truncated_disk !! "vault.enc" = Some [] ∧
  @File._decrypt example_node
    (@File.scryptSync example_node "correct horse" "avp_file_backend_v1" 32) [] = None ∧
  (∃ this,
     @File.new example_node "vault.enc" "correct horse" None truncated_disk = Return this ∧
     File._data this = File.empty_data) ∧
  ¬ @undecryptable_vault_is_fatal example_node "vault.enc" "correct horse" None
      truncated_disk.
Proof.
  split; [by vm_compute|]. split; [by vm_compute|]. split.
  - eexists. split; [vm_compute; reflexivity | reflexivity].
  - intros Hfatal. specialize (Hfatal [] eq_refl eq_refl).
    vm_compute in Hfatal. discriminate Hfatal.
Qed.

(** The vault written under one password and opened with another. *)
Lemma undecryptable_vault_fails_construction_witness :
  @File.new example_node "vault.enc" "wrong" None example_disk = Throw EncryptionError.
Proof.
  apply (@undecryptable_vault_fails_construction example_node
           "vault.enc" "wrong" None example_disk example_vault).
  - vm_compute. reflexivity.
  - discriminate.
  - vm_compute. reflexivity.
Defined.

(** Three secrets, listed two to a page: the first page holds the first two
    names of the sorted list and the second page the third. *)
Lemma listSecrets_page_sorted_witness :
  name <$> @memory_listing example_host "default" None 2000 crowded_memory =
    ["api_key"; "mid"; "zeta"] ∧
  (∃ r,
     @Memory.listSecrets example_host "default" None None (Some 2)
       (example_env 2000) crowded_memory = (Return r, crowded_memory) ∧
     name <$> secrets r = ["api_key"; "mid"] ∧
     StronglySorted (@name_le example_host) (secrets r)) ∧
  (∃ r,
     @Memory.listSecrets example_host "default" None (Some "2") (Some 2)
       (example_env 2000) crowded_memory = (Return r, crowded_memory) ∧
     name <$> secrets r = ["zeta"] ∧
     StronglySorted (@name_le example_host) (secrets r)).
Proof.
  split; [vm_compute; reflexivity|]. split.
  - destruct (proj1 (@listSecrets_page_sorted example_node example_host)
                "default" None None (Some 2) (example_env 2000) crowded_memory)
      as (r & Hr & Hpage & _ & _ & Hsorted).
    exists r. split; [exact Hr|]. split; [|exact Hsorted].
    rewrite Hpage. vm_compute. reflexivity.
  - destruct (proj1 (@listSecrets_page_sorted example_node example_host)
                "default" None (Some "2") (Some 2) (example_env 2000) crowded_memory)
      as (r & Hr & Hpage & _ & _ & Hsorted).
    exists r. split; [exact Hr|]. split; [|exact Hsorted].
    rewrite Hpage. vm_compute. reflexivity.
Defined.

Lemma rotate_nonexistent_fails_witness :
  @Backend.rotate _ (@Memory.is_backend example_host) "default" "nonexistent"
    (list_byte_of_string "value") (example_env 2000) (example_env 2001) example_memory =
    (Throw SecretNotFoundError, example_memory) ∧
  @Backend.rotate _ (@File.is_backend example_node example_host) "default" "nonexistent"
    (list_byte_of_string "value") (example_env 2000) (example_env 2001) example_file =
    (Throw SecretNotFoundError, example_file).
Proof.
  destruct (@rotate_nonexistent_fails example_node example_host)
    as (Hmem & Hfile & _).
  split.
  - apply Hmem. vm_compute. reflexivity.
  - apply Hfile; [vm_compute; reflexivity|].
    apply in_vault_plain; compute_done.
Defined.

(** C7. In the file backend the default [rotate] on a secret that does not
    exist does not always fail with [SecretNotFoundError]. "constructor" is
    a name that [validateSecretName] accepts and that the workspace
    "default" of the example vault does not keep; [ws[name]] is then the
    function [Object], the guard of [getMetadata] lets it pass, and the
    rotation throws the [TypeError] of [stored.metadata.expiresAt]. The
    backend is left as it was; in the memory backend the same rotation
    throws [SecretNotFoundError]. *)
Theorem rotate_of_inherited_name_throws_TypeError :
  validateSecretName "constructor" = true ∧
  File.lookup_secret example_file "default" "constructor" = None ∧
  @Backend.rotate _ (@File.is_backend example_node example_host) "default" "constructor"
    (list_byte_of_string "value") (example_env 2000) (example_env 2001) example_file =
    (Throw TypeError, example_file) ∧
  @Backend.rotate _ (@Memory.is_backend example_host) "default" "constructor"
    (list_byte_of_string "value") (example_env 2000) (example_env 2001) example_memory =
    (Throw SecretNotFoundError, example_memory).
Proof. repeat split; vm_compute; reflexivity. Qed.

(** A workspace id with a space: no session is returned or stored. *)
Lemma authenticate_rejects_malformed_workspace :
  @Client.authenticate _ (@Memory.is_backend example_host) example_host
    malformed_options (example_env 2000) (Client.new example_memory) =
    (Throw InvalidWorkspaceError, Client.new example_memory) ∧
  Client.opt_authMethod malformed_options ≠ Some TERMINATE ∧
  ¬ @mints_session _ (@Memory.is_backend example_host) example_host
      malformed_options (example_env 2000) (Client.new example_memory).
Proof.
  split; [by vm_compute|]. split; [discriminate|].
  intros (session & this' & Hauth & _). vm_compute in Hauth. discriminate Hauth.
Qed.

Lemma authenticate_clamps_ttl_witness :
  @mints_session _ (@Memory.is_backend example_host) example_host
    example_options (example_env 2000) (Client.new example_memory).
Proof.
  apply (proj1 (@authenticate_clamps_ttl example_node example_host)).
  - vm_compute. reflexivity.
  - discriminate.
Defined.

Lemma rotate_resets_labels_and_expiry_witness :
  (∃ this' e',
     @Backend.rotate _ (@Memory.is_backend example_host) "default" "api_key"
       (list_byte_of_string "secret456") (example_env 2000) (example_env 2001)
       example_memory = (Return 2, this') ∧
     Memory.lookup_secret this' "default" "api_key" = Some e' ∧
     Memory.stored_value e' = list_byte_of_string "secret456" ∧
     labels (Memory.stored_metadata e') = ∅ ∧
     expiresAt (Memory.stored_metadata e') = None) ∧
  (∃ this' e',
     @Backend.rotate _ (@File.is_backend example_node example_host) "default" "api_key"
       (list_byte_of_string "secret456") (example_env 2000) (example_env 2001)
       example_file = (Return 2, this') ∧
     File.lookup_secret this' "default" "api_key" = Some e' ∧
     File.stored_value e' = "secret456" ∧
     File.labels (File.metadata e') = ∅ ∧
     File.expiresAt (File.metadata e') = None).
Proof.
  destruct (@rotate_resets_labels_and_expiry example_node example_host)
    as (Hmem & _ & Hfile & _).
  split.
  - apply (Hmem "default" "api_key" _ _ _ example_memory example_secret).
    + vm_compute. reflexivity.
    + vm_compute. reflexivity.
  - refine (Hfile "default" "api_key" (list_byte_of_string "secret456")
              (example_env 2000) (example_env 2001) example_file example_stored _ _).
    + vm_compute. reflexivity.
    + vm_compute. reflexivity.
Defined.

Lemma delete_ignores_expiration_witness :
  (∃ this',
     Memory.delete "default" "api_key" example_memory = (Return true, this') ∧
     Memory.lookup_secret this' "default" "api_key" = None) ∧
  (Memory.getMetadata "default" "api_key" (example_env 6000) example_memory).1 =
    Throw SecretNotFoundError ∧
  (∃ this',
     @File.delete example_node "default" "api_key" (example_env 6000) example_file =
       (Return true, this') ∧
     File.lookup_secret this' "default" "api_key" = None) ∧
  (@File.getMetadata example_node "default" "api_key" (example_env 6000) example_file).1 =
    Throw SecretNotFoundError.
Proof.
  destruct (@delete_ignores_expiration example_node) as (Hmem & Hfile).
  destruct (Hmem "default" "api_key" (example_env 6000) example_memory
              example_secret 5000) as (Hdel & _ & Hmeta).
  { vm_compute. reflexivity. }
  { reflexivity. }
  { vm_compute. reflexivity. }
  destruct (Hfile "default" "api_key" (example_env 6000) example_file
              example_stored "5000" 5000) as (Hdel' & _ & Hmeta').
  { vm_compute. reflexivity. }
  { reflexivity. }
  { discriminate. }
  { vm_compute. reflexivity. }
  { vm_compute. reflexivity. }
  repeat split; assumption.
Defined.

(** * Further properties of the code *)

(** ** The cursor is read back as the number it was written from *)

Lemma pretty_N_char_digit (d : N) :
  (d < 10)%N →
  is_digit (pretty_N_char d) = true ∧ digit_value (pretty_N_char d) = Z.of_N d.
Proof.
  intros Hd.
  assert (d = 0 ∨ d = 1 ∨ d = 2 ∨ d = 3 ∨ d = 4 ∨ d = 5 ∨ d = 6 ∨ d = 7 ∨
          d = 8 ∨ d = 9)%N as Hcases by lia.
  by repeat (destruct Hcases as [->|Hcases]; [done|]); subst.
Qed.

Lemma is_digit_plain (c : ascii) (rest : string) :
  is_digit c = true →
  parseInt (String c rest) = leading_digits None (String c rest).
Proof.
  destruct c as [[] [] [] [] [] [] [] []]; intros Hc;
    try (vm_compute in Hc; discriminate Hc); reflexivity.
Qed.

Lemma pretty_N_go_digits (x : N) (s : string) :
  (0 < x)%N →
  leading_digits None (pretty_N_go x s) = leading_digits (Some (Z.of_N x)) s ∧
  ∃ c rest, pretty_N_go x s = String c rest ∧ is_digit c = true.
Proof.
  revert s. induction (N.lt_wf_0 x) as [x _ IH]; intros s Hx.
  rewrite pretty_N_go_step by done.
  destruct (pretty_N_char_digit (x `mod` 10)%N) as [Hdig Hval].
  { by apply N.mod_lt. }
  destruct (N.eq_0_gt_0_cases (x `div` 10)) as [Hzero|Hpos].
  - rewrite Hzero, pretty_N_go_0. split; [|eauto].
    simpl. rewrite Hdig, Hval. f_equal. f_equal.
    apply N.div_small_iff in Hzero; [|done].
    rewrite N.mod_small by done. lia.
  - destruct (IH (x `div` 10)%N) with (s := String (pretty_N_char (x `mod` 10)) s)
      as [Hlead Hfirst]; [by apply N.div_lt | done |].
    split; [|done]. rewrite Hlead. simpl. rewrite Hdig, Hval. f_equal. f_equal.
    pose proof (N.div_mod x 10). lia.
Qed.

Lemma parseInt_pretty_N (x : N) : parseInt (pretty x) = Some (Z.of_N x).
Proof.
  unfold pretty, pretty_N. case_decide as Hx; [by subst|].
  destruct (pretty_N_go_digits x "") as [Hlead (c & rest & Hstr & Hc)]; [lia|].
  rewrite Hstr, is_digit_plain by done. by rewrite <- Hstr, Hlead.
Qed.

(** [parseInt(String(n), 10)] is [n], for every integer [n]. *)
Lemma parseInt_pretty (n : Z) : parseInt (pretty n) = Some n.
Proof.
  destruct n as [|p|p]; [done| |].
  - apply (parseInt_pretty_N (N.pos p)).
  - change (pretty (Z.neg p)) with ("-" +:+ pretty (N.pos p)).
    unfold parseInt. simpl.
    destruct (pretty_N_go_digits (N.pos p) "") as [Hlead _]; [lia|].
    unfold pretty, pretty_N. rewrite decide_False by done.
    change ("" +:+ pretty_N_go (N.pos p) "") with (pretty_N_go (N.pos p) "").
    by rewrite Hlead.
Qed.

Lemma pretty_nonempty (n : Z) : pretty n ≠ "".
Proof.
  intros Hempty. pose proof (parseInt_pretty n) as Hparse.
  by rewrite Hempty in Hparse.
Qed.

Lemma page_start_pretty (n : Z) : page_start (Some (pretty n)) = n.
Proof.
  unfold page_start. rewrite bool_decide_eq_false_2 by apply pretty_nonempty.
  by rewrite parseInt_pretty.
Qed.

(** ** Pages in the normal range of cursor and limit *)

Lemma slice_nonneg {A} (l : list A) (start limit : Z) :
  0 ≤ start → 0 ≤ limit →
  slice l start (start + limit) = take (Z.to_nat limit) (drop (Z.to_nat start) l).
Proof.
  intros Hstart Hlimit. unfold slice, relative_index.
  rewrite (bool_decide_eq_false_2 (start < 0)) by lia.
  rewrite (bool_decide_eq_false_2 (start + limit < 0)) by lia.
  destruct (decide (Z.of_nat (length l) ≤ start)) as [Hout|Hin].
  - rewrite (drop_ge l (Z.to_nat start)) by lia.
    rewrite drop_ge by lia. by rewrite !take_nil.
  - rewrite (Z.min_l start) by lia.
    destruct (decide (start + limit ≤ Z.of_nat (length l))) as [Hfit|Hcut].
    + rewrite Z.min_l by lia. f_equal. lia.
    + rewrite Z.min_r by lia. rewrite !take_ge; [done|..];
        rewrite length_drop; lia.
Qed.

Lemma paginate_nonneg (l : list Secret) (from : option string) (start limit : Z) :
  page_start from = start → 0 ≤ start → 0 ≤ limit →
  paginate l from (Some limit) =
  {| secrets := take (Z.to_nat limit) (drop (Z.to_nat start) l);
     cursor := if bool_decide (start + limit < Z.of_nat (length l))
               then Some (pretty (start + limit)) else None |}.
Proof.
  intros Hfrom Hstart Hlimit. unfold paginate. rewrite Hfrom. simpl.
  by rewrite slice_nonneg.
Qed.

Lemma read_all_paginate (fuel : nat) (l : list Secret) (limit start : Z)
    (from : option string) :
  0 < limit → 0 ≤ start → page_start from = start →
  Z.of_nat (length l) - start < Z.of_nat fuel →
  read_all fuel (λ from, paginate l from (Some limit)) from =
  drop (Z.to_nat start) l.
Proof.
  intros Hlimit. revert start from.
  induction fuel as [|fuel IH]; intros start from Hstart Hfrom Hfuel.
  - simpl. rewrite drop_ge; [done | lia].
  - cbn [read_all]. cbv beta.
    rewrite (paginate_nonneg l from start limit) by (done || lia).
    cbn [secrets cursor]. case_bool_decide as Hmore.
    + rewrite (IH (start + limit)); [|lia|apply page_start_pretty|lia].
      replace (Z.to_nat (start + limit)) with (Z.to_nat start + Z.to_nat limit)%nat
        by lia.
      rewrite <- drop_drop. apply take_drop.
    + rewrite app_nil_r. apply take_ge. rewrite length_drop. lia.
Qed.

(** ** What a listing holds *)

Lemma labels_match_subseteq (f labels : gmap string string) :
  labels_match (Some f) labels = true ↔ f ⊆ labels.
Proof.
  unfold labels_match. rewrite map_subseteq_spec.
  rewrite <- Is_true_true, forallb_True, Forall_forall. split.
  - intros Hall k v Hkv. apply elem_of_map_to_list in Hkv.
    apply Hall in Hkv. simpl in Hkv. by apply bool_decide_unpack in Hkv.
  - intros Hsub [k v] Hkv%elem_of_map_to_list. simpl.
    apply bool_decide_pack. by apply Hsub.
Qed.

Lemma labels_match_None (labels : gmap string string) :
  labels_match None labels = true.
Proof. done. Qed.

Lemma omap_names_sublist {A} (f : string * A → option Secret) (l : list (string * A)) :
  (∀ entry s, f entry = Some s → name s = entry.1) →
  name <$> omap f l `sublist_of` l.*1.
Proof.
  intros Hname. induction l as [|entry l IH]; simpl; [constructor|].
  destruct (f entry) as [s|] eqn:Hs; simpl.
  - rewrite (Hname _ _ Hs). by constructor.
  - by constructor.
Qed.

Lemma memory_listed_names_NoDup workspace filterLabels now
    (ws : gmap string Memory.StoredSecret) :
  NoDup (name <$> Memory.listed workspace filterLabels now ws).
Proof.
  eapply sublist_NoDup; [apply (NoDup_fst_map_to_list ws)|].
  apply omap_names_sublist. intros [n stored] s. simpl.
  repeat case_match; by intros [= <-].
Qed.

Lemma file_listed_names_NoDup `{File.Node} workspace filterLabels now
    (ws : gmap string File.StoredSecret) :
  NoDup (name <$> File.listed workspace filterLabels now ws).
Proof.
  eapply sublist_NoDup; [apply (NoDup_fst_map_to_list ws)|].
  apply omap_names_sublist. intros [n stored] s. simpl.
  repeat case_match; by intros [= <-].
Qed.

Lemma memory_listed_complete workspace filterLabels now
    (ws : gmap string Memory.StoredSecret) n stored :
  ws !! n = Some stored →
  Memory.expired now (Memory.stored_metadata stored) = false →
  labels_match filterLabels (labels (Memory.stored_metadata stored)) = true →
  {| name := n; workspace := workspace; metadata := Memory.stored_metadata stored |}
    ∈ Memory.listed workspace filterLabels now ws.
Proof.
  intros Hn Hlive Hmatch. unfold Memory.listed. apply list_elem_of_omap.
  exists (n, stored). split; [by apply elem_of_map_to_list|].
  simpl. by rewrite Hlive, Hmatch.
Qed.

Lemma file_listed_complete `{File.Node} workspace filterLabels now
    (ws : gmap string File.StoredSecret) n stored :
  ws !! n = Some stored →
  File.expired now (File.metadata stored) = false →
  labels_match filterLabels (File.labels (File.metadata stored)) = true →
  {| name := n; workspace := workspace;
     metadata := File.to_metadata (File.metadata stored) |}
    ∈ File.listed workspace filterLabels now ws.
Proof.
  intros Hn Hlive Hmatch. unfold File.listed. apply list_elem_of_omap.
  exists (n, stored). split; [by apply elem_of_map_to_list|].
  simpl. by rewrite Hlive, Hmatch.
Qed.

Lemma listed_empty_memory workspace filterLabels now :
  Memory.listed workspace filterLabels now ∅ = [].
Proof. unfold Memory.listed. by rewrite map_to_list_empty. Qed.

Lemma listed_empty_file `{File.Node} workspace filterLabels now :
  File.listed workspace filterLabels now ∅ = [].
Proof. unfold File.listed. by rewrite map_to_list_empty. Qed.

Lemma memory_listSecrets_eq `{Host} workspace filterLabels from limit env
    (this : Memory.MemoryBackend) :
  Memory.listSecrets workspace filterLabels from limit env this =
  (Return (match Memory._secrets this !! workspace with
           | Some _ =>
               paginate (memory_listing workspace filterLabels (now env) this) from limit
           | None => {| secrets := []; cursor := None |}
           end), this).
Proof.
  unfold Memory.listSecrets, memory_listing.
  by destruct (Memory._secrets this !! workspace).
Qed.

Lemma file_listSecrets_eq `{File.Node} `{Host} workspace filterLabels from limit env
    (this : File.FileBackend) :
  File.listSecrets workspace filterLabels from limit env this =
  (Return (match property_of (File.workspaces (File._data this)) workspace with
           | Undefined => {| secrets := []; cursor := None |}
           | _ =>
               paginate (file_listing workspace filterLabels (now env) this) from limit
           end), this).
Proof.
  unfold File.listSecrets, file_listing, property_of.
  destruct (File.workspaces (File._data this) !! workspace); [done|].
  by case_bool_decide.
Qed.

Lemma read_all_ext (fuel : nat) (p q : option string → ListResult)
    (from : option string) :
  (∀ from, p from = q from) → read_all fuel p from = read_all fuel q from.
Proof.
  intros Hpq. revert from. induction fuel as [|fuel IH]; intros from; [done|].
  simpl. rewrite Hpq. destruct (cursor (q from)); by rewrite ?IH.
Qed.

Lemma read_all_empty_answers (fuel : nat) (from : option string) :
  read_all fuel (λ _, {| secrets := []; cursor := None |}) from = [].
Proof. by destruct fuel. Qed.

(** X1. A caller that lists with a positive limit and follows the cursors
    reads, page after page, exactly the sorted list of the secrets of the
    workspace that are live and pass the filter: nothing is skipped and
    nothing comes twice. The store and the clock reading are the same for
    all the calls. *)
Theorem listing_pages_concatenate `{File.Node} `{Host} :
  (∀ workspace filterLabels (limit : Z) env (this : Memory.MemoryBackend) (fuel : nat),
     0 < limit →
     (length (memory_listing workspace filterLabels (now env) this) < fuel)%nat →
     read_all fuel
       (λ from, answer (Memory.listSecrets workspace filterLabels from
                          (Some limit) env this).1) None =
     memory_listing workspace filterLabels (now env) this) ∧
  (∀ workspace filterLabels (limit : Z) env (this : File.FileBackend) (fuel : nat),
     0 < limit →
     (length (file_listing workspace filterLabels (now env) this) < fuel)%nat →
     read_all fuel
       (λ from, answer (File.listSecrets workspace filterLabels from
                          (Some limit) env this).1) None =
     file_listing workspace filterLabels (now env) this).
Proof.
  split; intros workspace filterLabels limit env this fuel Hlimit Hfuel.
  - destruct (Memory._secrets this !! workspace) as [ws|] eqn:Hws.
    + rewrite (read_all_ext _ _
                 (λ from, paginate (memory_listing workspace filterLabels (now env) this)
                            from (Some limit))).
      * rewrite (read_all_paginate fuel _ limit 0 None); [done..|lia].
      * intros from. by rewrite memory_listSecrets_eq, Hws.
    + rewrite (read_all_ext _ _ (λ _, {| secrets := []; cursor := None |})).
      * rewrite read_all_empty_answers. unfold memory_listing.
        by rewrite Hws, listed_empty_memory.
      * intros from. by rewrite memory_listSecrets_eq, Hws.
  - destruct (property_of (File.workspaces (File._data this)) workspace)
      as [ws| |] eqn:Hws.
    + rewrite (read_all_ext _ _
                 (λ from, paginate (file_listing workspace filterLabels (now env) this)
                            from (Some limit))).
      * rewrite (read_all_paginate fuel _ limit 0 None); [done..|lia].
      * intros from. by rewrite file_listSecrets_eq, Hws.
    + rewrite (read_all_ext _ _
                 (λ from, paginate (file_listing workspace filterLabels (now env) this)
                            from (Some limit))).
      * rewrite (read_all_paginate fuel _ limit 0 None); [done..|lia].
      * intros from. by rewrite file_listSecrets_eq, Hws.
    + rewrite (read_all_ext _ _ (λ _, {| secrets := []; cursor := None |})).
      * rewrite read_all_empty_answers. unfold file_listing.
        by rewrite (property_of_Undefined _ _ Hws), listed_empty_file.
      * intros from. by rewrite file_listSecrets_eq, Hws.
Qed.

Lemma labels_match_default (filterLabels : option (gmap string string))
    (labels : gmap string string) :
  labels_match filterLabels labels = true ↔ default ∅ filterLabels ⊆ labels.
Proof.
  destruct filterLabels as [f|]; simpl.
  - apply labels_match_subseteq.
  - split; [intros _; apply map_empty_subseteq | done].
Qed.

(** X2. The list that [listSecrets] pages through holds exactly the secrets
    of the workspace that are not expired at the time of the call and whose
    labels include every pair of the filter (none, without a filter): each
    of them once, with its name, the workspace and its metadata, in
    ascending order of [localeCompare]. *)
Theorem listing_holds_live_matching_once `{File.Node} `{Host} :
  (∀ workspace filterLabels env (this : Memory.MemoryBackend),
     NoDup (name <$> memory_listing workspace filterLabels (now env) this) ∧
     StronglySorted name_le (memory_listing workspace filterLabels (now env) this) ∧
     ∀ s : Secret,
       s ∈ memory_listing workspace filterLabels (now env) this ↔
       ∃ stored,
         Memory.lookup_secret this workspace (name s) = Some stored ∧
         Memory.expired (now env) (Memory.stored_metadata stored) = false ∧
         default ∅ filterLabels ⊆ labels (Memory.stored_metadata stored) ∧
         s = {| name := name s; workspace := workspace;
                metadata := Memory.stored_metadata stored |}) ∧
  (∀ workspace filterLabels env (this : File.FileBackend),
     NoDup (name <$> file_listing workspace filterLabels (now env) this) ∧
     StronglySorted name_le (file_listing workspace filterLabels (now env) this) ∧
     ∀ s : Secret,
       s ∈ file_listing workspace filterLabels (now env) this ↔
       ∃ stored,
         File.lookup_secret this workspace (name s) = Some stored ∧
         File.expired (now env) (File.metadata stored) = false ∧
         default ∅ filterLabels ⊆ File.labels (File.metadata stored) ∧
         s = {| name := name s; workspace := workspace;
                metadata := File.to_metadata (File.metadata stored) |}).
Proof.
  pose proof name_le_total as Htotal. pose proof name_le_trans as Htrans.
  split; intros workspace filterLabels env this.
  - unfold memory_listing. split; [|split].
    + rewrite merge_sort_Permutation. apply memory_listed_names_NoDup.
    + apply (StronglySorted_merge_sort name_le).
    + intros s. rewrite merge_sort_Permutation. unfold Memory.lookup_secret.
      destruct (Memory._secrets this !! workspace) as [ws|]; simpl.
      * split.
        -- intros (stored & Hs & Hlive & Hmatch & Hws & Hmeta)%memory_listed_elem.
           exists stored. rewrite <- labels_match_default.
           repeat split; try done. destruct s; simpl in *. by subst.
        -- intros (stored & Hs & Hlive & Hmatch & ->).
           apply memory_listed_complete; [done..|].
           by apply labels_match_default.
      * rewrite listed_empty_memory. split; [by intros ?%elem_of_nil|].
        by intros (? & [=] & _).
  - unfold file_listing. split; [|split].
    + rewrite merge_sort_Permutation. apply file_listed_names_NoDup.
    + apply (StronglySorted_merge_sort name_le).
    + intros s. rewrite merge_sort_Permutation. unfold File.lookup_secret.
      destruct (File.workspaces (File._data this) !! workspace) as [ws|]; simpl.
      * split.
        -- intros (stored & Hs & Hlive & Hmatch & Hws & Hmeta)%file_listed_elem.
           exists stored. rewrite <- labels_match_default.
           repeat split; try done. destruct s; simpl in *. by subst.
        -- intros (stored & Hs & Hlive & Hmatch & ->).
           apply file_listed_complete; [done..|].
           by apply labels_match_default.
      * rewrite listed_empty_file. split; [by intros ?%elem_of_nil|].
        by intros (? & [=] & _).
Qed.

(** X3. For a cursor that reads as a position [start] that is not negative
    (no cursor reads as 0) and a limit that is not negative, the page of
    [listSecrets] is the [limit] secrets of the sorted list from position
    [start] on, or as many as are left; a cursor comes back exactly when
    secrets are left after the page, and it is the text of the position of
    the first of them. *)
Theorem page_and_cursor `{File.Node} `{Host} :
  (∀ workspace filterLabels from (start limit : Z) env (this : Memory.MemoryBackend),
     page_start from = start → 0 ≤ start → 0 ≤ limit →
     ∃ r,
       Memory.listSecrets workspace filterLabels from (Some limit) env this =
         (Return r, this) ∧
       secrets r =
         take (Z.to_nat limit)
           (drop (Z.to_nat start) (memory_listing workspace filterLabels (now env) this)) ∧
       cursor r =
         (if bool_decide
               (start + limit <
                Z.of_nat (length (memory_listing workspace filterLabels (now env) this)))
          then Some (pretty (start + limit)) else None)) ∧
  (∀ workspace filterLabels from (start limit : Z) env (this : File.FileBackend),
     page_start from = start → 0 ≤ start → 0 ≤ limit →
     ∃ r,
       File.listSecrets workspace filterLabels from (Some limit) env this =
         (Return r, this) ∧
       secrets r =
         take (Z.to_nat limit)
           (drop (Z.to_nat start) (file_listing workspace filterLabels (now env) this)) ∧
       cursor r =
         (if bool_decide
               (start + limit <
                Z.of_nat (length (file_listing workspace filterLabels (now env) this)))
          then Some (pretty (start + limit)) else None)).
Proof.
  split; intros workspace filterLabels from start limit env this Hfrom Hstart Hlimit.
  - rewrite memory_listSecrets_eq. eexists. split; [reflexivity|].
    rewrite (paginate_nonneg _ from start limit) by done.
    unfold memory_listing.
    destruct (Memory._secrets this !! workspace) as [ws|]; [done|]. simpl.
    rewrite listed_empty_memory.
    change (merge_sort name_le []) with (@nil Secret).
    rewrite drop_nil, take_nil. simpl.
    by rewrite bool_decide_eq_false_2 by lia.
  - rewrite file_listSecrets_eq. eexists. split; [reflexivity|].
    rewrite (paginate_nonneg _ from start limit) by done.
    destruct (property_of (File.workspaces (File._data this)) workspace)
      as [ws| |] eqn:Hws; [done..|].
    unfold file_listing. rewrite (property_of_Undefined _ _ Hws). simpl.
    rewrite listed_empty_file.
    change (merge_sort name_le []) with (@nil Secret).
    rewrite drop_nil, take_nil. simpl.
    by rewrite bool_decide_eq_false_2 by lia.
Qed.

Lemma paginate_limit_zero (l : list Secret) (from : option string) :
  l ≠ [] → page_start from = 0 →
  paginate l from (Some 0) = {| secrets := []; cursor := Some "0" |}.
Proof.
  intros Hl Hfrom. rewrite (paginate_nonneg l from 0 0) by done. simpl.
  rewrite bool_decide_eq_true_2; [done|]. destruct l; [done|]. simpl. lia.
Qed.

Lemma read_all_limit_zero (fuel : nat) (l : list Secret) (from : option string) :
  l ≠ [] → page_start from = 0 →
  read_all fuel (λ from, paginate l from (Some 0)) from = [].
Proof.
  intros Hl. revert from. induction fuel as [|fuel IH]; intros from Hfrom; [done|].
  cbn [read_all]. cbv beta. rewrite paginate_limit_zero by done.
  cbn [secrets cursor]. by rewrite IH.
Qed.

(** X4. With the limit 0 and a listing that is not empty, the first page is
    empty and carries the cursor "0", and so does every page asked for with
    that cursor: a caller that follows the cursors reads nothing, however
    many pages it asks for. *)
Theorem limit_zero_never_advances `{File.Node} `{Host} :
  (∀ workspace filterLabels env (this : Memory.MemoryBackend) (fuel : nat),
     memory_listing workspace filterLabels (now env) this ≠ [] →
     (Memory.listSecrets workspace filterLabels None (Some 0) env this).1 =
       Return {| secrets := []; cursor := Some "0" |} ∧
     read_all fuel
       (λ from, answer (Memory.listSecrets workspace filterLabels from
                          (Some 0) env this).1) None = []) ∧
  (∀ workspace filterLabels env (this : File.FileBackend) (fuel : nat),
     file_listing workspace filterLabels (now env) this ≠ [] →
     (File.listSecrets workspace filterLabels None (Some 0) env this).1 =
       Return {| secrets := []; cursor := Some "0" |} ∧
     read_all fuel
       (λ from, answer (File.listSecrets workspace filterLabels from
                          (Some 0) env this).1) None = []).
Proof.
  split; intros workspace filterLabels env this fuel Hne.
  - assert (∃ ws, Memory._secrets this !! workspace = Some ws) as [ws Hws].
    { unfold memory_listing in Hne.
      destruct (Memory._secrets this !! workspace); [eauto|].
      simpl in Hne. by rewrite listed_empty_memory in Hne. }
    split.
    + rewrite memory_listSecrets_eq, Hws. simpl. by rewrite paginate_limit_zero.
    + rewrite (read_all_ext _ _
                 (λ from, paginate (memory_listing workspace filterLabels (now env) this)
                            from (Some 0))).
      * by apply read_all_limit_zero.
      * intros from. by rewrite memory_listSecrets_eq, Hws.
  - assert (∃ ws, File.workspaces (File._data this) !! workspace = Some ws) as [ws Hws].
    { unfold file_listing in Hne.
      destruct (File.workspaces (File._data this) !! workspace); [eauto|].
      simpl in Hne. by rewrite listed_empty_file in Hne. }
    apply property_of_Some in Hws. split.
    + rewrite file_listSecrets_eq, Hws. simpl. by rewrite paginate_limit_zero.
    + rewrite (read_all_ext _ _
                 (λ from, paginate (file_listing workspace filterLabels (now env) this)
                            from (Some 0))).
      * by apply read_all_limit_zero.
      * intros from. by rewrite file_listSecrets_eq, Hws.
Qed.

(** ** Deleting, and storing again *)

(** X5. [delete] on a name that is in the store returns [true] and removes
    the entry. In the memory backend, [retrieve] and [getMetadata] then
    throw [SecretNotFoundError] and a second [delete] returns [false], and
    [delete] on a name that is not in the store returns [false] and leaves
    the backend as it was. In the file backend this is so for the names
    that are no keys of [Object.prototype], in a workspace that is in the
    vault or is no such key either (the call stays in the vault). For a
    name that is such a key and is not, or no longer, an own key of its
    workspace, [retrieve] and [getMetadata] throw a [TypeError], and
    [delete] (for a name other than "__proto__") returns [true] and saves
    the vault as it is. *)
Theorem delete_then_not_found `{File.Node} :
  (∀ workspace name (this : Memory.MemoryBackend) e,
     Memory.lookup_secret this workspace name = Some e →
     ∃ this',
       Memory.delete workspace name this = (Return true, this') ∧
       (∀ v env, Memory.retrieve workspace name v env this' =
                   (Throw SecretNotFoundError, this')) ∧
       (∀ env, Memory.getMetadata workspace name env this' =
                 (Throw SecretNotFoundError, this')) ∧
       Memory.delete workspace name this' = (Return false, this')) ∧
  (∀ workspace name (this : Memory.MemoryBackend),
     Memory.lookup_secret this workspace name = None →
     Memory.delete workspace name this = (Return false, this)) ∧
  (∀ workspace name env (this : File.FileBackend) e,
     File.lookup_secret this workspace name = Some e →
     ∃ this',
       File.delete workspace name env this = (Return true, this') ∧
       File.lookup_secret this' workspace name = None ∧
       (name ∉ Errors.Object_prototype →
        (∀ v env', File.retrieve workspace name v env' this' =
                     (Throw SecretNotFoundError, this')) ∧
        (∀ env', File.getMetadata workspace name env' this' =
                   (Throw SecretNotFoundError, this')) ∧
        (∀ env', File.delete workspace name env' this' = (Return false, this'))) ∧
       (name ∈ Errors.Object_prototype →
        (∀ v env', File.retrieve workspace name v env' this' =
                     (Throw TypeError, this')) ∧
        (∀ env', File.getMetadata workspace name env' this' =
                   (Throw TypeError, this')))) ∧
  (∀ workspace name env (this : File.FileBackend),
     File.lookup_secret this workspace name = None →
     (File.in_vault this workspace name →
      File.delete workspace name env this = (Return false, this)) ∧
     (∀ ws,
        File.workspaces_of this !! workspace = Some ws →
        name ∈ Errors.Object_prototype → name ≠ "__proto__" →
        File.delete workspace name env this = (Return true, File._save env this))).
Proof.
  repeat apply conj.
  - intros workspace name this e He. rewrite memory_delete_eq, He.
    eexists. split; [reflexivity|].
    pose proof (memory_lookup_after_delete this workspace name) as Hgone.
    repeat split; intros.
    + by rewrite memory_retrieve_eq, Hgone.
    + by rewrite memory_getMetadata_eq, Hgone.
    + by rewrite memory_delete_eq, Hgone.
  - intros workspace name this Habs. by rewrite memory_delete_eq, Habs.
  - intros workspace name env this e He. rewrite file_delete_eq, He by stays.
    eexists. split; [reflexivity|].
    pose proof (file_lookup_after_delete env this workspace name) as Hgone.
    pose proof (file_workspace_after_delete env this workspace name) as Hws.
    split; [done|]. split.
    + intros Hn. pose proof (in_vault_after_delete env this workspace name Hn).
      repeat split; intros.
      * by rewrite file_retrieve_eq, Hgone.
      * by rewrite file_getMetadata_eq, Hgone.
      * by rewrite file_delete_eq, Hgone.
    + intros Hn. split; intros.
      * eapply file_retrieve_inherited; [exact Hws| |done]. apply lookup_delete_eq.
      * eapply file_getMetadata_inherited; [exact Hws| |done]. apply lookup_delete_eq.
  - intros workspace name env this Habs. split.
    + intros Hin. by rewrite file_delete_eq, Habs.
    + intros ws Hws Hn Hproto.
      rewrite (file_delete_inherited _ _ _ _ ws), bool_decide_eq_false_2; try done.
      unfold File.lookup_secret in Habs. unfold File.workspaces_of in Hws.
      by rewrite Hws in Habs.
Qed.

Lemma memory_store_fresh workspace name value labels expires env
    (this : Memory.MemoryBackend) :
  Memory.lookup_secret this workspace name = None →
  ∃ this',
    Memory.store workspace name value labels expires env this =
      (Return {| created := true; store_version := 1 |}, this') ∧
    Memory.lookup_secret this' workspace name =
      Some {| Memory.stored_value := value;
              Memory.stored_metadata :=
                {| createdAt := ValidDate (now env);
                   updatedAt := ValidDate (now env);
                   backend := MEMORY;
                   version := 1;
                   labels := default ∅ labels;
                   expiresAt := expires |} |}.
Proof.
  intros Habs. rewrite memory_store_eq, Habs. eexists. split; [reflexivity|].
  rewrite memory_lookup_insert, decide_True by done. by rewrite lookup_insert_eq.
Qed.

Lemma file_store_fresh `{File.Node} workspace name value labels expires text env
    (this : File.FileBackend) :
  File.lookup_secret this workspace name = None →
  File.in_vault this workspace name →
  File.expiresAt_toISOString expires = Return text →
  ∃ this',
    File.store workspace name value labels expires env this =
      (Return {| created := true; store_version := 1 |}, this') ∧
    File.lookup_secret this' workspace name =
      Some {| File.stored_value := File.base64_encode value;
              File.metadata :=
                {| File.createdAt := File.Date_toISOString (now env);
                   File.updatedAt := File.Date_toISOString (now env);
                   File.backend := "file";
                   File.version := 1;
                   File.labels := default ∅ labels;
                   File.expiresAt := text |} |}.
Proof.
  intros Habs Hin Htext. rewrite file_store_eq, Htext, Habs by done.
  eexists. split; [reflexivity|].
  rewrite file_lookup_save, file_lookup_insert, decide_True by done.
  by rewrite lookup_insert_eq.
Qed.

(** X6. The version starts again at 1 once the entry has been removed: a
    [store] that follows a [delete] of the name, or that follows a
    [getMetadata] or a [retrieve] that found the entry expired and removed
    it, reports [created = true] and version 1, whatever version the entry
    had reached. In the file backend the name is one that is no key of
    [Object.prototype]: an entry under such a key comes from a vault file
    written by other means, and once it is removed the name is inherited
    again and the store throws a [TypeError]. *)
Theorem version_restarts_after_removal `{File.Node} :
  (∀ workspace name value labels expires env (this : Memory.MemoryBackend) e,
     Memory.lookup_secret this workspace name = Some e →
     (Memory.store workspace name value labels expires env
        (Memory.delete workspace name this).2).1 =
       Return {| created := true; store_version := 1 |}) ∧
  (∀ workspace name value labels expires v env1 env2 (this : Memory.MemoryBackend) e,
     Memory.lookup_secret this workspace name = Some e →
     Memory.expired (now env1) (Memory.stored_metadata e) = true →
     (Memory.store workspace name value labels expires env2
        (Memory.getMetadata workspace name env1 this).2).1 =
       Return {| created := true; store_version := 1 |} ∧
     (Memory.store workspace name value labels expires env2
        (Memory.retrieve workspace name v env1 this).2).1 =
       Return {| created := true; store_version := 1 |}) ∧
  (∀ workspace name value labels expires env1 env2 (this : File.FileBackend) e,
     File.lookup_secret this workspace name = Some e →
     expires ≠ Some InvalidDate →
     (name ∉ Errors.Object_prototype →
      (File.store workspace name value labels expires env2
         (File.delete workspace name env1 this).2).1 =
        Return {| created := true; store_version := 1 |}) ∧
     (name ∈ Errors.Object_prototype →
      (File.store workspace name value labels expires env2
         (File.delete workspace name env1 this).2).1 = Throw TypeError)) ∧
  (∀ workspace name value labels expires v env1 env2 (this : File.FileBackend) e,
     File.lookup_secret this workspace name = Some e →
     File.expired (now env1) (File.metadata e) = true →
     expires ≠ Some InvalidDate →
     (name ∉ Errors.Object_prototype →
      (File.store workspace name value labels expires env2
         (File.getMetadata workspace name env1 this).2).1 =
        Return {| created := true; store_version := 1 |} ∧
      (File.store workspace name value labels expires env2
         (File.retrieve workspace name v env1 this).2).1 =
        Return {| created := true; store_version := 1 |}) ∧
     (name ∈ Errors.Object_prototype →
      (File.store workspace name value labels expires env2
         (File.getMetadata workspace name env1 this).2).1 = Throw TypeError ∧
      (File.store workspace name value labels expires env2
         (File.retrieve workspace name v env1 this).2).1 = Throw TypeError)).
Proof.
  repeat apply conj.
  - intros workspace name value labels expires env this e He.
    rewrite memory_delete_eq, He. simpl.
    destruct (memory_store_fresh workspace name value labels expires env
                (Memory.after_delete this workspace name)) as (this' & -> & _);
      [apply memory_lookup_after_delete | done].
  - intros workspace name value labels expires v env1 env2 this e He Hexp.
    rewrite memory_getMetadata_eq, memory_retrieve_eq, He, Hexp. simpl.
    destruct (memory_store_fresh workspace name value labels expires env2
                (Memory.after_delete this workspace name)) as (this' & -> & _);
      [apply memory_lookup_after_delete | done].
  - intros workspace name value labels expires env1 env2 this e He Hvalid.
    destruct (expiresAt_toISOString_valid expires Hvalid) as [text Htext].
    rewrite file_delete_eq, He by stays. simpl. split; intros Hn.
    + destruct (file_store_fresh workspace name value labels expires text env2
                  (File.after_delete env1 this workspace name)) as (this' & -> & _);
        [apply file_lookup_after_delete | by apply in_vault_after_delete | done | done].
    + rewrite file_store_inherited; [done| |apply file_lookup_after_delete|done].
      by rewrite (property_of_Some _ _ _ (file_workspace_after_delete _ _ _ _)).
  - intros workspace name value labels expires v env1 env2 this e He Hexp Hvalid.
    destruct (expiresAt_toISOString_valid expires Hvalid) as [text Htext].
    rewrite file_getMetadata_eq, file_retrieve_eq, He, Hexp by stays. simpl.
    split; intros Hn.
    + destruct (file_store_fresh workspace name value labels expires text env2
                  (File.after_delete env1 this workspace name)) as (this' & -> & _);
        [apply file_lookup_after_delete | by apply in_vault_after_delete | done | done].
    + rewrite file_store_inherited; [done| |apply file_lookup_after_delete|done].
      by rewrite (property_of_Some _ _ _ (file_workspace_after_delete _ _ _ _)).
Qed.

(** ** Versions on retrieval *)

(** X7. Only the current version can be retrieved. After a [store] without
    expiration has replaced an entry of version [n], a [retrieve] that asks
    for no version or for version [n + 1] returns the new value, and a
    [retrieve] that asks for any other version, the replaced version [n]
    among them, throws [SecretNotFoundError] and changes nothing. *)
Theorem only_current_version_retrievable `{File.Node} :
  (∀ workspace name value labels env1 env2 (this : Memory.MemoryBackend) e,
     Memory.lookup_secret this workspace name = Some e →
     ∃ this',
       Memory.store workspace name value labels None env1 this =
         (Return {| created := false;
                    store_version := version (Memory.stored_metadata e) + 1 |}, this') ∧
       (∀ v, v = None ∨ v = Some (version (Memory.stored_metadata e) + 1) →
          Memory.retrieve workspace name v env2 this' =
            (Return {| value := value;
                       retrieve_version := version (Memory.stored_metadata e) + 1 |},
             this')) ∧
       (∀ n, n ≠ version (Memory.stored_metadata e) + 1 →
          Memory.retrieve workspace name (Some n) env2 this' =
            (Throw SecretNotFoundError, this'))) ∧
  (∀ workspace name value labels env1 env2 (this : File.FileBackend) e,
     File.lookup_secret this workspace name = Some e →
     ∃ this',
       File.store workspace name value labels None env1 this =
         (Return {| created := false;
                    store_version := File.version (File.metadata e) + 1 |}, this') ∧
       (∀ v, v = None ∨ v = Some (File.version (File.metadata e) + 1) →
          File.retrieve workspace name v env2 this' =
            (Return {| value := File.base64_decode (File.base64_encode value);
                       retrieve_version := File.version (File.metadata e) + 1 |},
             this')) ∧
       (∀ n, n ≠ File.version (File.metadata e) + 1 →
          File.retrieve workspace name (Some n) env2 this' =
            (Throw SecretNotFoundError, this'))).
Proof.
  split; intros workspace name value labels env1 env2 this e He.
  - rewrite memory_store_eq, He. eexists. split; [reflexivity|].
    split.
    + intros v Hv. rewrite memory_retrieve_eq, memory_lookup_insert.
      rewrite decide_True by done. rewrite lookup_insert_eq. simpl.
      destruct Hv as [->| ->]; simpl; [done|].
      by rewrite bool_decide_eq_false_2 by (by intros []).
    + intros n Hn. rewrite memory_retrieve_eq, memory_lookup_insert.
      rewrite decide_True by done. rewrite lookup_insert_eq. simpl.
      by rewrite bool_decide_eq_true_2.
  - rewrite file_store_eq by stays. simpl. rewrite He. eexists. split; [reflexivity|].
    split.
    + intros v Hv. rewrite file_retrieve_eq by stays.
      rewrite file_lookup_save, file_lookup_insert.
      rewrite decide_True by done. rewrite lookup_insert_eq. simpl.
      destruct Hv as [->| ->]; simpl; [done|].
      by rewrite bool_decide_eq_false_2 by (by intros []).
    + intros n Hn. rewrite file_retrieve_eq by stays.
      rewrite file_lookup_save, file_lookup_insert.
      rewrite decide_True by done. rewrite lookup_insert_eq. simpl.
      by rewrite bool_decide_eq_true_2.
Qed.

(** ** Reads that do not write *)

(** X8. [listSecrets] never changes the backend, also when it skips expired
    entries: they stay in the store. [retrieve] and [getMetadata] change
    nothing either unless they find the entry expired; in the file backend
    this includes the file system, so that a read of a live or absent
    secret writes no file. *)
Theorem reads_do_not_write `{File.Node} `{Host} :
  (∀ workspace filterLabels from limit env (this : Memory.MemoryBackend),
     (Memory.listSecrets workspace filterLabels from limit env this).2 = this) ∧
  (∀ workspace name v env (this : Memory.MemoryBackend),
     (∀ e, Memory.lookup_secret this workspace name = Some e →
           Memory.expired (now env) (Memory.stored_metadata e) = false) →
     (Memory.retrieve workspace name v env this).2 = this ∧
     (Memory.getMetadata workspace name env this).2 = this) ∧
  (∀ workspace filterLabels from limit env (this : File.FileBackend),
     (File.listSecrets workspace filterLabels from limit env this).2 = this) ∧
  (∀ workspace name v env (this : File.FileBackend),
     (∀ e, File.lookup_secret this workspace name = Some e →
           File.expired (now env) (File.metadata e) = false) →
     (File.retrieve workspace name v env this).2 = this ∧
     (File.getMetadata workspace name env this).2 = this).
Proof.
  repeat apply conj.
  - intros. by rewrite memory_listSecrets_eq.
  - intros workspace name v env this Hlive.
    rewrite memory_retrieve_eq, memory_getMetadata_eq.
    destruct (Memory.lookup_secret this workspace name) as [e|]; [|done].
    rewrite (Hlive e eq_refl). by destruct (version_mismatch _ _).
  - intros. by rewrite file_listSecrets_eq.
  - intros workspace name v env this Hlive.
    unfold File.retrieve, File.getMetadata, File.lookup_secret, property_of in *.
    destruct (File.workspaces (File._data this) !! workspace) as [ws|]; simpl in *;
      [|by case_bool_decide].
    destruct (ws !! name) as [e|]; [|by case_bool_decide].
    rewrite (Hlive e eq_refl). by destruct (version_mismatch _ _).
Qed.

(** ** Metadata of what was stored *)

(** X9. [getMetadata] after a [store] that returned returns the version
    the store reported, the labels handed to the store (the empty map when
    none were handed) and the expiration handed to it, as long as that
    expiration has not passed. The store of the memory backend always
    returns. The store of the file backend returns when the call stays in
    the vault (neither the workspace nor the name is taken from
    [Object.prototype]) and the expiration is not the Invalid Date; the
    expiration comes back through its ISO text, which is assumed not empty
    and to parse back to the date. *)
Theorem store_then_getMetadata `{File.Node} :
  (∀ workspace name value labels expires env1 env2 (this : Memory.MemoryBackend),
     (∀ date, expires = Some date → Date_gt (ValidDate (now env2)) date = false) →
     ∃ r this' m,
       Memory.store workspace name value labels expires env1 this = (Return r, this') ∧
       Memory.getMetadata workspace name env2 this' = (Return m, this') ∧
       version m = store_version r ∧
       Types.labels m = default ∅ labels ∧
       expiresAt m = expires ∧
       updatedAt m = ValidDate (now env1) ∧
       backend m = MEMORY) ∧
  (∀ workspace name value labels expires env1 env2 (this : File.FileBackend),
     (∀ t, expires = Some (ValidDate t) →
           File.Date_toISOString t ≠ "" ∧
           File.Date_parse (File.Date_toISOString t) = ValidDate t ∧
           now env2 ≤ t) →
     (File.in_vault this workspace name → expires ≠ Some InvalidDate →
      ∃ r this',
        File.store workspace name value labels expires env1 this = (Return r, this')) ∧
     ∀ r this',
       File.store workspace name value labels expires env1 this = (Return r, this') →
       ∃ m,
       File.getMetadata workspace name env2 this' = (Return m, this') ∧
       version m = store_version r ∧
       Types.labels m = default ∅ labels ∧
       expiresAt m = expires ∧
       updatedAt m = File.Date_parse (File.Date_toISOString (now env1)) ∧
       backend m = FILE).
Proof.
  split.
  - intros workspace name value labels expires env1 env2 this Hlive.
    rewrite memory_store_eq. eexists _, _, _. split; [reflexivity|].
    rewrite memory_getMetadata_eq, memory_lookup_insert.
    rewrite decide_True by done. rewrite lookup_insert_eq. simpl.
    unfold Memory.expired. cbn [expiresAt].
    destruct expires as [date|]; [rewrite (Hlive date eq_refl)|]; done.
  - intros workspace name value labels expires env1 env2 this Hiso. split.
    { intros Hin Hvalid.
      destruct (expiresAt_toISOString_valid expires Hvalid) as [text Htext].
      rewrite file_store_eq, Htext by done. eauto. }
    intros r this' Hstore.
    pose proof (file_store_in_vault _ _ _ _ _ _ _ _ _ Hstore) as Hin.
    rewrite file_store_eq in Hstore by done.
    destruct expires as [[t|]|]; simpl in Hstore; [| done |];
      injection Hstore as <- <-.
    + destruct (Hiso t eq_refl) as (Hne & Hparse & Hlater).
      eexists. rewrite file_getMetadata_eq by stays.
      rewrite file_lookup_save, file_lookup_insert.
      rewrite decide_True by done. rewrite lookup_insert_eq. simpl.
      unfold File.expired, File.to_metadata. simpl.
      rewrite bool_decide_eq_false_2 by done. rewrite Hparse. simpl.
      rewrite bool_decide_eq_false_2 by lia. done.
    + eexists. rewrite file_getMetadata_eq by stays.
      rewrite file_lookup_save, file_lookup_insert.
      rewrite decide_True by done. by rewrite lookup_insert_eq.
Qed.

(** ** What a save leaves on disk, and reopening *)

Lemma append_empty_r (a : string) : a +:+ "" = a.
Proof.
  induction a as [|c a IH]; [done|].
  change (String c (a +:+ "") = String c a). by rewrite IH.
Qed.

Lemma tmp_path_ne (path : string) : path +:+ ".tmp" ≠ path.
Proof.
  intros Heq. rewrite <- (append_empty_r path) in Heq at 2.
  by apply (inj (String.app path)) in Heq.
Qed.

Lemma file_save_disk `{File.Node} env (this : File.FileBackend) :
  File.files (File.disk (File._save env this)) !! File._path this =
    Some (File._encrypt (File._key this) (File.JSON_stringify (File._data this)) env) ∧
  File.files (File.disk (File._save env this)) !! (File._path this +:+ ".tmp") =
    Some [] ∧
  File.modes (File.disk (File._save env this)) !! File._path this = Some 384 ∧
  (∀ other, other ≠ File._path this → other ≠ File._path this +:+ ".tmp" →
     File.files (File.disk (File._save env this)) !! other =
       File.files (File.disk this) !! other).
Proof.
  pose proof (tmp_path_ne (File._path this)) as Hne.
  unfold File._save, File.writeFileSync, File.chmodSync. simpl.
  repeat split.
  - rewrite lookup_insert_ne by done. rewrite lookup_insert_eq.
    by rewrite lookup_insert_eq.
  - by rewrite lookup_insert_eq.
  - by rewrite lookup_insert_eq.
  - intros other Hpath Htmp. by rewrite !lookup_insert_ne.
Qed.

Lemma file_decrypt_encrypt `{File.Node} key env data :
  reads_back key env data →
  File._encrypt key (File.JSON_stringify data) env ≠ [] ∧
  File._decrypt key (File._encrypt key (File.JSON_stringify data) env) =
    Some (File.JSON_stringify data).
Proof.
  intros (Hiv & Htag & Hdec & _). unfold File._encrypt, File._decrypt.
  destruct (File.aes_256_gcm_encrypt key (randomBytes env 16)
              (File.JSON_stringify data)) as [encrypted authTag] eqn:Hseal.
  simpl in *. split.
  - destruct (randomBytes env 16); [done|done].
  - rewrite take_app_length' by done.
    rewrite drop_app_length' by done.
    rewrite take_app_length' by done.
    replace 32%nat with (length (randomBytes env 16 ++ authTag)).
    + by rewrite app_assoc, drop_app_length.
    + rewrite length_app. lia.
Qed.

Lemma file_save_then_reopen `{File.Node} env (this : File.FileBackend)
    (password : string) (backendId : option string) :
  File._key this = File.scryptSync password "avp_file_backend_v1" 32 →
  reads_back (File._key this) env (File._data this) →
  File.new (File._path this) password backendId (File.disk (File._save env this)) =
    Return {| File._path := File._path this;
              File._backendId := default "file-0" backendId;
              File._key := File._key this;
              File._data := File._data this;
              File.disk := File.disk (File._save env this) |}.
Proof.
  intros Hkey Hback.
  destruct (file_decrypt_encrypt _ _ _ Hback) as [Hne Hdec].
  destruct Hback as (_ & _ & _ & Hparse).
  destruct (file_save_disk env this) as (Hvault & _).
  unfold File.new, File._load. rewrite <- Hkey, Hvault.
  rewrite bool_decide_eq_false_2.
  - by rewrite Hdec, Hparse.
  - by destruct (File._encrypt _ _ _).
Qed.

Lemma vault_written_save `{File.Node} env (this : File.FileBackend) :
  vault_written env (File.disk this) (File._save env this).
Proof.
  destruct (file_save_disk env this) as (Hvault & Htmp & Hmode & Hother).
  by repeat split.
Qed.

Lemma file_store_returns `{File.Node} workspace name value labels expires env
    (this this' : File.FileBackend) r :
  File.store workspace name value labels expires env this = (Return r, this') →
  ∃ saved, this' = File._save env saved ∧ File.disk saved = File.disk this ∧
           File._key saved = File._key this ∧ File._path saved = File._path this.
Proof.
  intros Hstore. pose proof (file_store_in_vault _ _ _ _ _ _ _ _ _ Hstore) as Hin.
  rewrite file_store_eq in Hstore by done.
  destruct (File.expiresAt_toISOString expires); [|done..].
  injection Hstore as _ <-. by eexists.
Qed.

(** X10. Every call that saves rewrites the whole vault: after a [store]
    that returns, a [delete] that returns [true] and a [close], the vault
    file holds the encryption of all the data of the backend, its mode has
    been set to 0600, the temporary file beside it is left empty, and no
    other file has changed. *)
Theorem saving_rewrites_the_vault `{File.Node} :
  (∀ workspace name value labels expires env (this this' : File.FileBackend) r,
     File.store workspace name value labels expires env this = (Return r, this') →
     vault_written env (File.disk this) this') ∧
  (∀ workspace name env (this this' : File.FileBackend),
     File.delete workspace name env this = (Return true, this') →
     vault_written env (File.disk this) this') ∧
  (∀ env (this : File.FileBackend),
     vault_written env (File.disk this) (File.close env this).2).
Proof.
  repeat apply conj.
  - intros workspace name value labels expires env this this' r Hstore.
    destruct (file_store_returns _ _ _ _ _ _ _ _ _ Hstore)
      as (saved & -> & Hdisk & _).
    rewrite <- Hdisk. apply vault_written_save.
  - intros workspace name env this this'. unfold File.delete, property_of.
    destruct (File.workspaces (File._data this) !! workspace) as [ws|];
      [|by case_bool_decide].
    destruct (ws !! name).
    + intros [= <-]. apply (vault_written_save env (File.set_workspaces this _)).
    + repeat case_bool_decide; try done. intros [= <-]. apply vault_written_save.
  - intros env this. apply vault_written_save.
Qed.

(** X11. A vault that was closed opens again, under the same password, with
    the data it was closed with, so that every [retrieve] and [getMetadata]
    answers as before the close, when the cipher and JSON read back what
    the save handed them. *)
Theorem vault_survives_reopening `{File.Node} env (this : File.FileBackend)
    (password : string) (backendId : option string) :
  File._key this = File.scryptSync password "avp_file_backend_v1" 32 →
  reads_back (File._key this) env (File._data this) →
  ∃ reopened,
    File.new (File._path this) password backendId (File.disk (File.close env this).2) =
      Return reopened ∧
    File._data reopened = File._data this ∧
    (∀ workspace name v env',
       (File.retrieve workspace name v env' reopened).1 =
       (File.retrieve workspace name v env' this).1) ∧
    (∀ workspace name env',
       (File.getMetadata workspace name env' reopened).1 =
       (File.getMetadata workspace name env' this).1).
Proof.
  intros Hkey Hback. eexists. split.
  - apply file_save_then_reopen; done.
  - split; [done|]. split; intros.
    + unfold File.retrieve, property_of. simpl. by repeat case_match.
    + unfold File.getMetadata, property_of. simpl. by repeat case_match.
Qed.

(** X12. What a [store] or a [delete] changed is what a reopened vault
    holds. A [store] without expiration that stays in the vault (neither
    the workspace nor the name is taken from [Object.prototype]) returns,
    and the vault opened from the file system it left returns the stored
    value at the reported version. After a [delete] of a name that is in
    the store, the reopened vault does not find the secret: [retrieve]
    throws [SecretNotFoundError], and for a name that is a key of
    [Object.prototype] the [TypeError] of an inherited [ws[name]]. The
    cipher and JSON are assumed to read back what the save handed them. *)
Theorem mutations_are_persisted `{File.Node} :
  (∀ workspace name value labels env env' (this : File.FileBackend) password backendId,
     File.in_vault this workspace name →
     File._key this = File.scryptSync password "avp_file_backend_v1" 32 →
     reads_back (File._key this) env
       (File._data (File.store workspace name value labels None env this).2) →
     ∃ r this' reopened,
       File.store workspace name value labels None env this = (Return r, this') ∧
       File.new (File._path this) password backendId (File.disk this') =
         Return reopened ∧
       (File.retrieve workspace name None env' reopened).1 =
         Return {| value := File.base64_decode (File.base64_encode value);
                   retrieve_version := store_version r |}) ∧
  (∀ workspace name v env env' (this : File.FileBackend) e password backendId,
     File.lookup_secret this workspace name = Some e →
     File._key this = File.scryptSync password "avp_file_backend_v1" 32 →
     reads_back (File._key this) env
       (File._data (File.delete workspace name env this).2) →
     ∃ this' reopened,
       File.delete workspace name env this = (Return true, this') ∧
       File.new (File._path this) password backendId (File.disk this') =
         Return reopened ∧
       (File.retrieve workspace name v env' reopened).1 =
         Throw (if bool_decide (name ∈ Errors.Object_prototype)
                then TypeError else SecretNotFoundError)).
Proof.
  split.
  - intros workspace name value labels env env' this password backendId Hin Hkey.
    rewrite file_store_eq by done. simpl. intros Hback.
    eexists _, _, _. split; [reflexivity|]. split.
    + apply (file_save_then_reopen env (File.set_workspaces this _)); done.
    + unfold File.retrieve, property_of. simpl.
      rewrite lookup_insert_eq. simpl. by rewrite lookup_insert_eq.
  - intros workspace name v env env' this e password backendId He Hkey.
    rewrite file_delete_eq, He by stays. simpl. intros Hback.
    eexists _, _. split; [reflexivity|]. split.
    + apply (file_save_then_reopen env (File.set_workspaces this _)); done.
    + unfold File.retrieve, property_of. simpl.
      rewrite lookup_insert_eq. simpl. rewrite lookup_delete_eq.
      by case_bool_decide.
Qed.

(** ** The sessions of the client (src/client.ts) *)

Section client_sessions.
Context {B : Type} `{Backend.BackendBase B} `{Host}.
Implicit Types this : Client.AVPClient B.

Lemma client_validate_live sessionId session env this :
  Client._sessions this !! sessionId = Some session →
  Client.isSessionExpired session env = false →
  Client._validateSession sessionId env this = (Return session, this).
Proof. intros Hs He. unfold Client._validateSession. by rewrite Hs, He. Qed.

Lemma client_validate_unknown sessionId env this :
  Client._sessions this !! sessionId = None →
  Client._validateSession sessionId env this = (Throw SessionNotFoundError, this).
Proof. intros Hs. unfold Client._validateSession. by rewrite Hs. Qed.

End client_sessions.

(** X13. A session lives for its time to live, both ends included: the
    session that [authenticate] minted at the time [t] with [ttlSeconds]
    [ttl] is accepted by [_validateSession] at every time up to the
    deadline [t + ttl * 1000]. When the deadline is a time that a [Date]
    can hold (at most 8640000000000000 ms from the epoch), the session is
    refused at every later time with SessionExpiredError and removed from
    the table, after which its id is unknown: SessionNotFoundError. When
    the deadline is no such time, which a large negative [requestedTtl]
    brings about, [expiresAt] is the Invalid Date and the session is
    accepted at every time: it does not expire. *)
Theorem session_lives_for_its_ttl {B : Type} `{Backend.BackendBase B} `{Host}
    (options : Client.AuthenticateOptions) (env : Env)
    (this this' : Client.AVPClient B) (session : Client.Session) :
  default NONE (Client.opt_authMethod options) ≠ TERMINATE →
  Client.authenticate options env this = (Return session, this') →
  let deadline := now env + Client.ttlSeconds session * 1000 in
  (∀ env', now env' ≤ deadline →
     Client._validateSession (Client.sessionId session) env' this' =
       (Return session, this')) ∧
  (∀ env', deadline < now env' → Z.abs deadline ≤ 8640000000000000 →
     ∃ this'',
       Client._validateSession (Client.sessionId session) env' this' =
         (Throw SessionExpiredError, this'') ∧
       Client._sessions this'' !! Client.sessionId session = None ∧
       ∀ env'',
         Client._validateSession (Client.sessionId session) env'' this'' =
           (Throw SessionNotFoundError, this'')) ∧
  (8640000000000000 < Z.abs deadline →
   Client.expiresAt session = InvalidDate ∧
   ∀ env',
     Client._validateSession (Client.sessionId session) env' this' =
       (Return session, this')).
Proof.
  intros Hmethod. unfold Client.authenticate.
  destruct (validateWorkspaceId _); simpl; [|done].
  destruct (default NONE (Client.opt_authMethod options)) eqn:Hm;
    try done; intros [= <- <-]; simpl; (split; [|split]).
  all: try (intros env' Hle; apply client_validate_live;
            [ apply lookup_insert_eq
            | unfold Client.isSessionExpired, Date_of_time; simpl;
              case_bool_decide; simpl; [|done];
              apply bool_decide_eq_false_2; lia ]).
  all: try (intros env' Hlt Hrange; eexists; split;
    [ unfold Client._validateSession; simpl; rewrite lookup_insert_eq;
      unfold Client.isSessionExpired, Date_of_time; simpl;
      rewrite (bool_decide_eq_true_2 _ Hrange); simpl;
      rewrite bool_decide_eq_true_2 by lia; reflexivity
    | split;
      [ simpl; apply lookup_delete_eq
      | intros env''; apply client_validate_unknown; simpl;
        apply lookup_delete_eq ] ]).
  all: intros Hrange; unfold Date_of_time;
    rewrite bool_decide_eq_false_2 by lia; split; [done|];
    intros env'; apply client_validate_live;
    [ apply lookup_insert_eq | done ].
Qed.

(** X14. Termination. An [authenticate] with the method TERMINATE, a valid
    workspace id and a non-empty [session_id] in its data removes that
    session from the table and no other, whichever workspace the session
    was minted for and whether or not it was known; it answers a session
    with [ttlSeconds = 0], and the id is unknown afterwards. Without a
    [session_id], or with the empty one, it throws AuthenticationError and
    removes nothing. *)
Theorem terminate_removes_the_session {B : Type} `{Backend.BackendBase B} `{Host} :
  (∀ options env (this : Client.AVPClient B) sid,
     Client.opt_authMethod options = Some TERMINATE →
     validateWorkspaceId (default "default" (Client.opt_workspace options)) = true →
     Client.opt_authData options ≫= (.!! "session_id") = Some sid →
     sid ≠ "" →
     ∃ echo this',
       Client.authenticate options env this = (Return echo, this') ∧
       Client.sessionId echo = sid ∧
       Client.ttlSeconds echo = 0 ∧
       Client._sessions this' = base.delete sid (Client._sessions this) ∧
       Client._backend this' = Client._backend this ∧
       ∀ env',
         Client._validateSession sid env' this' =
           (Throw SessionNotFoundError, this')) ∧
  (∀ options env (this : Client.AVPClient B),
     Client.opt_authMethod options = Some TERMINATE →
     validateWorkspaceId (default "default" (Client.opt_workspace options)) = true →
     (Client.opt_authData options ≫= (.!! "session_id") = None ∨
      Client.opt_authData options ≫= (.!! "session_id") = Some "") →
     Client.authenticate options env this = (Throw AuthenticationError, this)).
Proof.
  split.
  - intros options env this sid Hm Hws Hsid Hne.
    unfold Client.authenticate. rewrite Hm, Hws, Hsid. simpl.
    rewrite bool_decide_eq_false_2 by done.
    eexists _, _. split; [reflexivity|]. simpl.
    repeat apply conj; try done.
    intros env'. apply client_validate_unknown. simpl. apply lookup_delete_eq.
  - intros options env this Hm Hws Hsid.
    unfold Client.authenticate. rewrite Hm, Hws. simpl.
    by destruct Hsid as [-> | ->].
Qed.

(** X15. [authenticate] examines no credential: two requests that differ
    only in their authentication method (neither being TERMINATE) and in
    their authentication data have the same outcome and leave the same
    table of sessions. *)
Theorem authenticate_examines_no_credential {B : Type} `{Backend.BackendBase B} `{Host}
    (workspace agentId : option string) (ttl : option Z)
    (m1 m2 : AuthMethod) (d1 d2 : option (gmap string string))
    (env : Env) (this : Client.AVPClient B) :
  m1 ≠ TERMINATE → m2 ≠ TERMINATE →
  Client.authenticate
    {| Client.opt_workspace := workspace; Client.opt_agentId := agentId;
       Client.opt_authMethod := Some m1; Client.opt_authData := d1;
       Client.opt_requestedTtl := ttl |} env this =
  Client.authenticate
    {| Client.opt_workspace := workspace; Client.opt_agentId := agentId;
       Client.opt_authMethod := Some m2; Client.opt_authData := d2;
       Client.opt_requestedTtl := ttl |} env this.
Proof.
  intros H1 H2. unfold Client.authenticate. simpl.
  destruct (validateWorkspaceId _); simpl; [|done].
  by destruct m1, m2.
Qed.

(** ** The operations of the client on secrets *)

Section client_operations.
Context {B : Type} `{Backend.BackendBase B} `{Host}.
Implicit Types this : Client.AVPClient B.

Lemma client_store_eq sessionId name value options env_s env_b this :
  Client.store sessionId name value options env_s env_b this =
  match Client._validateSession sessionId env_s this with
  | (Throw e, this') => (Throw e, this')
  | (Beyond, this') => (Beyond, this')
  | (Return session, this') =>
      if negb (validateSecretName name) then (Throw InvalidNameError, this')
      else if bool_decide
                (maxSecretValueLength (Backend.limits (Client._backend this')) <
                 Z.of_nat (length value))
      then (Throw ValueTooLargeError, this')
      else
        let r := Backend.store (Client.workspace session) name value
                   (Client.opt_labels options) (Client.opt_expiresAt options)
                   env_b (Client._backend this') in
        (match r.1 with
         | Return result =>
             Return {| Client.stored_name := name;
                       Client.stored_backend := Backend.backendId r.2;
                       Client.stored_created := created result;
                       Client.stored_version := store_version result |}
         | Throw e => Throw e
         | Beyond => Beyond
         end,
         {| Client._backend := r.2; Client._sessions := Client._sessions this' |})
  end.
Proof.
  unfold Client.store, mbind, method_mbind, method_bind, mret, method_mret,
    method_ret, method_throw, Client.on_backend, Client.of_backend.
  destruct (Client._validateSession sessionId env_s this) as [[session|e|] this'];
    [|done..].
  destruct (validateSecretName name); simpl; [|done].
  case_bool_decide; [done|].
  by destruct (Backend.store _ _ _ _ _ _ _) as [[r|e|] backend].
Qed.

Lemma client_retrieve_eq sessionId name version env_s env_b this :
  Client.retrieve sessionId name version env_s env_b this =
  match Client._validateSession sessionId env_s this with
  | (Throw e, this') => (Throw e, this')
  | (Beyond, this') => (Beyond, this')
  | (Return session, this') =>
      let r := Backend.retrieve (Client.workspace session) name version env_b
                 (Client._backend this') in
      (match r.1 with
       | Return result =>
           Return {| Client.retrieved_name := name;
                     Client.retrieved_value := value result;
                     Client.encoding := "utf8";
                     Client.retrieved_backend := Backend.backendId r.2;
                     Client.retrieved_version := retrieve_version result |}
       | Throw e => Throw e
       | Beyond => Beyond
       end,
       {| Client._backend := r.2; Client._sessions := Client._sessions this' |})
  end.
Proof.
  unfold Client.retrieve, mbind, method_mbind, method_bind, mret, method_mret,
    method_ret, Client.on_backend, Client.of_backend.
  destruct (Client._validateSession sessionId env_s this) as [[session|e|] this'];
    [|done..].
  by destruct (Backend.retrieve _ _ _ _ _) as [[r|e|] backend].
Qed.

Lemma client_delete_eq sessionId name env_s env_b this :
  Client.delete sessionId name env_s env_b this =
  match Client._validateSession sessionId env_s this with
  | (Throw e, this') => (Throw e, this')
  | (Beyond, this') => (Beyond, this')
  | (Return session, this') =>
      let r := Backend.delete (Client.workspace session) name env_b
                 (Client._backend this') in
      (match r.1 with
       | Return deleted =>
           Return {| Client.deleted_name := name; Client.deleted := deleted |}
       | Throw e => Throw e
       | Beyond => Beyond
       end,
       {| Client._backend := r.2; Client._sessions := Client._sessions this' |})
  end.
Proof.
  unfold Client.delete, mbind, method_mbind, method_bind, mret, method_mret,
    method_ret, Client.on_backend.
  destruct (Client._validateSession sessionId env_s this) as [[session|e|] this'];
    [|done..].
  by destruct (Backend.delete _ _ _ _) as [[r|e|] backend].
Qed.

Lemma client_listSecrets_eq sessionId options env_s env_b this :
  Client.listSecrets sessionId options env_s env_b this =
  match Client._validateSession sessionId env_s this with
  | (Throw e, this') => (Throw e, this')
  | (Beyond, this') => (Beyond, this')
  | (Return session, this') =>
      let r := Backend.listSecrets (Client.workspace session)
                 (Client.opt_filterLabels options) (Client.opt_cursor options)
                 (Some (default 100 (Client.opt_limit options))) env_b
                 (Client._backend this') in
      (match r.1 with
       | Return result =>
           Return {| Client.listed_secrets := secrets result;
                     Client.listed_cursor := cursor result;
                     Client.hasMore := bool_decide (cursor result ≠ None) |}
       | Throw e => Throw e
       | Beyond => Beyond
       end,
       {| Client._backend := r.2; Client._sessions := Client._sessions this' |})
  end.
Proof.
  unfold Client.listSecrets, mbind, method_mbind, method_bind, mret, method_mret,
    method_ret, Client.on_backend.
  destruct (Client._validateSession sessionId env_s this) as [[session|e|] this'];
    [|done..].
  by destruct (Backend.listSecrets _ _ _ _ _ _) as [[r|e|] backend].
Qed.

Lemma client_rotate_eq sessionId name newValue env_s env_g env_b env_t this :
  Client.rotate sessionId name newValue env_s env_g env_b env_t this =
  match Client._validateSession sessionId env_s this with
  | (Throw e, this') => (Throw e, this')
  | (Beyond, this') => (Beyond, this')
  | (Return session, this') =>
      let r := Backend.rotate (Client.workspace session) name newValue env_g env_b
                 (Client._backend this') in
      (match r.1 with
       | Return version =>
           Return {| Client.rotated_name := name;
                     Client.rotated_backend := Backend.backendId r.2;
                     Client.rotated_version := version;
                     Client.rotatedAt := ValidDate (now env_t) |}
       | Throw e => Throw e
       | Beyond => Beyond
       end,
       {| Client._backend := r.2; Client._sessions := Client._sessions this' |})
  end.
Proof.
  unfold Client.rotate, mbind at 1 2 3, method_mbind, method_bind at 1 2 3,
    mret, method_mret, method_ret, Client.on_backend, Client.of_backend.
  destruct (Client._validateSession sessionId env_s this) as [[session|e|] this'];
    [|done..].
  by destruct (Backend.rotate _ _ _ _ _ _) as [[r|e|] backend].
Qed.

End client_operations.

(** X16. The guards of the client's [store]. A store returns only for a
    session that is in the table and not expired, a name that passes
    [validateSecretName] and a value no longer than the backend's
    [maxSecretValueLength]. Otherwise it throws, in this order of
    precedence, the error of the session (SessionNotFoundError, or
    SessionExpiredError with the session removed), InvalidNameError,
    ValueTooLargeError, and the backend is as it was. *)
Theorem client_store_guards {B : Type} `{Backend.BackendBase B} `{Host}
    (sessionId name : string) (value : list Byte.byte)
    (options : Client.StoreOptions) (env_s env_b : Env)
    (this : Client.AVPClient B) :
  (∀ r this',
     Client.store sessionId name value options env_s env_b this = (Return r, this') →
     ∃ session,
       Client._sessions this !! sessionId = Some session ∧
       Client.isSessionExpired session env_s = false ∧
       validateSecretName name = true ∧
       Z.of_nat (length value) ≤
         maxSecretValueLength (Backend.limits (Client._backend this)) ∧
       Client.stored_name r = name ∧
       Client._sessions this' = Client._sessions this) ∧
  (Client._sessions this !! sessionId = None →
   Client.store sessionId name value options env_s env_b this =
     (Throw SessionNotFoundError, this)) ∧
  (∀ session,
     Client._sessions this !! sessionId = Some session →
     Client.isSessionExpired session env_s = true →
     Client.store sessionId name value options env_s env_b this =
       (Throw SessionExpiredError,
        Client.set_sessions this (base.delete sessionId (Client._sessions this)))) ∧
  (∀ session,
     Client._sessions this !! sessionId = Some session →
     Client.isSessionExpired session env_s = false →
     validateSecretName name = false →
     Client.store sessionId name value options env_s env_b this =
       (Throw InvalidNameError, this)) ∧
  (∀ session,
     Client._sessions this !! sessionId = Some session →
     Client.isSessionExpired session env_s = false →
     validateSecretName name = true →
     maxSecretValueLength (Backend.limits (Client._backend this)) <
       Z.of_nat (length value) →
     Client.store sessionId name value options env_s env_b this =
       (Throw ValueTooLargeError, this)).
Proof.
  rewrite client_store_eq. unfold Client._validateSession.
  repeat apply conj.
  - intros r this'.
    destruct (Client._sessions this !! sessionId) as [session|]; [|done].
    destruct (Client.isSessionExpired session env_s) eqn:He; [done|].
    destruct (validateSecretName name); simpl; [|done].
    case_bool_decide; [done|].
    destruct (Backend.store _ _ _ _ _ _ _) as [[result|e|] backend]; simpl; [|done..].
    intros [= <- <-]. exists session. simpl. repeat apply conj; try done. lia.
  - by intros ->.
  - by intros session -> ->.
  - by intros session -> -> ->.
  - intros session -> -> -> Hlong. simpl.
    by rewrite bool_decide_eq_true_2.
Qed.

(** ** The client stays in the workspace of the session *)

Section client_frame.
Context {B D : Type} `{Backend.BackendBase B} `{Host}.
Context (data : B → gmap string D) (other : string).
Context (this : Client.AVPClient B) (sessionId : string).
Context (served : string → Prop).
Context (Hserved : ∀ session,
           Client._sessions this !! sessionId = Some session →
           served (Client.workspace session)).

(** What the client does around a call of the backend. *)
Lemma client_frame_validated {A} (env_s : Env)
    (k : Client.Session → Client.AVPClient B → outcome A * Client.AVPClient B) :
  (∀ session,
     served (Client.workspace session) →
     data (Client._backend (k session this).2) !! other =
       data (Client._backend this) !! other) →
  data (Client._backend
          (match Client._validateSession sessionId env_s this with
           | (Throw e, this') => (Throw e, this')
           | (Beyond, this') => (Beyond, this')
           | (Return session, this') => k session this'
           end).2) !! other =
  data (Client._backend this) !! other.
Proof.
  intros Hk. unfold Client._validateSession.
  destruct (Client._sessions this !! sessionId) as [session|] eqn:Hs; [|done].
  destruct (Client.isSessionExpired session env_s); [done|].
  apply Hk. by apply Hserved.
Qed.

Lemma client_store_frame name value options env_s env_b :
  (∀ A s, served A →
     data (Backend.store A name value (Client.opt_labels options)
             (Client.opt_expiresAt options) env_b s).2 !! other = data s !! other) →
  data (Client._backend
          (Client.store sessionId name value options env_s env_b this).2) !! other =
  data (Client._backend this) !! other.
Proof.
  intros Hop. rewrite client_store_eq. apply client_frame_validated.
  intros session Hw. destruct (validateSecretName name); simpl; [|done].
  case_bool_decide; [done|]. simpl. by apply Hop.
Qed.

Lemma client_retrieve_frame name version env_s env_b :
  (∀ A s, served A →
     data (Backend.retrieve A name version env_b s).2 !! other = data s !! other) →
  data (Client._backend
          (Client.retrieve sessionId name version env_s env_b this).2) !! other =
  data (Client._backend this) !! other.
Proof.
  intros Hop. rewrite client_retrieve_eq. apply client_frame_validated.
  intros session Hw. simpl. by apply Hop.
Qed.

Lemma client_delete_frame name env_s env_b :
  (∀ A s, served A →
     data (Backend.delete A name env_b s).2 !! other = data s !! other) →
  data (Client._backend
          (Client.delete sessionId name env_s env_b this).2) !! other =
  data (Client._backend this) !! other.
Proof.
  intros Hop. rewrite client_delete_eq. apply client_frame_validated.
  intros session Hw. simpl. by apply Hop.
Qed.

Lemma client_listSecrets_frame options env_s env_b :
  (∀ A s, served A →
     data (Backend.listSecrets A (Client.opt_filterLabels options)
             (Client.opt_cursor options)
             (Some (default 100 (Client.opt_limit options))) env_b s).2 !! other =
     data s !! other) →
  data (Client._backend
          (Client.listSecrets sessionId options env_s env_b this).2) !! other =
  data (Client._backend this) !! other.
Proof.
  intros Hop. rewrite client_listSecrets_eq. apply client_frame_validated.
  intros session Hw. simpl. by apply Hop.
Qed.

Lemma client_rotate_frame name newValue env_s env_g env_b env_t :
  (∀ A s, served A →
     data (Backend.rotate A name newValue env_g env_b s).2 !! other =
     data s !! other) →
  data (Client._backend
          (Client.rotate sessionId name newValue env_s env_g env_b env_t this).2)
    !! other =
  data (Client._backend this) !! other.
Proof.
  intros Hop. rewrite client_rotate_eq. apply client_frame_validated.
  intros session Hw. simpl. by apply Hop.
Qed.

End client_frame.

(** X17. The client never touches a workspace other than the one of the
    session it is called with. Over the memory backend, [store],
    [retrieve], [delete], [listSecrets] and [rotate] of the client, called
    with any session id and any arguments, leave the secrets of every
    workspace that is not the workspace of that session as they were; when
    the id names no session, that is every workspace. Over the file backend
    this holds when neither the workspace of the session nor the other
    workspace is a key of [Object.prototype], for [delete] with a name
    other than "__proto__": the client hands the name to the backend as it
    is, and a workspace id such as "constructor" stands for an object of
    the language that a call on another workspace can reach. *)
Theorem client_stays_in_session_workspace `{File.Node} `{Host} :
  (∀ (this : Client.AVPClient Memory.MemoryBackend) sessionId other
     name value version options listing env1 env2 env3 env4,
     (∀ session,
        Client._sessions this !! sessionId = Some session →
        Client.workspace session ≠ other) →
     let untouched (r : Client.AVPClient Memory.MemoryBackend) :=
       Memory._secrets (Client._backend r) !! other =
       Memory._secrets (Client._backend this) !! other in
     untouched (Client.store sessionId name value options env1 env2 this).2 ∧
     untouched (Client.retrieve sessionId name version env1 env2 this).2 ∧
     untouched (Client.delete sessionId name env1 env2 this).2 ∧
     untouched (Client.listSecrets sessionId listing env1 env2 this).2 ∧
     untouched (Client.rotate sessionId name value env1 env2 env3 env4 this).2) ∧
  (∀ (this : Client.AVPClient File.FileBackend) sessionId other
     name value version options listing env1 env2 env3 env4,
     (∀ session,
        Client._sessions this !! sessionId = Some session →
        Client.workspace session ≠ other ∧
        Client.workspace session ∉ Errors.Object_prototype) →
     other ∉ Errors.Object_prototype →
     let untouched (r : Client.AVPClient File.FileBackend) :=
       File.workspaces_of (Client._backend r) !! other =
       File.workspaces_of (Client._backend this) !! other in
     untouched (Client.store sessionId name value options env1 env2 this).2 ∧
     untouched (Client.retrieve sessionId name version env1 env2 this).2 ∧
     (name ≠ "__proto__" →
      untouched (Client.delete sessionId name env1 env2 this).2) ∧
     untouched (Client.listSecrets sessionId listing env1 env2 this).2 ∧
     untouched (Client.rotate sessionId name value env1 env2 env3 env4 this).2).
Proof.
  split.
  - intros this sessionId other name value version options listing
      env1 env2 env3 env4 Hother untouched. unfold untouched.
    repeat apply conj.
    + apply (client_store_frame _ _ _ _ (λ A, A ≠ other)); [done|]. intros A s HA.
      apply (memory_store_isolated A other HA).
    + apply (client_retrieve_frame _ _ _ _ (λ A, A ≠ other)); [done|]. intros A s HA.
      apply (memory_retrieve_isolated A other HA).
    + apply (client_delete_frame _ _ _ _ (λ A, A ≠ other)); [done|]. intros A s HA.
      apply (memory_delete_isolated A other HA).
    + apply (client_listSecrets_frame _ _ _ _ (λ A, A ≠ other)); [done|].
      intros A s HA. apply (memory_listSecrets_isolated A other HA).
    + apply (client_rotate_frame _ _ _ _ (λ A, A ≠ other)); [done|]. intros A s HA.
      apply (memory_rotate_isolated A other HA).
  - intros this sessionId other name value version options listing
      env1 env2 env3 env4 Hserved Hother untouched. unfold untouched.
    set (served := λ A, A ≠ other ∧ A ∉ Errors.Object_prototype).
    repeat apply conj.
    + apply (client_store_frame _ _ _ _ served); [done|]. intros A s [HA Hplain].
      apply (file_store_isolated A other HA Hplain).
    + apply (client_retrieve_frame _ _ _ _ served); [done|]. intros A s [HA Hplain].
      apply (file_retrieve_isolated A other HA Hplain).
    + intros _.
      apply (client_delete_frame _ _ _ _ served); [done|]. intros A s [HA Hplain].
      apply (file_delete_isolated A other HA Hplain).
    + apply (client_listSecrets_frame _ _ _ _ served); [done|].
      intros A s [HA Hplain]. apply (file_listSecrets_isolated A other HA Hplain).
    + apply (client_rotate_frame _ _ _ _ served); [done|]. intros A s [HA Hplain].
      apply (file_rotate_isolated A other HA Hplain).
Qed.

Lemma memory_retrieve_backendId workspace name version env this :
  Memory._backendId (Memory.retrieve workspace name version env this).2 =
  Memory._backendId this.
Proof.
  rewrite memory_retrieve_eq. unfold Memory.after_delete, Memory.set_secrets.
  by repeat case_match.
Qed.

(** X18. What one session stores, every session of the same workspace
    retrieves, and no session of another workspace sees. Over the memory
    backend: a [store] through a live session, of a valid name and a value
    within the limit, returns; a [retrieve] of that name through a live
    session of the same workspace then returns the value with the version
    the store reported and the encoding "utf8"; through a live session of
    another workspace, a [retrieve] has the outcome it would have had
    without the store. *)
Theorem client_store_then_retrieve `{Host}
    (this : Client.AVPClient Memory.MemoryBackend)
    (writer reader : string) (s1 s2 : Client.Session)
    (name : string) (value : list Byte.byte) (env1 env2 env3 env4 : Env) :
  Client._sessions this !! writer = Some s1 →
  Client.isSessionExpired s1 env1 = false →
  Client._sessions this !! reader = Some s2 →
  Client.isSessionExpired s2 env3 = false →
  validateSecretName name = true →
  Z.of_nat (length value) ≤ 65536 →
  ∃ r this',
    Client.store writer name value
      {| Client.opt_labels := None; Client.opt_expiresAt := None |}
      env1 env2 this = (Return r, this') ∧
    (Client.workspace s2 = Client.workspace s1 →
     (Client.retrieve reader name None env3 env4 this').1 =
       Return {| Client.retrieved_name := name;
                 Client.retrieved_value := value;
                 Client.encoding := "utf8";
                 Client.retrieved_backend := Memory._backendId (Client._backend this);
                 Client.retrieved_version := Client.stored_version r |}) ∧
    (Client.workspace s2 ≠ Client.workspace s1 →
     ∀ version,
       (Client.retrieve reader name version env3 env4 this').1 =
       (Client.retrieve reader name version env3 env4 this).1).
Proof.
  intros Hs1 He1 Hs2 He2 Hname Hlen.
  rewrite client_store_eq, (client_validate_live _ _ _ _ Hs1 He1), Hname. simpl.
  rewrite bool_decide_eq_false_2 by (unfold Memory.limits; simpl; lia).
  rewrite memory_store_eq. simpl.
  eexists _, _. split; [reflexivity|]. split.
  - intros Hw. rewrite client_retrieve_eq.
    rewrite (client_validate_live reader s2) by done. simpl.
    rewrite Hw, memory_retrieve_eq, memory_lookup_insert.
    rewrite decide_True by done. rewrite lookup_insert_eq. simpl. reflexivity.
  - intros Hw version. rewrite !client_retrieve_eq.
    rewrite !(client_validate_live reader s2) by done. simpl.
    match goal with
    | |- context [Memory.retrieve _ _ _ _ ?s'] =>
        lazymatch s' with
        | Client._backend this => fail
        | _ =>
            destruct (memory_retrieve_isolated (Client.workspace s2)
                        (Client.workspace s1) Hw name version env4 s')
              as [_ Hsame];
            destruct (Hsame (Client._backend this)) as [Hout _]
        end
    end.
    { intros w Hw'. simpl. by rewrite lookup_insert_ne. }
    simpl in Hout. rewrite !memory_retrieve_backendId. simpl. by rewrite Hout.
Qed.

(** ** Error responses (src/errors.ts) *)

Lemma ERROR_MAP_lookup c C :
  Errors.ERROR_MAP !! c = Some C ↔ (c, C) ∈ Errors.ERROR_MAP_entries.
Proof.
  unfold Errors.ERROR_MAP. symmetry. apply elem_of_list_to_map.
  apply (bool_decide_unpack _). by vm_compute.
Qed.

(** What each class of [ERROR_MAP] makes of a message. *)
Lemma ERROR_MAP_entry c C m :
  Errors.ERROR_MAP !! c = Some C →
  c ≠ "" ∧ (c ∉ Errors.Object_prototype) ∧
  Errors.message (C m) = m ∧
  Errors.code (C m) =
    (if bool_decide (c = "BACKEND_UNAVAILABLE") then "BACKEND_ERROR" else c).
Proof.
  intros Hc. apply ERROR_MAP_lookup in Hc. unfold Errors.ERROR_MAP_entries in Hc.
  repeat (apply elem_of_cons in Hc as [[= -> ->] | Hc]);
    try (by apply elem_of_nil in Hc);
    (split; [done|]; split;
     [ apply (bool_decide_unpack _); by vm_compute | split; reflexivity ]).
Qed.

Lemma or_else_nonempty x d : d ≠ "" → Errors.or_else x d ≠ "".
Proof. intros Hd. unfold Errors.or_else. destruct x; [|done]. by case_bool_decide. Qed.

(** X19. An error sent as a response comes back as the same error, with
    one exception. For every class [C] of [ERROR_MAP] other than
    BackendUnavailableError and for the base class, and every non-empty
    message, [fromErrorResponse(new C(message).toJSON())] is an error equal
    to [new C(message)]: same class name, code, message and empty detail.
    A BackendUnavailableError comes back as a BackendError: its code is
    "BACKEND_ERROR", its own code having gone to the detail. An empty
    message comes back as "Unknown error". *)
Theorem error_response_round_trip :
  (∀ c C m,
     Errors.ERROR_MAP !! c = Some C → c ≠ "BACKEND_UNAVAILABLE" → m ≠ "" →
     Errors.fromErrorResponse (Errors.toJSON (C m)) = Some (C m)) ∧
  (∀ m, m ≠ "" →
     Errors.fromErrorResponse (Errors.toJSON (Errors.new_AVPError m None None)) =
       Some (Errors.new_AVPError m None None)) ∧
  (∀ m, m ≠ "" →
     Errors.fromErrorResponse
       (Errors.toJSON (Errors.new_BackendUnavailableError (Some m))) =
       Some (Errors.new_BackendError (Some m) None)) ∧
  (∀ c C,
     Errors.ERROR_MAP !! c = Some C → c ≠ "BACKEND_UNAVAILABLE" →
     Errors.fromErrorResponse (Errors.toJSON (C "")) = Some (C "Unknown error")).
Proof.
  assert (Hbackend : Errors.ERROR_MAP !! "BACKEND_ERROR" =
            Some (λ m, Errors.new_BackendError (Some m) None)).
  { apply ERROR_MAP_lookup. unfold Errors.ERROR_MAP_entries.
    rewrite !elem_of_cons. tauto. }
  assert (Hbase : Errors.ERROR_MAP !! "AVP_ERROR" = None).
  { destruct (Errors.ERROR_MAP !! "AVP_ERROR") as [C|] eqn:Hc; [|done].
    apply ERROR_MAP_lookup in Hc. unfold Errors.ERROR_MAP_entries in Hc.
    repeat (apply elem_of_cons in Hc as [[=] | Hc]). by apply elem_of_nil in Hc. }
  repeat apply conj.
  - intros c C m Hc Hne Hm.
    destruct (ERROR_MAP_entry c C m Hc) as (Hc0 & _ & Hmsg & Hcode).
    rewrite bool_decide_eq_false_2 in Hcode by done.
    unfold Errors.fromErrorResponse, Errors.toJSON. simpl.
    rewrite Hcode, Hmsg. unfold Errors.or_else.
    rewrite !bool_decide_eq_false_2 by done. by rewrite Hc.
  - intros m Hm. unfold Errors.fromErrorResponse, Errors.toJSON. simpl.
    rewrite bool_decide_eq_false_2 by done. by rewrite Hbase.
  - intros m Hm. unfold Errors.fromErrorResponse, Errors.toJSON. simpl.
    rewrite bool_decide_eq_false_2 by done. by rewrite Hbackend.
  - intros c C Hc Hne.
    destruct (ERROR_MAP_entry c C "" Hc) as (Hc0 & _ & Hmsg & Hcode).
    rewrite bool_decide_eq_false_2 in Hcode by done.
    unfold Errors.fromErrorResponse, Errors.toJSON. simpl.
    rewrite Hcode, Hmsg. unfold Errors.or_else.
    rewrite (bool_decide_eq_false_2 (c = "")) by done.
    rewrite (bool_decide_eq_true_2 ("" = "")) by done. by rewrite Hc.
Qed.

(** X20. What [fromErrorResponse] makes of any response. With [c] the code
    of the response ("AVP_ERROR" when the response has no error member, no
    code or an empty one) and [m] its message ("Unknown error" likewise):
    no AVPError comes out exactly when [c] is a key that [ERROR_MAP]
    inherits from [Object.prototype]; otherwise the error has the message
    [m], never an empty one and never the default message of its class,
    and its code is [c] when [c] is a key of [ERROR_MAP] other than
    "BACKEND_UNAVAILABLE", "BACKEND_ERROR" for that key, and "AVP_ERROR"
    for every other code: a code outside [ERROR_MAP] is lost, and no error
    that comes out has the code "BACKEND_UNAVAILABLE". *)
Theorem fromErrorResponse_result (response : Errors.Response) :
  let c := Errors.or_else (Errors.error response ≫= Errors.data_code) "AVP_ERROR" in
  let m := Errors.or_else (Errors.error response ≫= Errors.data_message)
             "Unknown error" in
  (Errors.fromErrorResponse response = None ↔ c ∈ Errors.Object_prototype) ∧
  (∀ e,
     Errors.fromErrorResponse response = Some e →
     Errors.message e = m ∧
     Errors.message e ≠ "" ∧
     Errors.code e =
       (if bool_decide (c = "BACKEND_UNAVAILABLE") then "BACKEND_ERROR"
        else if bool_decide (is_Some (Errors.ERROR_MAP !! c)) then c
        else "AVP_ERROR") ∧
     Errors.code e ≠ "BACKEND_UNAVAILABLE").
Proof.
  intros c m.
  assert (Hdef : Errors.fromErrorResponse response =
            match Errors.ERROR_MAP !! c with
            | Some ErrorClass => Some (ErrorClass m)
            | None =>
                if bool_decide (c ∈ Errors.Object_prototype) then None
                else Some (Errors.new_AVPError m None None)
            end).
  { unfold Errors.fromErrorResponse, c, m. by destruct (Errors.error response). }
  assert (Hm : m ≠ "") by (by apply or_else_nonempty).
  rewrite Hdef. destruct (Errors.ERROR_MAP !! c) as [C|] eqn:Hc.
  - destruct (ERROR_MAP_entry c C m Hc) as (Hc0 & Hproto & Hmsg & Hcode).
    split; [split; [done | by intros ?]|].
    intros e [= <-]. rewrite Hmsg, Hcode.
    repeat apply conj; try done.
    case_bool_decide; done.
  - split.
    + case_bool_decide; [done|]. split; [done | by intros ?].
    + case_bool_decide; [done|]. intros e [= <-]. simpl.
      repeat apply conj; try done.
      case_bool_decide as Hbu.
      * rewrite Hbu in Hc. exfalso.
        assert (is_Some (Errors.ERROR_MAP !! "BACKEND_UNAVAILABLE")) as [? Hs];
          [|by rewrite Hs in Hc].
        eexists. apply ERROR_MAP_lookup. unfold Errors.ERROR_MAP_entries.
        rewrite !elem_of_cons. tauto.
      * done.
Qed.

(** ** The validators (src/types.ts) *)

Lemma all_chars_impl (p q : ascii → bool) (s : string) :
  (∀ c, p c = true → q c = true) →
  all_chars p s = true → all_chars q s = true.
Proof.
  intros Hpq. induction s as [|c s IH]; simpl; [done|].
  intros [Hc Hs]%andb_true_iff. rewrite (Hpq c Hc). simpl. by apply IH.
Qed.

(** X21. Every name that [validateSecretName] accepts is accepted by
    [validateWorkspaceId], so the name of a secret can always serve as the
    id of a workspace; an accepted name is between 1 and 255 characters
    long. The converse fails: "a/b" and "1x" are workspace ids and not
    names. *)
Theorem secret_names_are_workspace_ids :
  (∀ name,
     validateSecretName name = true →
     validateWorkspaceId name = true ∧
     (1 ≤ String.length name ≤ 255)%nat) ∧
  (validateWorkspaceId "a/b" = true ∧ validateSecretName "a/b" = false) ∧
  (validateWorkspaceId "1x" = true ∧ validateSecretName "1x" = false).
Proof.
  split; [|by vm_compute].
  intros name. unfold validateSecretName, validateWorkspaceId.
  destruct (bool_decide (name = "") || _) eqn:Hguard; [done|].
  apply orb_false_iff in Hguard as [Hne Hlen].
  apply bool_decide_eq_false in Hne. apply bool_decide_eq_false in Hlen.
  destruct name as [|c rest]; [done|].
  intros [[Hc Hrest]%andb_true_iff Hshort]%andb_true_iff.
  rewrite Hc, Hshort. simpl.
  rewrite (all_chars_impl is_name_char is_workspace_char rest); [|by
    intros c' Hc'; unfold is_workspace_char; rewrite Hc'|done].
  split; [done|]. simpl in *. lia.
Qed.

(** ** Rotation and expiry at the edges *)

(** X22. The default [rotate] on a secret that is in the store but has
    expired throws SecretNotFoundError, removes the entry and stores
    nothing, so that a second [rotate] of the name throws as well and
    changes nothing; in the file backend the removal is saved to the vault
    file. The second throw is a SecretNotFoundError again, except in the
    file backend for a name that is a key of [Object.prototype] (an entry
    under such a name comes from a vault file written by other means):
    the name is then inherited and the throw is a [TypeError]. *)
Theorem rotate_of_expired_secret `{File.Node} `{Host} :
  (∀ workspace name newValue env1 env2 (this : Memory.MemoryBackend) e,
     Memory.lookup_secret this workspace name = Some e →
     Memory.expired (now env1) (Memory.stored_metadata e) = true →
     ∃ this',
       Backend.rotate workspace name newValue env1 env2 this =
         (Throw SecretNotFoundError, this') ∧
       Memory.lookup_secret this' workspace name = None ∧
       ∀ value' env3 env4,
         Backend.rotate workspace name value' env3 env4 this' =
           (Throw SecretNotFoundError, this')) ∧
  (∀ workspace name newValue env1 env2 (this : File.FileBackend) e,
     File.lookup_secret this workspace name = Some e →
     File.expired (now env1) (File.metadata e) = true →
     ∃ this',
       Backend.rotate workspace name newValue env1 env2 this =
         (Throw SecretNotFoundError, this') ∧
       File.lookup_secret this' workspace name = None ∧
       vault_written env1 (File.disk this) this' ∧
       ∀ value' env3 env4,
         Backend.rotate workspace name value' env3 env4 this' =
           (Throw (if bool_decide (name ∈ Errors.Object_prototype)
                   then TypeError else SecretNotFoundError), this')).
Proof.
  split.
  - intros workspace name newValue env1 env2 this e He Hexp.
    eexists. split; [by apply (memory_rotate_expired _ _ _ _ _ _ e)|].
    pose proof (memory_lookup_after_delete this workspace name) as Hgone.
    split; [done|]. intros value' env3 env4.
    rewrite rotate_unfold; simpl. by rewrite memory_getMetadata_eq, Hgone.
  - intros workspace name newValue env1 env2 this e He Hexp.
    eexists. split; [by apply (file_rotate_expired _ _ _ _ _ _ e)|].
    pose proof (file_lookup_after_delete env1 this workspace name) as Hgone.
    split; [done|].
    split; [apply (vault_written_save env1 (File.set_workspaces this _))|].
    intros value' env3 env4.
    rewrite rotate_unfold; simpl. case_bool_decide as Hn.
    + by rewrite (file_getMetadata_inherited _ _ _ _ _
                    (file_workspace_after_delete _ _ _ _) (lookup_delete_eq _ _) Hn).
    + rewrite file_getMetadata_eq, Hgone; [done|].
      by apply in_vault_after_delete.
Qed.

(** X23. A secret is live until its expiration has passed, the instant of
    the expiration included: [retrieve] and [getMetadata] return it, and
    change nothing, at every time that is not after the expiration. A
    secret without expiration is always live, and so is one whose
    expiration is the Invalid Date or, in the file backend, a text that
    does not parse to a date. *)
Theorem live_until_expiry_has_passed `{File.Node} :
  (∀ workspace name env (this : Memory.MemoryBackend) e,
     Memory.lookup_secret this workspace name = Some e →
     (∀ t, expiresAt (Memory.stored_metadata e) = Some (ValidDate t) → now env ≤ t) →
     Memory.retrieve workspace name None env this =
       (Return {| value := Memory.stored_value e;
                  retrieve_version := version (Memory.stored_metadata e) |}, this) ∧
     Memory.getMetadata workspace name env this =
       (Return (Memory.stored_metadata e), this)) ∧
  (∀ workspace name env (this : File.FileBackend) e,
     File.lookup_secret this workspace name = Some e →
     (∀ text t,
        File.expiresAt (File.metadata e) = Some text →
        File.Date_parse text = ValidDate t → now env ≤ t) →
     File.retrieve workspace name None env this =
       (Return {| value := File.base64_decode (File.stored_value e);
                  retrieve_version := File.version (File.metadata e) |}, this) ∧
     File.getMetadata workspace name env this =
       (Return (File.to_metadata (File.metadata e)), this)).
Proof.
  split.
  - intros workspace name env this e He Hlive.
    assert (Memory.expired (now env) (Memory.stored_metadata e) = false) as Hexp.
    { unfold Memory.expired.
      destruct (expiresAt (Memory.stored_metadata e)) as [[t|]|]; try done.
      simpl. apply bool_decide_eq_false_2. specialize (Hlive t eq_refl). lia. }
    by rewrite memory_retrieve_eq, memory_getMetadata_eq, He, Hexp.
  - intros workspace name env this e He Hlive.
    assert (File.expired (now env) (File.metadata e) = false) as Hexp.
    { unfold File.expired.
      destruct (File.expiresAt (File.metadata e)) as [text|]; [|done].
      case_bool_decide; [done|].
      destruct (File.Date_parse text) as [t|] eqn:Ht; [|done].
      simpl. apply bool_decide_eq_false_2. specialize (Hlive text t eq_refl Ht). lia. }
    by rewrite file_retrieve_eq, file_getMetadata_eq, He, Hexp by stays.
Qed.

(** X24. An expiration that is the Invalid Date. The memory backend stores
    the secret, and it never expires: a [retrieve] returns it at every
    time. The file backend, on a workspace that is in the vault or is no
    key of [Object.prototype], throws: the RangeError of [toISOString] when
    the call stays in the vault, and when [ws[name]] is inherited the
    [TypeError] of [existing.metadata], which comes first. No secret is
    added or changed and nothing is written to the file system. *)
Theorem invalid_expiry_date `{File.Node} :
  (∀ workspace name value labels env (this : Memory.MemoryBackend),
     ∃ r this',
       Memory.store workspace name value labels (Some InvalidDate) env this =
         (Return r, this') ∧
       ∀ env',
         Memory.retrieve workspace name None env' this' =
           (Return {| value := value; retrieve_version := store_version r |}, this')) ∧
  (∀ workspace name value labels env (this : File.FileBackend),
     property_of (File.workspaces_of this) workspace ≠ Inherited →
     ∃ e this',
       File.store workspace name value labels (Some InvalidDate) env this =
         (Throw e, this') ∧
       (File.in_vault this workspace name → e = RangeError) ∧
       (¬ File.in_vault this workspace name → e = TypeError) ∧
       File.disk this' = File.disk this ∧
       ∀ workspace' name',
         File.lookup_secret this' workspace' name' =
         File.lookup_secret this workspace' name').
Proof.
  split.
  - intros workspace name value labels env this.
    rewrite memory_store_eq. eexists _, _. split; [reflexivity|].
    intros env'. rewrite memory_retrieve_eq, memory_lookup_insert.
    rewrite decide_True by done. rewrite lookup_insert_eq. simpl.
    reflexivity.
  - intros workspace name value labels env this Hw.
    assert (∀ workspace' name',
      File.lookup_secret
        (File.set_workspaces this
           (<[workspace := default ∅ (File.workspaces (File._data this) !! workspace)]>
              (File.workspaces (File._data this)))) workspace' name' =
      File.lookup_secret this workspace' name') as Hsame.
    { intros workspace' name'.
      rewrite file_lookup_insert. case_decide as Hw'; [|done]. subst workspace'.
      unfold File.lookup_secret.
      by destruct (File.workspaces (File._data this) !! workspace). }
    destruct (property_of (default ∅ (File.workspaces (File._data this) !! workspace))
                name) as [e| |] eqn:Hname.
    + assert (File.in_vault this workspace name) as Hin.
      { split; [done|]. by rewrite Hname. }
      rewrite file_store_eq by done. simpl. by eexists _, _.
    + assert (¬ File.in_vault this workspace name) as Hout.
      { by intros [_ ?]. }
      rewrite file_store_inherited; [by eexists _, _|done| |].
      * unfold property_of in Hname. unfold File.lookup_secret.
        destruct (File.workspaces (File._data this) !! workspace) as [ws|];
          simpl in *; [|done]. by destruct (ws !! name).
      * unfold property_of in Hname.
        destruct (_ !! name); [done|]. by case_bool_decide.
    + assert (File.in_vault this workspace name) as Hin.
      { split; [done|]. by rewrite Hname. }
      rewrite file_store_eq by done. simpl. by eexists _, _.
Qed.

(** ** Listing through the client *)

Lemma memory_listSecrets_page `{Host} workspace filterLabels from (start limit : Z)
    env (this : Memory.MemoryBackend) :
  page_start from = start → 0 ≤ start → 0 ≤ limit →
  Memory.listSecrets workspace filterLabels from (Some limit) env this =
    (Return
       {| secrets :=
            take (Z.to_nat limit)
              (drop (Z.to_nat start)
                 (memory_listing workspace filterLabels (now env) this));
          cursor :=
            if bool_decide
                 (start + limit <
                  Z.of_nat (length (memory_listing workspace filterLabels
                                      (now env) this)))
            then Some (pretty (start + limit)) else None |}, this).
Proof.
  intros Hfrom Hstart Hlimit. rewrite memory_listSecrets_eq.
  rewrite (paginate_nonneg _ from start limit) by done.
  unfold memory_listing.
  destruct (Memory._secrets this !! workspace) as [ws|]; [done|]. simpl.
  rewrite listed_empty_memory.
  change (merge_sort name_le []) with (@nil Secret).
  rewrite drop_nil, take_nil. simpl.
  by rewrite bool_decide_eq_false_2 by lia.
Qed.

(** X25. The pages of the client. Through a live session, [listSecrets] of
    the client over the memory backend returns, for a cursor that reads as
    the position [start] and a limit [limit] (100 when the options give
    none), the [limit] secrets from that position of the sorted list of
    the session's workspace, and [hasMore] is true exactly when secrets are
    left after the page, which is when a cursor comes back. *)
Theorem client_listing_pages `{Host}
    (this : Client.AVPClient Memory.MemoryBackend) (sessionId : string)
    (session : Client.Session) (options : Client.ListOptions)
    (start : Z) (env_s env_b : Env) :
  Client._sessions this !! sessionId = Some session →
  Client.isSessionExpired session env_s = false →
  page_start (Client.opt_cursor options) = start →
  0 ≤ start →
  0 ≤ default 100 (Client.opt_limit options) →
  let limit := default 100 (Client.opt_limit options) in
  let listing :=
    memory_listing (Client.workspace session) (Client.opt_filterLabels options)
      (now env_b) (Client._backend this) in
  Client.listSecrets sessionId options env_s env_b this =
    (Return
       {| Client.listed_secrets := take (Z.to_nat limit) (drop (Z.to_nat start) listing);
          Client.listed_cursor :=
            if bool_decide (start + limit < Z.of_nat (length listing))
            then Some (pretty (start + limit)) else None;
          Client.hasMore :=
            bool_decide (start + limit < Z.of_nat (length listing)) |},
     this).
Proof.
  intros Hs He Hfrom Hstart Hlimit limit listing.
  rewrite client_listSecrets_eq, (client_validate_live _ _ _ _ Hs He).
  unfold Backend.listSecrets. simpl.
  rewrite (memory_listSecrets_page _ _ _ start) by done. simpl.
  destruct this as [backend sessions]. simpl. f_equal. f_equal.
  subst limit listing. simpl.
  by destruct (bool_decide (start + _ < _)).
Qed.

(** ** The keychain backend *)

Lemma meta_workspace_valid (workspace : string) :
  validateWorkspaceId workspace = true →
  (String.length workspace ≤ 250)%nat →
  validateWorkspaceId ("meta-" +:+ workspace) = true.
Proof.
  unfold validateWorkspaceId.
  destruct (bool_decide (workspace = "") || _) eqn:Hguard; [done|].
  destruct workspace as [|c rest]; [done|].
  intros [[Hc Hrest]%andb_true_iff _]%andb_true_iff Hlen.
  change ("meta-" +:+ String c rest)
    with (String "m" (String "e" (String "t" (String "a" (String "-" (String c rest)))))).
  assert (Hchar : is_workspace_char c = true).
  { unfold is_workspace_char, is_name_char.
    apply orb_true_iff in Hc as [-> | ->]; [done|]. by rewrite orb_true_r. }
  assert (Hrest' : all_chars is_workspace_char
                     (String "e" (String "t" (String "a" (String "-" (String c rest))))) = true).
  { cbn [all_chars]. rewrite Hchar, Hrest. reflexivity. }
  simpl in Hlen. cbn [String.length].
  rewrite bool_decide_eq_false_2 by done.
  rewrite bool_decide_eq_false_2 by lia.
  cbn [orb]. cbv iota. rewrite Hrest'.
  rewrite bool_decide_eq_true_2 by (cbn [String.length]; lia). reflexivity.
Qed.

Section keychain.
Context `{Keychain.Node}.
Import Keychain.

Ltac run Hk :=
  unfold mbind, method_mbind, method_bind, mret, method_mret, method_ret,
    method_throw, getKeytar, getPassword, setPassword, deletePassword,
    metaServiceName, serviceName, metaServicePrefix;
  simpl; repeat (rewrite Hk; simpl).

Ltac names :=
  repeat match goal with
  | |- context [metaServiceName (set_credentials ?x ?c) ?w] =>
      change (metaServiceName (set_credentials x c) w) with (metaServiceName x w)
  | |- context [serviceName (set_credentials ?x ?c) ?w] =>
      change (serviceName (set_credentials x c) w) with (serviceName x w)
  end;
  cbn [credentials set_credentials].

Lemma keychain_getStoredMetadata_eq workspace name this :
  keytar this = true →
  getStoredMetadata workspace name this =
    (Return (keychain_metadata this workspace name), this).
Proof. intros Hk. unfold getStoredMetadata, keychain_metadata. run Hk. done. Qed.

Lemma keychain_getIndex_eq workspace this :
  keytar this = true →
  getIndex workspace this = (Return (keychain_index this workspace), this).
Proof. intros Hk. unfold getIndex, keychain_index. run Hk. done. Qed.

Lemma keychain_store_eq workspace name value labels expires env this :
  keytar this = true →
  store workspace name value labels expires env this =
  let c1 := <[(serviceName this workspace, name) := base64_encode value]>
              (credentials this) in
  match expires with
  | Some InvalidDate => (Throw RangeError, set_credentials this c1)
  | _ =>
      let existing := keychain_metadata this workspace name in
      let m := keychain_written existing labels
                 (match expires with
                  | Some (ValidDate t) => Some (Date_toISOString t)
                  | _ => None
                  end) (now env) in
      let c2 := <[(metaServiceName this workspace, name) := JSON_stringify_metadata m]> c1 in
      let index := keychain_index (set_credentials this c2) workspace in
      (Return {| created := bool_decide (existing = None);
                 store_version :=
                   match existing with
                   | None => 1
                   | Some e => number_or (version e) 0 + 1
                   end |},
       set_credentials this
         (if bool_decide (name ∈ index) then c2
          else <[(metaServiceName this workspace, indexKey) :=
                   JSON_stringify_names (index ++ [name])]> c2))
  end.
Proof.
  intros Hk. unfold store.
  unfold mbind at 1, method_mbind at 1, method_bind at 1. unfold getKeytar at 1.
  rewrite Hk.
  unfold mbind at 1, method_mbind at 1, method_bind at 1.
  rewrite keychain_getStoredMetadata_eq by done.
  destruct (keychain_metadata this workspace name) as [e|] eqn:He;
    destruct expires as [[t|]|]; simpl;
    unfold saveStoredMetadata, getIndex, saveIndex, keychain_index, keychain_written;
    run Hk; try done;
    case_bool_decide; run Hk; done.
Qed.

Lemma keychain_delete_eq workspace name this :
  keytar this = true →
  delete workspace name this =
  match credentials this !! (serviceName this workspace, name) with
  | None => (Return false, this)
  | Some _ =>
      let c2 := base.delete (metaServiceName this workspace, name)
                  (base.delete (serviceName this workspace, name) (credentials this)) in
      let index := keychain_index (set_credentials this c2) workspace in
      (Return true,
       set_credentials this
         (if bool_decide (name ∈ index)
          then <[(metaServiceName this workspace, indexKey) :=
                   JSON_stringify_names (remove_first name index)]> c2
          else c2))
  end.
Proof.
  intros Hk. unfold delete, deleteStoredMetadata, getIndex, saveIndex, keychain_index.
  run Hk.
  destruct (credentials this !! _) as [b64|]; [|by destruct this; simpl in *; subst].
  run Hk. case_bool_decide; run Hk; done.
Qed.

Lemma keychain_delete_returns workspace name this :
  keytar this = true →
  ∃ b, (delete workspace name this).1 = Return b ∧
       keytar (delete workspace name this).2 = true.
Proof.
  intros Hk. rewrite keychain_delete_eq by done.
  destruct (credentials this !! _); simpl; eauto.
Qed.

Lemma keychain_retrieve_eq workspace name v env this :
  keytar this = true →
  retrieve workspace name v env this =
  match credentials this !! (serviceName this workspace, name) with
  | None => (Throw SecretNotFoundError, this)
  | Some valueB64 =>
      let m := default (minimal_metadata (now env))
                 (keychain_metadata this workspace name) in
      if expired (now env) m
      then (Throw SecretNotFoundError, (delete workspace name this).2)
      else if version_mismatch v (number_or (version m) 1)
      then (Throw SecretNotFoundError, this)
      else (Return {| value := base64_decode valueB64;
                      retrieve_version := number_or (version m) 1 |}, this)
  end.
Proof.
  intros Hk. unfold retrieve.
  unfold mbind at 1, method_mbind at 1, method_bind at 1. unfold getKeytar at 1.
  rewrite Hk.
  unfold mbind at 1, method_mbind at 1, method_bind at 1, getPassword at 1.
  destruct (credentials this !! _) as [b64|]; [|done].
  unfold mbind at 1, method_mbind at 1, method_bind at 1.
  rewrite keychain_getStoredMetadata_eq by done.
  destruct (expired _ _).
  - unfold mbind, method_mbind, method_bind, method_throw.
    destruct (keychain_delete_returns workspace name this Hk) as (b & Hb & _).
    destruct (delete workspace name this) as [[?|?|] ?]; simpl in *; done.
  - by destruct (version_mismatch _ _).
Qed.

Lemma keychain_getMetadata_eq workspace name env this :
  keytar this = true →
  getMetadata workspace name env this =
  match keychain_metadata this workspace name with
  | None => (Throw SecretNotFoundError, this)
  | Some m =>
      if expired (now env) m
      then (Throw SecretNotFoundError, (delete workspace name this).2)
      else (Return (to_metadata m), this)
  end.
Proof.
  intros Hk. unfold getMetadata.
  unfold mbind at 1, method_mbind at 1, method_bind at 1.
  rewrite keychain_getStoredMetadata_eq by done.
  destruct (keychain_metadata this workspace name) as [m|]; [|done].
  destruct (expired _ _); [|done].
  unfold mbind, method_mbind, method_bind, method_throw.
  destruct (keychain_delete_returns workspace name this Hk) as (b & Hb & _).
  destruct (delete workspace name this) as [[?|?|] ?]; simpl in *; done.
Qed.

(** *** The names of the services *)

Lemma append_assoc (a b c : string) : (a +:+ b) +:+ c = a +:+ (b +:+ c).
Proof.
  induction a as [|x a IH]; [done|].
  change (String x ((a +:+ b) +:+ c) = String x (a +:+ (b +:+ c))).
  by rewrite IH.
Qed.

Lemma append_cancel_l (p a b : string) : p +:+ a = p +:+ b → a = b.
Proof.
  induction p as [|x p IH]; [done|].
  change (String x (p +:+ a) = String x (p +:+ b) → a = b).
  intros [= Heq]. by apply IH.
Qed.

Lemma append_length (a b : string) :
  String.length (a +:+ b) = (String.length a + String.length b)%nat.
Proof.
  induction a as [|x a IH]; [done|].
  change (S (String.length (a +:+ b)) = S (String.length a + String.length b)).
  by rewrite IH.
Qed.

Lemma serviceName_meta this workspace :
  serviceName this ("meta-" +:+ workspace) = metaServiceName this workspace.
Proof.
  unfold serviceName, metaServiceName, metaServicePrefix.
  by rewrite append_assoc.
Qed.

Lemma serviceName_ne_meta this workspace :
  serviceName this workspace ≠ metaServiceName this workspace.
Proof.
  unfold serviceName, metaServiceName, metaServicePrefix.
  rewrite append_assoc. intros Heq%append_cancel_l.
  apply (f_equal String.length) in Heq.
  change ("-meta" +:+ "-" +:+ workspace) with (String "-" ("meta-" +:+ workspace)) in Heq.
  change ("-" +:+ workspace) with (String "-" workspace) in Heq.
  simpl in Heq. rewrite append_length in Heq. simpl in Heq. lia.
Qed.

(** What [store] leaves in the three places of a name other than
    [indexKey]. *)
Lemma keychain_store_returns workspace name value labels expires env this :
  keytar this = true →
  name ≠ indexKey →
  expires ≠ Some InvalidDate →
  let existing := keychain_metadata this workspace name in
  let m := keychain_written existing labels
             (match expires with
              | Some (ValidDate t) => Some (Date_toISOString t)
              | _ => None
              end) (now env) in
  ∃ this',
    store workspace name value labels expires env this =
      (Return {| created := bool_decide (existing = None);
                 store_version :=
                   match existing with
                   | None => 1
                   | Some e => number_or (version e) 0 + 1
                   end |}, this') ∧
    keytar this' = true ∧
    servicePrefix this' = servicePrefix this ∧
    credentials this' !! (serviceName this workspace, name) =
      Some (base64_encode value) ∧
    credentials this' !! (metaServiceName this workspace, name) =
      Some (JSON_stringify_metadata m) ∧
    is_Some (credentials this' !! (metaServiceName this workspace, indexKey)) ∧
    (∀ service account,
       service ≠ serviceName this workspace →
       service ≠ metaServiceName this workspace →
       credentials this' !! (service, account) =
       credentials this !! (service, account)).
Proof.
  intros Hk Hname Hvalid existing m.
  pose proof (serviceName_ne_meta this workspace) as Hne.
  rewrite keychain_store_eq by done. cbv zeta.
  assert (Hmatch : ∀ A (x y : A),
            match expires with Some InvalidDate => x | _ => y end = y).
  { intros A x y. by destruct expires as [[t|]|]. }
  rewrite Hmatch. fold existing. fold m.
  set (c2 := <[(metaServiceName this workspace, name) := JSON_stringify_metadata m]>
               (<[(serviceName this workspace, name) := base64_encode value]>
                  (credentials this))).
  assert (Hvalue : c2 !! (serviceName this workspace, name) = Some (base64_encode value)).
  { unfold c2. rewrite lookup_insert_ne by congruence.
    apply lookup_insert_eq. }
  assert (Hmeta : c2 !! (metaServiceName this workspace, name) =
                    Some (JSON_stringify_metadata m)).
  { unfold c2. apply lookup_insert_eq. }
  assert (Hframe : ∀ service account,
            service ≠ serviceName this workspace →
            service ≠ metaServiceName this workspace →
            c2 !! (service, account) = credentials this !! (service, account)).
  { intros service account Hs Hm. unfold c2.
    rewrite !lookup_insert_ne by congruence. done. }
  eexists. split; [reflexivity|]. simpl.
  split; [done|]. split; [done|].
  case_bool_decide as Hin; cbn [credentials set_credentials].
  - repeat apply conj; try done.
    unfold keychain_index in Hin. simpl in Hin.
    change (metaServiceName (set_credentials this c2) workspace)
      with (metaServiceName this workspace) in Hin.
    destruct (c2 !! (metaServiceName this workspace, indexKey)); [done|].
    by apply elem_of_nil in Hin.
  - repeat apply conj.
    + rewrite lookup_insert_ne by congruence. done.
    + rewrite lookup_insert_ne by congruence. done.
    + rewrite lookup_insert_eq. done.
    + intros service account Hs Hm.
      rewrite lookup_insert_ne by congruence. by apply Hframe.
Qed.

Lemma keychain_metadata_lookup this this' workspace name :
  servicePrefix this' = servicePrefix this →
  credentials this' !! (metaServiceName this workspace, name) =
    credentials this !! (metaServiceName this workspace, name) →
  keychain_metadata this' workspace name = keychain_metadata this workspace name.
Proof.
  intros Hp Hc. unfold keychain_metadata, metaServiceName, metaServicePrefix in *.
  by rewrite Hp, Hc.
Qed.

Lemma expired_minimal now : expired now (minimal_metadata now) = false.
Proof. done. Qed.

(** X26. In the keychain backend, with the module there and a name other
    than the account of the index, a [store] without expiration returns,
    and after it [retrieve] returns the value (through its base64 text)
    with the version the store reported (1 in the place of a reported 0)
    and [getMetadata] returns the metadata the store wrote; a name without
    metadata before is reported as created, with version 1. The JSON of the
    written metadata is assumed not empty and to parse back. *)
Theorem keychain_store_then_retrieve
    (workspace name : string) (value : list Byte.byte)
    (labels : option (gmap string string)) (env env' : Env)
    (this : KeychainBackend) :
  keytar this = true →
  name ≠ indexKey →
  let m := keychain_written (keychain_metadata this workspace name) labels None
             (now env) in
  JSON_stringify_metadata m ≠ "" →
  JSON_parse_metadata (JSON_stringify_metadata m) = Some m →
  ∃ r this',
    store workspace name value labels None env this = (Return r, this') ∧
    retrieve workspace name None env' this' =
      (Return {| value := base64_decode (base64_encode value);
                 retrieve_version := number_or (Some (store_version r)) 1 |},
       this') ∧
    getMetadata workspace name env' this' = (Return (to_metadata m), this') ∧
    (keychain_metadata this workspace name = None →
     r = {| created := true; store_version := 1 |}).
Proof.
  intros Hk Hname m Hne Hparse.
  destruct (keychain_store_returns workspace name value labels None env this)
    as (this' & Hstore & Hk' & Hp & Hvalue & Hmeta & _ & _); [done..|].
  assert (Hread : keychain_metadata this' workspace name = Some m).
  { unfold keychain_metadata, metaServiceName, metaServicePrefix in *.
    rewrite Hp, Hmeta. fold m. by rewrite bool_decide_eq_false_2. }
  eexists _, _. split; [exact Hstore|]. repeat apply conj.
  - rewrite keychain_retrieve_eq by done.
    unfold serviceName in *. rewrite Hp, Hvalue, Hread. simpl.
    by destruct (keychain_metadata this workspace name).
  - by rewrite keychain_getMetadata_eq, Hread.
  - by intros ->.
Qed.

Lemma metaServiceName_meta_ne this workspace :
  metaServiceName this ("meta-" +:+ workspace) ≠ serviceName this workspace ∧
  metaServiceName this ("meta-" +:+ workspace) ≠ metaServiceName this workspace.
Proof.
  unfold serviceName, metaServiceName, metaServicePrefix.
  rewrite !append_assoc. split; intros Heq%append_cancel_l;
    apply (f_equal String.length) in Heq;
    repeat (rewrite append_length in Heq; simpl in Heq); lia.
Qed.

(** X27. The keychain backend does not keep the workspaces apart: the
    service of the values of the workspace "meta-" + w is the service of
    the metadata of the workspace w. After a [store] of a name in w, a
    [retrieve] of that name in "meta-" + w, where nothing was ever stored,
    does not throw: it returns, as version 1, the bytes of the JSON text of
    the metadata of the secret of w; and a [retrieve] of the account of the
    index returns the bytes of the list of the names of w. Whenever w is a
    valid workspace id of at most 250 characters, so is "meta-" + w. *)
Theorem keychain_workspaces_collide
    (workspace name : string) (value : list Byte.byte)
    (labels : option (gmap string string)) (env env' : Env)
    (this : KeychainBackend) :
  keytar this = true →
  name ≠ indexKey →
  (∀ account,
     credentials this !! (metaServiceName this ("meta-" +:+ workspace), account) = None) →
  ∃ r this' names,
    store workspace name value labels None env this = (Return r, this') ∧
    retrieve ("meta-" +:+ workspace) name None env' this' =
      (Return {| value :=
                   base64_decode
                     (JSON_stringify_metadata
                        (keychain_written (keychain_metadata this workspace name)
                           labels None (now env)));
                 retrieve_version := 1 |}, this') ∧
    credentials this' !! (metaServiceName this workspace, indexKey) = Some names ∧
    retrieve ("meta-" +:+ workspace) indexKey None env' this' =
      (Return {| value := base64_decode names; retrieve_version := 1 |}, this') ∧
    (validateWorkspaceId workspace = true →
     (String.length workspace ≤ 250)%nat →
     validateWorkspaceId ("meta-" +:+ workspace) = true).
Proof.
  intros Hk Hname Hfresh.
  destruct (keychain_store_returns workspace name value labels None env this)
    as (this' & Hstore & Hk' & Hp & _ & Hmeta & [names Hnames] & Hframe); [done..|].
  destruct (metaServiceName_meta_ne this workspace) as [Hne1 Hne2].
  assert (Hnone : ∀ account, keychain_metadata this' ("meta-" +:+ workspace) account = None).
  { intros account.
    rewrite (keychain_metadata_lookup this this') by (by auto).
    unfold keychain_metadata. by rewrite Hfresh. }
  assert (Hsvc : serviceName this' ("meta-" +:+ workspace) = metaServiceName this workspace).
  { rewrite serviceName_meta. unfold metaServiceName, metaServicePrefix. by rewrite Hp. }
  eexists _, _, names. split; [exact Hstore|]. repeat apply conj.
  - rewrite keychain_retrieve_eq by done. by rewrite Hsvc, Hmeta, Hnone.
  - done.
  - rewrite keychain_retrieve_eq by done. by rewrite Hsvc, Hnames, Hnone.
  - apply meta_workspace_valid.
Qed.

Lemma keychain_index_lookup this this' workspace :
  servicePrefix this' = servicePrefix this →
  credentials this' !! (metaServiceName this workspace, indexKey) =
    credentials this !! (metaServiceName this workspace, indexKey) →
  keychain_index this' workspace = keychain_index this workspace.
Proof.
  intros Hp Hc. unfold keychain_index, metaServiceName, metaServicePrefix in *.
  by rewrite Hp, Hc.
Qed.

Lemma keychain_names_prefix this this' workspace :
  servicePrefix this' = servicePrefix this →
  serviceName this' workspace = serviceName this workspace ∧
  metaServiceName this' workspace = metaServiceName this workspace.
Proof.
  intros Hp. unfold serviceName, metaServiceName, metaServicePrefix.
  by rewrite Hp.
Qed.

Lemma keychain_listSecrets_no_index workspace filterLabels env this :
  keytar this = true →
  credentials this !! (metaServiceName this workspace, indexKey) = None →
  listSecrets workspace filterLabels None None env this =
    (Return {| secrets := []; cursor := None |}, this).
Proof.
  intros Hk Hnone. unfold listSecrets.
  unfold mbind at 1, method_mbind at 1, method_bind at 1.
  rewrite keychain_getIndex_eq by done.
  unfold keychain_index. rewrite Hnone. reflexivity.
Qed.

(** X28. A [delete] in the workspace "meta-" + w of the keychain backend
    removes what belongs to the workspace w. After a [store] of a name in
    w, a [delete] of that name in "meta-" + w returns [true] and removes the
    metadata of the secret of w: [getMetadata] in w then throws
    SecretNotFoundError, and [retrieve] in w returns the value with the
    version 1, whatever version it had. A [delete] of the account of the
    index in "meta-" + w returns [true] and removes the index of w: the
    value is still stored, and [listSecrets] in w lists nothing. *)
Theorem keychain_delete_reaches_other_workspace
    (workspace name : string) (value : list Byte.byte)
    (labels : option (gmap string string)) (env env' : Env)
    (this : KeychainBackend) :
  keytar this = true →
  name ≠ indexKey →
  (∀ account,
     credentials this !! (metaServiceName this ("meta-" +:+ workspace), account) = None) →
  ∃ r this',
    store workspace name value labels None env this = (Return r, this') ∧
    (∃ this'',
       delete ("meta-" +:+ workspace) name this' = (Return true, this'') ∧
       getMetadata workspace name env' this'' = (Throw SecretNotFoundError, this'') ∧
       retrieve workspace name None env' this'' =
         (Return {| value := base64_decode (base64_encode value);
                    retrieve_version := 1 |}, this'')) ∧
    (∃ this'',
       delete ("meta-" +:+ workspace) indexKey this' = (Return true, this'') ∧
       credentials this'' !! (serviceName this workspace, name) =
         Some (base64_encode value) ∧
       ∀ filterLabels,
         listSecrets workspace filterLabels None None env' this'' =
           (Return {| secrets := []; cursor := None |}, this'')).
Proof.
  intros Hk Hname Hfresh.
  destruct (keychain_store_returns workspace name value labels None env this)
    as (this' & Hstore & Hk' & Hp & Hvalue & Hmeta & [names Hnames] & Hframe); [done..|].
  destruct (metaServiceName_meta_ne this workspace) as [Hne1 Hne2].
  pose proof (serviceName_ne_meta this workspace) as Hne.
  destruct (keychain_names_prefix this this' workspace Hp) as [Hsvc Hmsvc].
  destruct (keychain_names_prefix this this' ("meta-" +:+ workspace) Hp) as [Hsvc' Hmsvc'].
  rewrite (serviceName_meta this) in Hsvc'.
  assert (Hfresh' : ∀ account,
            credentials this' !! (metaServiceName this ("meta-" +:+ workspace), account) =
            None).
  { intros account. rewrite Hframe by done. apply Hfresh. }
  eexists _, _. split; [exact Hstore|]. split.
  - eexists. split.
    + rewrite keychain_delete_eq by done. rewrite Hsvc', Hmsvc', Hmeta. cbv zeta.
      unfold keychain_index. names.
      rewrite Hmsvc'.
      rewrite !lookup_delete_ne by congruence. rewrite Hfresh'.
      rewrite bool_decide_eq_false_2 by (by intros ?%elem_of_nil). reflexivity.
    + split.
      * rewrite keychain_getMetadata_eq by done.
        unfold keychain_metadata. names.
        rewrite Hmsvc. rewrite lookup_delete_ne by congruence.
        by rewrite lookup_delete_eq.
      * rewrite keychain_retrieve_eq by done.
        unfold keychain_metadata. names.
        rewrite Hmsvc, Hsvc.
        rewrite !(lookup_delete_ne _ (metaServiceName this ("meta-" +:+ workspace), name))
          by congruence.
        rewrite (lookup_delete_ne _ (metaServiceName this workspace, name)
                   (serviceName this workspace, name)) by congruence.
        by rewrite Hvalue, lookup_delete_eq.
  - eexists. split.
    + rewrite keychain_delete_eq by done. rewrite Hsvc', Hmsvc', Hnames. cbv zeta.
      unfold keychain_index. names.
      rewrite Hmsvc'. rewrite lookup_delete_eq.
      rewrite bool_decide_eq_false_2 by (by intros ?%elem_of_nil). reflexivity.
    + split.
      * names.
        rewrite !lookup_delete_ne by congruence. done.
      * intros filterLabels. apply keychain_listSecrets_no_index; [done|].
        names.
        rewrite Hmsvc. rewrite lookup_delete_ne by congruence.
        by rewrite lookup_delete_eq.
Qed.

(** X29. In the keychain backend, [delete] of a name (other than the
    account of the index) whose value is in the store returns [true]; after
    it [retrieve] and [getMetadata] throw SecretNotFoundError and a second
    [delete] returns [false], and the entries of every service other than
    the two of the workspace are as before. [delete] of a name without a
    value returns [false] and changes nothing, and [retrieve] throws
    SecretNotFoundError. *)
Theorem keychain_delete_then_not_found
    (workspace name : string) (this : KeychainBackend) :
  keytar this = true →
  name ≠ indexKey →
  (is_Some (credentials this !! (serviceName this workspace, name)) →
   ∃ this',
     delete workspace name this = (Return true, this') ∧
     (∀ v env, retrieve workspace name v env this' =
                 (Throw SecretNotFoundError, this')) ∧
     (∀ env, getMetadata workspace name env this' =
               (Throw SecretNotFoundError, this')) ∧
     delete workspace name this' = (Return false, this') ∧
     (∀ service account,
        service ≠ serviceName this workspace →
        service ≠ metaServiceName this workspace →
        credentials this' !! (service, account) =
        credentials this !! (service, account))) ∧
  (credentials this !! (serviceName this workspace, name) = None →
   delete workspace name this = (Return false, this) ∧
   ∀ v env, retrieve workspace name v env this =
              (Throw SecretNotFoundError, this)).
Proof.
  intros Hk Hname.
  pose proof (serviceName_ne_meta this workspace) as Hne.
  split.
  - intros [b64 Hb64]. rewrite keychain_delete_eq, Hb64 by done. cbv zeta.
    set (c2 := base.delete (metaServiceName this workspace, name)
                 (base.delete (serviceName this workspace, name) (credentials this))).
    set (c3 := if bool_decide (name ∈ keychain_index (set_credentials this c2) workspace)
               then _ else c2).
    assert (Hvalue : c3 !! (serviceName this workspace, name) = None).
    { unfold c3, c2. case_bool_decide.
      - rewrite lookup_insert_ne by congruence.
        rewrite lookup_delete_ne by congruence. apply lookup_delete_eq.
      - rewrite lookup_delete_ne by congruence. apply lookup_delete_eq. }
    assert (Hmeta : c3 !! (metaServiceName this workspace, name) = None).
    { unfold c3, c2. case_bool_decide.
      - rewrite lookup_insert_ne by congruence. apply lookup_delete_eq.
      - apply lookup_delete_eq. }
    eexists. split; [reflexivity|]. repeat apply conj.
    + intros v env. rewrite keychain_retrieve_eq by done.
      names.
      by rewrite Hvalue.
    + intros env. rewrite keychain_getMetadata_eq by done.
      unfold keychain_metadata. names.
      by rewrite Hmeta.
    + rewrite keychain_delete_eq by done.
      names.
      by rewrite Hvalue.
    + intros service account Hs Hm. names.
      unfold c3, c2. case_bool_decide.
      * rewrite lookup_insert_ne by congruence.
        by rewrite !lookup_delete_ne by congruence.
      * by rewrite !lookup_delete_ne by congruence.
  - intros Hnone. split.
    + by rewrite keychain_delete_eq, Hnone.
    + intros v env. by rewrite keychain_retrieve_eq, Hnone.
Qed.

(** X30. Without the [keytar] module, every operation of the keychain
    backend, the default [rotate] included, throws BackendUnavailableError
    and leaves the credential store alone; the code of that error is
    "BACKEND_ERROR". *)
Theorem keychain_without_keytar
    (workspace name : string) (value : list Byte.byte)
    (labels filterLabels : option (gmap string string)) (expires : option Date)
    (version : option Z) (cursor : option string) (limit : option Z)
    (env : Env) (this : KeychainBackend) :
  keytar this = false →
  store workspace name value labels expires env this =
    (Throw BackendUnavailableError, this) ∧
  retrieve workspace name version env this = (Throw BackendUnavailableError, this) ∧
  delete workspace name this = (Throw BackendUnavailableError, this) ∧
  listSecrets workspace filterLabels cursor limit env this =
    (Throw BackendUnavailableError, this) ∧
  getMetadata workspace name env this = (Throw BackendUnavailableError, this) ∧
  (∀ env1 env2,
     Backend.rotate workspace name value env1 env2 this =
       (Throw BackendUnavailableError, this)) ∧
  code BackendUnavailableError = "BACKEND_ERROR".
Proof.
  intros Hk.
  unfold Backend.rotate, Backend.getMetadata, Backend.store, is_backend,
    store, retrieve, delete, listSecrets, getMetadata, getIndex, getStoredMetadata,
    mbind, method_mbind, method_bind, getKeytar.
  rewrite Hk. by repeat apply conj.
Qed.

End keychain.

(** * The further properties on the example vaults *)

(** Three secrets read two to a page, in two pages; one secret read in one
    page. *)
Lemma listing_pages_concatenate_witness :
  read_all 4
    (λ from, answer (@Memory.listSecrets example_host "default" None from
                       (Some 2) (example_env 2000) crowded_memory).1) None =
    @memory_listing example_host "default" None 2000 crowded_memory ∧
  read_all 2
    (λ from, answer (@Memory.listSecrets example_host "default" None from
                       (Some 1) (example_env 2000) example_memory).1) None =
    @memory_listing example_host "default" None 2000 example_memory ∧
  read_all 2
    (λ from, answer (@File.listSecrets example_node example_host "default" None from
                       (Some 1) (example_env 2000) example_file).1) None =
    @file_listing example_node example_host "default" None 2000 example_file.
Proof.
  destruct (@listing_pages_concatenate example_node example_host) as (Hmem & Hfile).
  split; [|split].
  - refine (Hmem "default" None 2 (example_env 2000) crowded_memory 4%nat _ _).
    + lia.
    + vm_compute. lia.
  - refine (Hmem "default" None 1 (example_env 2000) example_memory 2%nat _ _).
    + lia.
    + vm_compute. lia.
  - refine (Hfile "default" None 1 (example_env 2000) example_file 2%nat _ _).
    + lia.
    + vm_compute. lia.
Defined.

Lemma page_and_cursor_witness :
  ∃ r,
    @Memory.listSecrets example_host "default" None (Some "0") (Some 1)
      (example_env 2000) example_memory = (Return r, example_memory) ∧
    secrets r =
      take (Z.to_nat 1)
        (drop (Z.to_nat 0)
           (@memory_listing example_host "default" None 2000 example_memory)) ∧
    cursor r =
      (if bool_decide
            (0 + 1 <
             Z.of_nat (length (@memory_listing example_host "default" None 2000
                                 example_memory)))
       then Some (pretty (0 + 1)) else None).
Proof.
  refine (proj1 (@page_and_cursor example_node example_host)
            "default" None (Some "0") 0 1 (example_env 2000) example_memory _ _ _).
  - reflexivity.
  - lia.
  - lia.
Defined.

Lemma limit_zero_never_advances_witness :
  (@Memory.listSecrets example_host "default" None None (Some 0)
     (example_env 2000) example_memory).1 =
    Return {| secrets := []; cursor := Some "0" |} ∧
  read_all 5
    (λ from, answer (@Memory.listSecrets example_host "default" None from
                       (Some 0) (example_env 2000) example_memory).1) None = [].
Proof.
  refine (proj1 (@limit_zero_never_advances example_node example_host)
            "default" None (example_env 2000) example_memory 5%nat _).
  vm_compute. discriminate.
Defined.

(** In the example vaults: "api_key" is deleted; "nonexistent" is not
    there; "constructor" is not there either, and the file backend answers
    [true]. *)
Lemma delete_then_not_found_witness :
  (∃ this',
     Memory.delete "default" "api_key" example_memory = (Return true, this') ∧
     (∀ v env, Memory.retrieve "default" "api_key" v env this' =
                 (Throw SecretNotFoundError, this')) ∧
     (∀ env, Memory.getMetadata "default" "api_key" env this' =
               (Throw SecretNotFoundError, this')) ∧
     Memory.delete "default" "api_key" this' = (Return false, this')) ∧
  (∃ this',
     @File.delete example_node "default" "api_key" (example_env 2000) example_file =
       (Return true, this') ∧
     File.lookup_secret this' "default" "api_key" = None ∧
     (∀ v env', @File.retrieve example_node "default" "api_key" v env' this' =
                  (Throw SecretNotFoundError, this')) ∧
     (∀ env', @File.delete example_node "default" "api_key" env' this' =
                (Return false, this'))) ∧
  @File.delete example_node "default" "nonexistent" (example_env 2000) example_file =
    (Return false, example_file) ∧
  @File.delete example_node "default" "constructor" (example_env 2000) example_file =
    (Return true, @File._save example_node (example_env 2000) example_file).
Proof.
  destruct (@delete_then_not_found example_node) as (Hmem & _ & Hfile & Habsent).
  split; [|split; [|split]].
  - refine (Hmem "default" "api_key" example_memory example_secret _).
    vm_compute. reflexivity.
  - destruct (Hfile "default" "api_key" (example_env 2000) example_file example_stored)
      as (this' & Hdelete & Hgone & Hplain & _); [vm_compute; reflexivity|].
    destruct Hplain as (Hretrieve & _ & Hagain); [compute_done|].
    exists this'. repeat split; assumption.
  - refine (proj1 (Habsent "default" "nonexistent" (example_env 2000) example_file _) _).
    + vm_compute. reflexivity.
    + split; vm_compute; discriminate.
  - refine (proj2 (Habsent "default" "constructor" (example_env 2000) example_file _)
              {[ "api_key" := example_stored ]} _ _ _).
    + vm_compute. reflexivity.
    + vm_compute. reflexivity.
    + compute_done.
    + discriminate.
Defined.

Lemma version_restarts_after_removal_witness :
  (Memory.store "other" "api_key" (list_byte_of_string "again") None None
     (example_env 2000) (Memory.delete "other" "api_key" example_memory).2).1 =
    Return {| created := true; store_version := 1 |} ∧
  (@File.store example_node "other" "api_key" (list_byte_of_string "again") None None
     (example_env 2001)
     (@File.delete example_node "other" "api_key" (example_env 2000) example_file).2).1 =
    Return {| created := true; store_version := 1 |} ∧
  (@File.store example_node "default" "constructor" (list_byte_of_string "again")
     None None (example_env 2001)
     (@File.delete example_node "default" "constructor" (example_env 2000)
        crafted_file).2).1 = Throw TypeError.
Proof.
  destruct (@version_restarts_after_removal example_node) as (Hmem & _ & Hfile & _).
  split; [|split].
  - refine (Hmem "other" "api_key" _ None None (example_env 2000) example_memory
              other_secret _).
    vm_compute. reflexivity.
  - refine (proj1 (Hfile "other" "api_key" (list_byte_of_string "again") None None
                     (example_env 2000) (example_env 2001) example_file
                     other_stored _ _) _).
    + vm_compute. reflexivity.
    + discriminate.
    + compute_done.
  - refine (proj2 (Hfile "default" "constructor" (list_byte_of_string "again") None None
                     (example_env 2000) (example_env 2001) crafted_file
                     example_stored _ _) _).
    + vm_compute. reflexivity.
    + discriminate.
    + compute_done.
Defined.

Lemma only_current_version_retrievable_witness :
  ∃ this',
    Memory.store "other" "api_key" (list_byte_of_string "next") None None
      (example_env 2000) example_memory =
      (Return {| created := false;
                 store_version := version (Memory.stored_metadata other_secret) + 1 |},
       this') ∧
    (∀ v, v = None ∨ v = Some (version (Memory.stored_metadata other_secret) + 1) →
       Memory.retrieve "other" "api_key" v (example_env 3000) this' =
         (Return {| value := list_byte_of_string "next";
                    retrieve_version :=
                      version (Memory.stored_metadata other_secret) + 1 |},
          this')) ∧
    (∀ n, n ≠ version (Memory.stored_metadata other_secret) + 1 →
       Memory.retrieve "other" "api_key" (Some n) (example_env 3000) this' =
         (Throw SecretNotFoundError, this')).
Proof.
  refine (proj1 (@only_current_version_retrievable example_node)
            "other" "api_key" _ None (example_env 2000) (example_env 3000)
            example_memory other_secret _).
  vm_compute. reflexivity.
Defined.

Lemma reads_do_not_write_witness :
  (Memory.retrieve "default" "api_key" None (example_env 2000) example_memory).2 =
    example_memory ∧
  (Memory.getMetadata "default" "api_key" (example_env 2000) example_memory).2 =
    example_memory.
Proof.
  destruct (@reads_do_not_write example_node example_host) as (_ & Hmem & _).
  refine (Hmem "default" "api_key" None (example_env 2000) example_memory _).
  intros e He. vm_compute in He. injection He as <-. reflexivity.
Defined.

Lemma store_then_getMetadata_witness :
  (∃ r this' m,
     Memory.store "default" "token" (list_byte_of_string "abc")
       (Some example_labels) (Some (ValidDate 5000)) (example_env 1000)
       example_memory = (Return r, this') ∧
     Memory.getMetadata "default" "token" (example_env 2000) this' = (Return m, this') ∧
     version m = store_version r ∧
     Types.labels m = default ∅ (Some example_labels) ∧
     expiresAt m = Some (ValidDate 5000) ∧
     updatedAt m = ValidDate (now (example_env 1000)) ∧
     backend m = MEMORY) ∧
  (∃ r this' m,
     @File.store example_node "default" "token" (list_byte_of_string "abc")
       (Some example_labels) (Some (ValidDate 5000)) (example_env 1000)
       example_file = (Return r, this') ∧
     @File.getMetadata example_node "default" "token" (example_env 2000) this' =
       (Return m, this') ∧
     version m = store_version r ∧
     Types.labels m = example_labels ∧
     expiresAt m = Some (ValidDate 5000)).
Proof.
  destruct (@store_then_getMetadata example_node) as (Hmem & Hfile).
  split.
  - refine (Hmem "default" "token" _ (Some example_labels) (Some (ValidDate 5000))
              (example_env 1000) (example_env 2000) example_memory _).
    intros date [= <-]. reflexivity.
  - destruct (Hfile "default" "token" (list_byte_of_string "abc")
                (Some example_labels) (Some (ValidDate 5000))
                (example_env 1000) (example_env 2000) example_file)
      as (Hreturns & Hmetadata).
    { intros t [= <-]. repeat split; vm_compute; discriminate. }
    destruct Hreturns as (r & this' & Hstore).
    { split; vm_compute; discriminate. }
    { discriminate. }
    destruct (Hmetadata r this' Hstore) as (m & Hget & Hversion & Hlabels & Hexpires & _).
    exists r, this', m. repeat split; assumption.
Defined.

Lemma saving_rewrites_the_vault_witness :
  @vault_written example_node (example_env 1000) (File.disk example_file)
    (@File.store example_node "default" "token" (list_byte_of_string "abc")
       None None (example_env 1000) example_file).2.
Proof.
  refine (proj1 (@saving_rewrites_the_vault example_node)
            "default" "token" (list_byte_of_string "abc") None None
            (example_env 1000) example_file _
            {| created := true; store_version := 1 |} _).
  vm_compute. reflexivity.
Defined.

(** The vault that holds "token" is closed and opened again. *)
Lemma vault_survives_reopening_witness :
  ∃ reopened,
    @File.new example_codec "vault.enc" "correct horse" None
      (File.disk (@File.close example_codec (example_env 1000) token_file).2) =
      Return reopened ∧
    File._data reopened = File._data token_file ∧
    (∀ workspace name v env',
       (@File.retrieve example_codec workspace name v env' reopened).1 =
       (@File.retrieve example_codec workspace name v env' token_file).1) ∧
    (∀ workspace name env',
       (@File.getMetadata example_codec workspace name env' reopened).1 =
       (@File.getMetadata example_codec workspace name env' token_file).1).
Proof.
  refine (@vault_survives_reopening example_codec (example_env 1000) token_file
            "correct horse" None _ _).
  - reflexivity.
  - repeat apply conj; vm_compute; reflexivity.
Defined.

Lemma mutations_are_persisted_witness :
  (∃ r this' reopened,
     @File.store example_codec "default" "token" (list_byte_of_string "abc")
       None None (example_env 1000) empty_file = (Return r, this') ∧
     @File.new example_codec "vault.enc" "correct horse" None (File.disk this') =
       Return reopened ∧
     (@File.retrieve example_codec "default" "token" None (example_env 2000)
        reopened).1 =
       Return {| value := list_byte_of_string (string_of_list_byte
                            (list_byte_of_string "abc"));
                 retrieve_version := store_version r |}) ∧
  (∃ this' reopened,
     @File.delete example_codec "default" "token" (example_env 1000) token_file =
       (Return true, this') ∧
     @File.new example_codec "vault.enc" "correct horse" None (File.disk this') =
       Return reopened ∧
     (@File.retrieve example_codec "default" "token" None (example_env 2000)
        reopened).1 = Throw SecretNotFoundError).
Proof.
  destruct (@mutations_are_persisted example_codec) as (Hstore & Hdelete).
  split.
  - refine (Hstore "default" "token" (list_byte_of_string "abc") None
              (example_env 1000) (example_env 2000) empty_file
              "correct horse" None _ _ _).
    + split; vm_compute; discriminate.
    + reflexivity.
    + repeat apply conj; vm_compute; reflexivity.
  - refine (Hdelete "default" "token" None (example_env 1000) (example_env 2000)
              token_file token_stored "correct horse" None _ _ _).
    + vm_compute. reflexivity.
    + reflexivity.
    + repeat apply conj; vm_compute; reflexivity.
Defined.

Lemma session_lives_for_its_ttl_witness :
  (∀ env',
     now env' ≤ now (example_env 2000) + Client.ttlSeconds minted_session * 1000 →
     @Client._validateSession Memory.MemoryBackend
       (Client.sessionId minted_session) env' minted_client =
       (Return minted_session, minted_client)) ∧
  (∀ env',
     now (example_env 2000) + Client.ttlSeconds minted_session * 1000 < now env' →
     Z.abs (now (example_env 2000) + Client.ttlSeconds minted_session * 1000) ≤
       8640000000000000 →
     ∃ this'',
       @Client._validateSession Memory.MemoryBackend
         (Client.sessionId minted_session) env' minted_client =
         (Throw SessionExpiredError, this'') ∧
       Client._sessions this'' !! Client.sessionId minted_session = None ∧
       ∀ env'',
         @Client._validateSession Memory.MemoryBackend
           (Client.sessionId minted_session) env'' this'' =
           (Throw SessionNotFoundError, this'')) ∧
  (Client.expiresAt unending_session = InvalidDate ∧
   ∀ env',
     @Client._validateSession Memory.MemoryBackend
       (Client.sessionId unending_session) env' unending_client =
       (Return unending_session, unending_client)).
Proof.
  split; [|split].
  - refine (proj1 (@session_lives_for_its_ttl _ (@Memory.is_backend example_host)
                     example_host example_options (example_env 2000)
                     (Client.new example_memory) minted_client minted_session _ _)).
    + discriminate.
    + vm_compute. reflexivity.
  - refine (proj1 (proj2 (@session_lives_for_its_ttl _
                     (@Memory.is_backend example_host)
                     example_host example_options (example_env 2000)
                     (Client.new example_memory) minted_client minted_session _ _))).
    + discriminate.
    + vm_compute. reflexivity.
  - refine (proj2 (proj2 (@session_lives_for_its_ttl _
                     (@Memory.is_backend example_host)
                     example_host negative_ttl_options (example_env 2000)
                     (Client.new example_memory) unending_client unending_session
                     _ _)) _).
    + discriminate.
    + vm_compute. reflexivity.
    + vm_compute. reflexivity.
Defined.

Lemma terminate_removes_the_session_witness :
  ∃ echo this',
    @Client.authenticate _ (@Memory.is_backend example_host) example_host
      terminate_options (example_env 2000) example_client = (Return echo, this') ∧
    Client.sessionId echo = "avp_sess_a" ∧
    Client.ttlSeconds echo = 0 ∧
    Client._sessions this' = base.delete "avp_sess_a" (Client._sessions example_client) ∧
    Client._backend this' = Client._backend example_client ∧
    ∀ env',
      Client._validateSession "avp_sess_a" env' this' =
        (Throw SessionNotFoundError, this').
Proof.
  refine (proj1 (@terminate_removes_the_session _ (@Memory.is_backend example_host)
                   example_host)
            terminate_options (example_env 2000) example_client "avp_sess_a" _ _ _ _).
  - reflexivity.
  - vm_compute. reflexivity.
  - vm_compute. reflexivity.
  - discriminate.
Defined.

Lemma authenticate_examines_no_credential_witness :
  @Client.authenticate _ (@Memory.is_backend example_host) example_host
    {| Client.opt_workspace := None; Client.opt_agentId := None;
       Client.opt_authMethod := Some TOKEN;
       Client.opt_authData := Some {[ "token" := "no such token" ]};
       Client.opt_requestedTtl := None |}
    (example_env 2000) (Client.new example_memory) =
  @Client.authenticate _ (@Memory.is_backend example_host) example_host
    {| Client.opt_workspace := None; Client.opt_agentId := None;
       Client.opt_authMethod := Some NONE;
       Client.opt_authData := None;
       Client.opt_requestedTtl := None |}
    (example_env 2000) (Client.new example_memory).
Proof.
  refine (@authenticate_examines_no_credential _ (@Memory.is_backend example_host)
            example_host None None None TOKEN NONE _ None (example_env 2000)
            (Client.new example_memory) _ _).
  - discriminate.
  - discriminate.
Defined.

Lemma client_store_guards_witness :
  @Client.store _ (@Memory.is_backend example_host)
    "avp_sess_a" "bad name" (list_byte_of_string "abc")
    {| Client.opt_labels := None; Client.opt_expiresAt := None |}
    (example_env 2000) (example_env 2001) example_client =
    (Throw InvalidNameError, example_client) ∧
  @Client.store _ (@Memory.is_backend example_host)
    "avp_sess_a" "token" (replicate (Z.to_nat 65537) Byte.x00)
    {| Client.opt_labels := None; Client.opt_expiresAt := None |}
    (example_env 2000) (example_env 2001) example_client =
    (Throw ValueTooLargeError, example_client).
Proof.
  split.
  - destruct (@client_store_guards _ (@Memory.is_backend example_host) example_host
                "avp_sess_a" "bad name" (list_byte_of_string "abc")
                {| Client.opt_labels := None; Client.opt_expiresAt := None |}
                (example_env 2000) (example_env 2001) example_client)
      as (_ & _ & _ & Hname & _).
    refine (Hname (example_session "avp_sess_a" "default") _ _ _).
    + vm_compute. reflexivity.
    + reflexivity.
    + vm_compute. reflexivity.
  - destruct (@client_store_guards _ (@Memory.is_backend example_host) example_host
                "avp_sess_a" "token" (replicate (Z.to_nat 65537) Byte.x00)
                {| Client.opt_labels := None; Client.opt_expiresAt := None |}
                (example_env 2000) (example_env 2001) example_client)
      as (_ & _ & _ & _ & Hsize).
    refine (Hsize (example_session "avp_sess_a" "default") _ _ _ _).
    + vm_compute. reflexivity.
    + reflexivity.
    + vm_compute. reflexivity.
    + vm_compute. reflexivity.
Defined.

(** A session of the workspace "default" deletes "api_key", over the memory
    backend and over the file backend, and deletes "constructor" over the
    file backend: what "other" keeps stays. *)
Lemma client_stays_in_session_workspace_witness :
  Memory._secrets
    (Client._backend
       (@Client.delete _ (@Memory.is_backend example_host)
          "avp_sess_a" "api_key" (example_env 2000) (example_env 2001)
          example_client).2) !! "other" =
  Memory._secrets (Client._backend example_client) !! "other" ∧
  File.workspaces_of
    (Client._backend
       (@Client.delete _ (@File.is_backend example_node example_host)
          "avp_sess_a" "api_key" (example_env 2000) (example_env 2001)
          file_client).2) !! "other" =
  File.workspaces_of (Client._backend file_client) !! "other" ∧
  File.workspaces_of
    (Client._backend
       (@Client.delete _ (@File.is_backend example_node example_host)
          "avp_sess_a" "constructor" (example_env 2000) (example_env 2001)
          file_client).2) !! "other" =
  File.workspaces_of (Client._backend file_client) !! "other".
Proof.
  split; [|split].
  - destruct (proj1 (@client_stays_in_session_workspace example_node example_host)
                example_client "avp_sess_a" "other" "api_key" [] None
                {| Client.opt_labels := None; Client.opt_expiresAt := None |}
                {| Client.opt_filterLabels := None; Client.opt_cursor := None;
                   Client.opt_limit := None |}
                (example_env 2000) (example_env 2001) (example_env 2002)
                (example_env 2003)) as (_ & _ & Hdelete & _).
    + intros session He. vm_compute in He. injection He as <-. discriminate.
    + exact Hdelete.
  - destruct (proj2 (@client_stays_in_session_workspace example_node example_host)
                file_client "avp_sess_a" "other" "api_key" [] None
                {| Client.opt_labels := None; Client.opt_expiresAt := None |}
                {| Client.opt_filterLabels := None; Client.opt_cursor := None;
                   Client.opt_limit := None |}
                (example_env 2000) (example_env 2001) (example_env 2002)
                (example_env 2003)) as (_ & _ & Hdelete & _).
    + intros session He. vm_compute in He. injection He as <-.
      split; [discriminate | compute_done].
    + compute_done.
    + apply Hdelete. discriminate.
  - destruct (proj2 (@client_stays_in_session_workspace example_node example_host)
                file_client "avp_sess_a" "other" "constructor" [] None
                {| Client.opt_labels := None; Client.opt_expiresAt := None |}
                {| Client.opt_filterLabels := None; Client.opt_cursor := None;
                   Client.opt_limit := None |}
                (example_env 2000) (example_env 2001) (example_env 2002)
                (example_env 2003)) as (_ & _ & Hdelete & _).
    + intros session He. vm_compute in He. injection He as <-.
      split; [discriminate | compute_done].
    + compute_done.
    + apply Hdelete. discriminate.
Defined.

Lemma client_store_then_retrieve_witness :
  ∃ r this',
    @Client.store _ (@Memory.is_backend example_host)
      "avp_sess_a" "token" (list_byte_of_string "abc")
      {| Client.opt_labels := None; Client.opt_expiresAt := None |}
      (example_env 2000) (example_env 2001) example_client = (Return r, this') ∧
    (Client.workspace (example_session "avp_sess_c" "default") =
     Client.workspace (example_session "avp_sess_a" "default") →
     (@Client.retrieve _ (@Memory.is_backend example_host)
        "avp_sess_c" "token" None (example_env 3000) (example_env 3001) this').1 =
       Return {| Client.retrieved_name := "token";
                 Client.retrieved_value := list_byte_of_string "abc";
                 Client.encoding := "utf8";
                 Client.retrieved_backend :=
                   Memory._backendId (Client._backend example_client);
                 Client.retrieved_version := Client.stored_version r |}) ∧
    (Client.workspace (example_session "avp_sess_c" "default") ≠
     Client.workspace (example_session "avp_sess_a" "default") →
     ∀ version,
       (@Client.retrieve _ (@Memory.is_backend example_host)
          "avp_sess_c" "token" version (example_env 3000) (example_env 3001) this').1 =
       (@Client.retrieve _ (@Memory.is_backend example_host)
          "avp_sess_c" "token" version (example_env 3000) (example_env 3001)
          example_client).1).
Proof.
  refine (@client_store_then_retrieve example_host example_client
            "avp_sess_a" "avp_sess_c"
            (example_session "avp_sess_a" "default")
            (example_session "avp_sess_c" "default")
            "token" (list_byte_of_string "abc")
            (example_env 2000) (example_env 2001) (example_env 3000)
            (example_env 3001) _ _ _ _ _ _).
  - vm_compute. reflexivity.
  - reflexivity.
  - vm_compute. reflexivity.
  - reflexivity.
  - vm_compute. reflexivity.
  - vm_compute. discriminate.
Defined.

Lemma error_response_round_trip_witness :
  Errors.fromErrorResponse
    (Errors.toJSON (Errors.new_SecretNotFoundError (Some "Secret 'api_key' not found"))) =
    Some (Errors.new_SecretNotFoundError (Some "Secret 'api_key' not found")) ∧
  Errors.fromErrorResponse
    (Errors.toJSON (Errors.new_BackendUnavailableError (Some "no keytar"))) =
    Some (Errors.new_BackendError (Some "no keytar") None).
Proof.
  destruct error_response_round_trip as (Hsame & _ & Hbackend & _).
  split.
  - refine (Hsame "SECRET_NOT_FOUND"
              (λ m, Errors.new_SecretNotFoundError (Some m))
              "Secret 'api_key' not found" _ _ _).
    + vm_compute. reflexivity.
    + discriminate.
    + discriminate.
  - refine (Hbackend "no keytar" _). discriminate.
Defined.

Lemma secret_names_are_workspace_ids_witness :
  validateWorkspaceId "api_key" = true ∧ (1 ≤ String.length "api_key" ≤ 255)%nat.
Proof.
  refine (proj1 secret_names_are_workspace_ids "api_key" _).
  vm_compute. reflexivity.
Defined.

Lemma rotate_of_expired_secret_witness :
  (∃ this',
     @Backend.rotate _ (@Memory.is_backend example_host) "default" "api_key"
       (list_byte_of_string "late") (example_env 6000) (example_env 6001)
       example_memory = (Throw SecretNotFoundError, this') ∧
     Memory.lookup_secret this' "default" "api_key" = None ∧
     ∀ value' env3 env4,
       @Backend.rotate _ (@Memory.is_backend example_host) "default" "api_key"
         value' env3 env4 this' = (Throw SecretNotFoundError, this')) ∧
  (∃ this',
     @Backend.rotate _ (@File.is_backend example_node example_host) "default" "api_key"
       (list_byte_of_string "late") (example_env 6000) (example_env 6001)
       example_file = (Throw SecretNotFoundError, this') ∧
     File.lookup_secret this' "default" "api_key" = None ∧
     ∀ value' env3 env4,
       @Backend.rotate _ (@File.is_backend example_node example_host) "default" "api_key"
         value' env3 env4 this' = (Throw SecretNotFoundError, this')) ∧
  (∃ this',
     @Backend.rotate _ (@File.is_backend example_node example_host)
       "default" "constructor" (list_byte_of_string "late")
       (example_env 6000) (example_env 6001) crafted_file =
       (Throw SecretNotFoundError, this') ∧
     ∀ value' env3 env4,
       @Backend.rotate _ (@File.is_backend example_node example_host)
         "default" "constructor" value' env3 env4 this' = (Throw TypeError, this')).
Proof.
  destruct (@rotate_of_expired_secret example_node example_host) as (Hmem & Hfile).
  split; [|split].
  - refine (Hmem "default" "api_key" (list_byte_of_string "late")
              (example_env 6000) (example_env 6001) example_memory example_secret _ _).
    + vm_compute. reflexivity.
    + vm_compute. reflexivity.
  - destruct (Hfile "default" "api_key" (list_byte_of_string "late")
                (example_env 6000) (example_env 6001) example_file example_stored)
      as (this' & Hrotate & Hgone & _ & Hagain).
    + vm_compute. reflexivity.
    + vm_compute. reflexivity.
    + exists this'. split; [exact Hrotate|]. split; [exact Hgone|]. exact Hagain.
  - destruct (Hfile "default" "constructor" (list_byte_of_string "late")
                (example_env 6000) (example_env 6001) crafted_file example_stored)
      as (this' & Hrotate & _ & _ & Hagain).
    + vm_compute. reflexivity.
    + vm_compute. reflexivity.
    + exists this'. split; [exact Hrotate|]. exact Hagain.
Defined.

(** The Invalid Date for an expiration, in the example vault: the store of
    "api_key" throws the RangeError and the store of "constructor" the
    TypeError. *)
Lemma invalid_expiry_date_witness :
  (∃ this',
     @File.store example_node "default" "api_key" (list_byte_of_string "abc") None
       (Some InvalidDate) (example_env 2000) example_file =
       (Throw RangeError, this') ∧
     File.disk this' = File.disk example_file ∧
     File.lookup_secret this' "default" "api_key" = Some example_stored) ∧
  (∃ this',
     @File.store example_node "default" "constructor" (list_byte_of_string "abc") None
       (Some InvalidDate) (example_env 2000) example_file =
       (Throw TypeError, this') ∧
     File.disk this' = File.disk example_file ∧
     File.lookup_secret this' "default" "constructor" = None).
Proof.
  destruct (@invalid_expiry_date example_node) as (_ & Hfile).
  split.
  - destruct (Hfile "default" "api_key" (list_byte_of_string "abc") None
                (example_env 2000) example_file)
      as (e & this' & Hstore & Hin & _ & Hdisk & Hsame);
      [vm_compute; discriminate|].
    rewrite Hin in Hstore by (split; vm_compute; discriminate).
    exists this'. split; [exact Hstore|]. split; [exact Hdisk|]. apply Hsame.
  - destruct (Hfile "default" "constructor" (list_byte_of_string "abc") None
                (example_env 2000) example_file)
      as (e & this' & Hstore & _ & Hout & Hdisk & Hsame);
      [vm_compute; discriminate|].
    rewrite Hout in Hstore by (intros [_ Hn]; by vm_compute in Hn).
    exists this'. split; [exact Hstore|]. split; [exact Hdisk|]. apply Hsame.
Defined.

(** At the time 5000, the instant at which "api_key" expires. *)
Lemma live_until_expiry_has_passed_witness :
  Memory.retrieve "default" "api_key" None (example_env 5000) example_memory =
    (Return {| value := Memory.stored_value example_secret;
               retrieve_version := version (Memory.stored_metadata example_secret) |},
     example_memory) ∧
  Memory.getMetadata "default" "api_key" (example_env 5000) example_memory =
    (Return (Memory.stored_metadata example_secret), example_memory).
Proof.
  refine (proj1 (@live_until_expiry_has_passed example_node)
            "default" "api_key" (example_env 5000) example_memory example_secret _ _).
  - vm_compute. reflexivity.
  - intros t [= <-]. simpl. lia.
Defined.

Lemma client_listing_pages_witness :
  @Client.listSecrets _ (@Memory.is_backend example_host) "avp_sess_a"
    {| Client.opt_filterLabels := None; Client.opt_cursor := None;
       Client.opt_limit := None |}
    (example_env 2000) (example_env 2001) example_client =
    (Return
       {| Client.listed_secrets :=
            take (Z.to_nat 100)
              (drop (Z.to_nat 0)
                 (@memory_listing example_host "default" None 2001 example_memory));
          Client.listed_cursor :=
            if bool_decide
                 (0 + 100 <
                  Z.of_nat (length (@memory_listing example_host "default" None
                                      2001 example_memory)))
            then Some (pretty (0 + 100)) else None;
          Client.hasMore :=
            bool_decide
              (0 + 100 <
               Z.of_nat (length (@memory_listing example_host "default" None
                                   2001 example_memory))) |},
     example_client).
Proof.
  refine (@client_listing_pages example_host example_client "avp_sess_a"
            (example_session "avp_sess_a" "default")
            {| Client.opt_filterLabels := None; Client.opt_cursor := None;
               Client.opt_limit := None |}
            0 (example_env 2000) (example_env 2001) _ _ _ _ _).
  - vm_compute. reflexivity.
  - reflexivity.
  - reflexivity.
  - lia.
  - simpl. lia.
Defined.

(** ** On the example keychain *)

Lemma keychain_store_then_retrieve_witness :
  ∃ r this',
    @Keychain.store example_keychain_node "default" "token"
      (list_byte_of_string "abc") None None (example_env 1000) example_keychain =
      (Return r, this') ∧
    @Keychain.retrieve example_keychain_node "default" "token" None
      (example_env 2000) this' =
      (Return {| value := list_byte_of_string (string_of_list_byte
                            (list_byte_of_string "abc"));
                 retrieve_version := Keychain.number_or (Some (store_version r)) 1 |},
       this') ∧
    @Keychain.getMetadata example_keychain_node "default" "token"
      (example_env 2000) this' =
      (Return (@Keychain.to_metadata example_keychain_node
                 (@keychain_written example_keychain_node
                    (@keychain_metadata example_keychain_node example_keychain
                       "default" "token") None None (now (example_env 1000)))),
       this') ∧
    (@keychain_metadata example_keychain_node example_keychain "default" "token" =
       None →
     r = {| created := true; store_version := 1 |}).
Proof.
  refine (@keychain_store_then_retrieve example_keychain_node "default" "token"
            (list_byte_of_string "abc") None (example_env 1000) (example_env 2000)
            example_keychain _ _ _ _).
  - reflexivity.
  - discriminate.
  - vm_compute. discriminate.
  - vm_compute. reflexivity.
Defined.

Lemma keychain_workspaces_collide_witness :
  ∃ r this' names,
    @Keychain.store example_keychain_node "default" "token"
      (list_byte_of_string "abc") None None (example_env 1000) example_keychain =
      (Return r, this') ∧
    @Keychain.retrieve example_keychain_node "meta-default" "token" None
      (example_env 2000) this' =
      (Return {| value :=
                   list_byte_of_string
                     (@Keychain.JSON_stringify_metadata example_keychain_node
                        (@keychain_written example_keychain_node
                           (@keychain_metadata example_keychain_node
                              example_keychain "default" "token")
                           None None (now (example_env 1000))));
                 retrieve_version := 1 |}, this') ∧
    Keychain.credentials this'
      !! (Keychain.metaServiceName example_keychain "default", Keychain.indexKey) =
      Some names ∧
    @Keychain.retrieve example_keychain_node "meta-default" Keychain.indexKey None
      (example_env 2000) this' =
      (Return {| value := list_byte_of_string names; retrieve_version := 1 |}, this') ∧
    (validateWorkspaceId "default" = true →
     (String.length "default" ≤ 250)%nat →
     validateWorkspaceId "meta-default" = true).
Proof.
  refine (@keychain_workspaces_collide example_keychain_node "default" "token"
            (list_byte_of_string "abc") None (example_env 1000) (example_env 2000)
            example_keychain _ _ _).
  - reflexivity.
  - discriminate.
  - intros account. reflexivity.
Defined.

Lemma keychain_delete_reaches_other_workspace_witness :
  ∃ r this',
    @Keychain.store example_keychain_node "default" "token"
      (list_byte_of_string "abc") None None (example_env 1000) example_keychain =
      (Return r, this') ∧
    (∃ this'',
       @Keychain.delete example_keychain_node "meta-default" "token" this' =
         (Return true, this'') ∧
       @Keychain.getMetadata example_keychain_node "default" "token"
         (example_env 2000) this'' = (Throw SecretNotFoundError, this'') ∧
       @Keychain.retrieve example_keychain_node "default" "token" None
         (example_env 2000) this'' =
         (Return {| value := list_byte_of_string (string_of_list_byte
                               (list_byte_of_string "abc"));
                    retrieve_version := 1 |}, this'')) ∧
    (∃ this'',
       @Keychain.delete example_keychain_node "meta-default" Keychain.indexKey this' =
         (Return true, this'') ∧
       Keychain.credentials this''
         !! (Keychain.serviceName example_keychain "default", "token") =
         Some (string_of_list_byte (list_byte_of_string "abc")) ∧
       ∀ filterLabels,
         @Keychain.listSecrets example_keychain_node "default" filterLabels None None
           (example_env 2000) this'' =
           (Return {| secrets := []; cursor := None |}, this'')).
Proof.
  refine (@keychain_delete_reaches_other_workspace example_keychain_node
            "default" "token" (list_byte_of_string "abc") None
            (example_env 1000) (example_env 2000) example_keychain _ _ _).
  - reflexivity.
  - discriminate.
  - intros account. reflexivity.
Defined.

Lemma keychain_delete_then_not_found_witness :
  ∃ this',
    @Keychain.delete example_keychain_node "default" "token" stored_keychain =
      (Return true, this') ∧
    (∀ v env, @Keychain.retrieve example_keychain_node "default" "token" v env this' =
                (Throw SecretNotFoundError, this')) ∧
    (∀ env, @Keychain.getMetadata example_keychain_node "default" "token" env this' =
              (Throw SecretNotFoundError, this')) ∧
    @Keychain.delete example_keychain_node "default" "token" this' =
      (Return false, this') ∧
    (∀ service account,
       service ≠ Keychain.serviceName stored_keychain "default" →
       service ≠ Keychain.metaServiceName stored_keychain "default" →
       Keychain.credentials this' !! (service, account) =
       Keychain.credentials stored_keychain !! (service, account)).
Proof.
  refine (proj1 (@keychain_delete_then_not_found example_keychain_node
                   "default" "token" stored_keychain _ _) _).
  - reflexivity.
  - discriminate.
  - vm_compute. eexists. reflexivity.
Defined.

Lemma keychain_without_keytar_witness :
  @Keychain.store example_keychain_node "default" "token"
    (list_byte_of_string "abc") None None (example_env 1000) missing_keytar =
    (Throw BackendUnavailableError, missing_keytar) ∧
  @Keychain.retrieve example_keychain_node "default" "token" None
    (example_env 1000) missing_keytar =
    (Throw BackendUnavailableError, missing_keytar).
Proof.
  destruct (@keychain_without_keytar example_keychain_node "default" "token"
              (list_byte_of_string "abc") None None None None None None
              (example_env 1000) missing_keytar) as (Hstore & Hretrieve & _).
  - reflexivity.
  - split; [exact Hstore | exact Hretrieve].
Defined.
